(** * Analytics and scheduled reporting of the ticketing backend

    A shallow embedding of
      - [backend/src/services/analyticsService.js] (snapshot aggregation,
        anomaly and trend detection, forecasting, task trends), and
      - [backend/src/scheduler/reportScheduler.js] (the hourly tick that
        dispatches scheduled reports),
    followed by the properties the specification states about them.

    Conventions of the embedding.
      - Database rows and query results are data: a function that starts with
        [await Model.findAll(...)] takes the rows the query returned.
      - Counters, lengths and millisecond timestamps are integers ([Z]).
      - Fractional JavaScript numbers are values of a type [num] with the
        arithmetic operations of class [Number], which has two instances:
        IEEE doubles ([float]) and exact rationals ([Q]). Definitions and
        structural theorems are generic in [num]; order facts are proved
        for [Q], where the rounding error of doubles is left out.
      - A DATEONLY column is a day number (days since 1970-01-01) and a
        [Date] is a millisecond timestamp; the time zone of the process is a
        parameter ([TimeZone]) of what reads or sets local time.
      - What lies outside the repository (the cron library, the object
        mapper, the mail transport, report generation against the database)
        answers through the fields of the environment a run is in; an answer
        can be that the call throws. *)

From Stdlib Require Import ZArith QArith Qabs Qround Lia DecimalString Floats Sorted.
From stdpp Require Import gmap strings list pretty.

Open Scope Z_scope.

(** ** JavaScript numbers *)

Class Number (num : Type) := {
  of_Z : Z -> num;                 (* an integer as a number *)
  num_half : num;                  (* the literal 0.5 *)
  num_add : num -> num -> num;
  num_sub : num -> num -> num;
  num_mul : num -> num -> num;
  num_div : num -> num -> num;
  num_gt : num -> num -> bool;     (* x > y *)
  Math_round : num -> Z;           (* nearest integer, ties towards +infinity *)
  or_zero : num -> num             (* x || 0 *)
}.

(** Exact rational arithmetic. [Math.round x] is [floor (x + 1/2)]. *)
#[export] Instance Q_Number : Number Q := {|
  of_Z := inject_Z;
  num_half := (1 # 2)%Q;
  num_add := Qplus;
  num_sub := Qminus;
  num_mul := Qmult;
  num_div := Qdiv;
  num_gt := fun x y => negb (Qle_bool x y);
  Math_round := fun x => Qfloor (x + (1 # 2))%Q;
  or_zero := fun x => if Qeq_bool x 0 then 0%Q else x
|}.

(** IEEE 754 binary64, the numbers JavaScript computes with. An integer is
    rounded to the nearest double; [Math.round] reads the mantissa and the
    exponent of a finite double (it has no integer value, here 0, on NaN and
    the infinities). *)
Definition float_of_Z (z : Z) : float :=
  SF2Prim (SpecFloat.binary_normalize FloatOps.prec FloatOps.emax z 0 false).

Definition float_round (x : float) : Z :=
  match Prim2SF x with
  | SpecFloat.S754_finite negative m e =>
      let n := if negative then Z.neg m else Z.pos m in
      if 0 <=? e then n * 2 ^ e
      else (2 * n + 2 ^ (- e)) / 2 ^ (- e + 1)
  | _ => 0
  end.

(** *** Values of doubles

    A finite double with mantissa [m] and exponent [e] has the value
    m * 2^e. [scaled m e] is that value times 2^3000: an integer for every
    exponent a double, or an intermediate result of a division or a product
    of doubles, can have, so that values are compared in [Z]. *)
Definition scaled (m e : Z) : Z := m * 2 ^ (e + 3000).

(** The round and sticky bits of a shifted mantissa: some nonzero bit was
    shifted out. *)
Definition inexact (rec : shr_record) : bool := shr_r rec || shr_s rec.

(** [y] is [x] shifted right by [k] bits, and [y] is inexact only when [x]
    was or a nonzero bit was shifted out. *)
Definition shiftedRight (k : Z) (x y : shr_record) : Prop :=
  shr_m y = shr_m x / 2 ^ k
  /\ (inexact y = true -> inexact x = true \/ shr_m x mod 2 ^ k <> 0).

#[export] Instance Float_Number : Number float := {|
  of_Z := float_of_Z;
  num_half := 0.5%float;
  num_add := PrimFloat.add;
  num_sub := PrimFloat.sub;
  num_mul := PrimFloat.mul;
  num_div := PrimFloat.div;
  num_gt := fun x y => PrimFloat.ltb y x;
  Math_round := float_round;
  or_zero := fun x =>
    if PrimFloat.eqb x 0%float || negb (PrimFloat.eqb x x) then 0%float else x
|}.

(** A counter cell of a plain object: a number, or NaN. *)
Inductive counter : Type :=
  | Num (n : Z)
  | NaN.

(** [ToNumber] of a property read: a missing property reads [undefined],
    whose numeric value is NaN. *)
Definition toNumber (v : option counter) : counter :=
  match v with
  | Some c => c
  | None => NaN
  end.

Definition succ_counter (c : counter) : counter :=
  match c with
  | Num n => Num (n + 1)
  | NaN => NaN
  end.

(** [obj[key]++] *)
Definition postIncrement (obj : gmap string counter) (key : string)
  : gmap string counter :=
  <[key := succ_counter (toNumber (obj !! key))]> obj.

(** ** Dates *)

Definition msPerDay : Z := 86400000.

(** [new Date(dateOnly)]: midnight UTC of that day. *)
Definition newDate (day : Z) : Z := day * msPerDay.

(** The time zone of the process, as the language reads it: the offset of
    local time from UTC, in milliseconds. [localTZA t true] is the offset at
    the instant [t]; [localTZA t false] is the offset in force at the local
    time [t]. *)
Record TimeZone := mkTimeZone {
  localTZA : Z -> bool -> Z
}.

Definition localTime (tz : TimeZone) (t : Z) : Z := t + localTZA tz t true.

Definition utcOfLocal (tz : TimeZone) (t : Z) : Z := t - localTZA tz t false.

(** [d.setDate(d.getDate() + i)]. Both calls work on local time: the day of
    the month is read from the local time of [d], and setting it to [i] more
    gives the local time [i] days later at the same time of day
    ([MakeDay (year, month, date + i)] is [i] days after
    [MakeDay (year, month, date)]), which is then taken back to UTC. *)
Definition setDatePlus (tz : TimeZone) (t i : Z) : Z :=
  utcOfLocal tz (localTime tz t + i * msPerDay).

(** [d.toISOString().split('T')[0]], as a day number. *)
Definition toISODate (t : Z) : Z := t / msPerDay.

(** ** Rows *)

Record Task := mkTask {
  status : string;
  priority : string;
  dueDate : option Z;          (* null reads as the epoch in [new Date(null)] *)
  createdAt : Z;
  updatedAt : Z;
  comments : option (list Z)   (* creation times of the comments, when loaded *)
}.

Module TaskMetrics.
Record t {num : Type} := mk {
  totalTasks : Z;
  completedTasks : Z;
  pendingTasks : Z;
  overdueTasks : Z;
  averageCompletionTime : num;
  date : Z
}.
Arguments t : clear implicits.
Arguments mk {num}.
End TaskMetrics.

Module UserPerformance.
Record t {num : Type} := mk {
  tasksCompleted : Z;
  tasksOverdue : Z;
  averageResponseTime : num;
  productivityScore : num;
  date : Z
}.
Arguments t : clear implicits.
Arguments mk {num}.
End UserPerformance.

Record Anomaly := mkAnomaly {
  anomaly_date : Z;
  anomaly_type : string;
  anomaly_message : string
}.

Record Trend := mkTrend {
  trend_metric : string;
  trend_trend : string;
  trend_from : Z;
  trend_to : Z
}.

(** One forecast entry; the three forecasters name the value
    [predictedCompletedTasks], [predictedProductivityScore] and
    [predictedTotalTasks]. *)
Record Forecast := mkForecast {
  forecast_date : Z;
  predicted : Z
}.

(** ** analyticsService.js *)

Module AnalyticsService.

Definition isCompleted (task : Task) : bool := String.eqb (status task) "completed".

Definition dueTime (task : Task) : Z :=
  match dueDate task with
  | Some d => d
  | None => 0
  end.

(** [task.status !== 'completed' && new Date(task.dueDate) < new Date()] *)
Definition isOverdue (clock : Z) (task : Task) : bool :=
  negb (isCompleted task) && (dueTime task <? clock).

Definition count (p : Task -> bool) (tasks : list Task) : Z :=
  Z.of_nat (length (List.filter p tasks)).

Definition totalTime (tasks : list Task) : Z :=
  fold_left (fun sum task => sum + (updatedAt task - createdAt task)) tasks 0.

Section Aggregation.
Context {num : Type} `{Number num}.

Record UserSnapshot := mkUserSnapshot {
  us_tasksCompleted : Z;
  us_tasksOverdue : Z;
  us_averageResponseTime : num;
  us_productivityScore : num
}.

Record MetricsSnapshot := mkMetricsSnapshot {
  ms_totalTasks : Z;
  ms_completedTasks : Z;
  ms_pendingTasks : Z;
  ms_overdueTasks : Z;
  ms_averageCompletionTime : num
}.

Definition calculateTaskMetrics (tasks : list Task) (clock : Z) : MetricsSnapshot :=
  let completedTasks := List.filter isCompleted tasks in
  {| ms_totalTasks := Z.of_nat (length tasks);
     ms_completedTasks := count isCompleted tasks;
     ms_pendingTasks := count (fun task => String.eqb (status task) "pending") tasks;
     ms_overdueTasks := count (isOverdue clock) tasks;
     ms_averageCompletionTime :=
       if 0 <? Z.of_nat (length completedTasks)
       then num_div (of_Z (totalTime completedTasks))
                    (of_Z (Z.of_nat (length completedTasks)))
       else of_Z 0 |}.

(** The row [updateDailyMetrics] creates from a snapshot:
    [TaskMetrics.create({...taskMetrics, departmentId, date: today})]. *)
Definition storedTaskMetrics (m : MetricsSnapshot) (today : Z) : TaskMetrics.t num :=
  TaskMetrics.mk (ms_totalTasks m) (ms_completedTasks m) (ms_pendingTasks m)
                 (ms_overdueTasks m) (ms_averageCompletionTime m) today.

Definition hasComments (task : Task) : bool :=
  match comments task with
  | Some (_ :: _) => true
  | _ => false
  end.

Definition responseTime (task : Task) : Z :=
  match comments task with
  | Some (firstComment :: _) => firstComment - createdAt task
  | _ => 0
  end.

Definition calculateUserPerformance (tasks : list Task) (clock : Z) : UserSnapshot :=
  let tasksCompleted := count isCompleted tasks in
  let tasksOverdue := count (isOverdue clock) tasks in
  let tasksWithComments := List.filter hasComments tasks in
  let averageResponseTime :=
    if 0 <? Z.of_nat (length tasksWithComments)
    then num_div
           (of_Z (fold_left (fun sum task => sum + responseTime task) tasksWithComments 0))
           (of_Z (Z.of_nat (length tasksWithComments)))
    else of_Z 0 in
  let totalTasks := Z.of_nat (length tasks) in
  {| us_tasksCompleted := tasksCompleted;
     us_tasksOverdue := tasksOverdue;
     us_averageResponseTime := averageResponseTime;
     us_productivityScore :=
       if 0 <? totalTasks
       then
         let completionRate := num_div (of_Z tasksCompleted) (of_Z totalTasks) in
         let overdueRate := num_div (of_Z tasksOverdue) (of_Z totalTasks) in
         num_sub (num_mul completionRate (of_Z 100)) (num_mul overdueRate (of_Z 50))
       else of_Z 0 |}.

Record TaskTrends := mkTaskTrends {
  completionRate : num;
  averageResolutionTime : num;
  priorityDistribution : gmap string counter;
  statusDistribution : gmap string counter
}.

Definition initialPriorityDistribution : gmap string counter :=
  <["high" := Num 0]> (<["medium" := Num 0]> (<["low" := Num 0]> ∅)).

Definition initialStatusDistribution : gmap string counter :=
  <["pending" := Num 0]> (<["in_progress" := Num 0]>
    (<["completed" := Num 0]> (<["cancelled" := Num 0]> ∅))).

Definition calculateTaskTrends (tasks : list Task) : TaskTrends :=
  let completedTasks := List.filter isCompleted tasks in
  {| completionRate :=
       if 0 <? Z.of_nat (length tasks)
       then num_mul (num_div (of_Z (Z.of_nat (length completedTasks)))
                             (of_Z (Z.of_nat (length tasks))))
                    (of_Z 100)
       else of_Z 0;
     averageResolutionTime :=
       if 0 <? Z.of_nat (length completedTasks)
       then num_div (of_Z (totalTime completedTasks))
                    (of_Z (Z.of_nat (length completedTasks)))
       else of_Z 0;
     priorityDistribution :=
       fold_left (fun dist task => postIncrement dist (priority task))
                 tasks initialPriorityDistribution;
     statusDistribution :=
       fold_left (fun dist task => postIncrement dist (status task))
                 tasks initialStatusDistribution |}.

Record PerformanceTrend := mkPerformanceTrend {
  pt_date : string;
  pt_completionRate : num;
  pt_averageResolutionTime : num;
  pt_productivityScore : num
}.

(** [formatDate] renders the row's date for the requested period. A
    TaskMetrics row has no [productivityScore], so that entry is
    [undefined || 0]. *)
Definition getPerformanceTrends (formatDate : Z -> string)
    (metrics : list (TaskMetrics.t num)) : list PerformanceTrend :=
  List.map (fun metric =>
    {| pt_date := formatDate (TaskMetrics.date metric);
       pt_completionRate :=
         if 0 <? TaskMetrics.totalTasks metric
         then num_mul (num_div (of_Z (TaskMetrics.completedTasks metric))
                               (of_Z (TaskMetrics.totalTasks metric)))
                      (of_Z 100)
         else of_Z 0;
       pt_averageResolutionTime := or_zero (TaskMetrics.averageCompletionTime metric);
       pt_productivityScore := of_Z 0 |}) metrics.

End Aggregation.

(** *** Anomaly and trend detection *)

Section Detection.
Context {num : Type} `{Number num}.

(** [prev.m > 0 && Math.abs(curr.m - prev.m) / prev.m > 0.5] *)
Definition significantChange (prev curr : Z) : bool :=
  (0 <? prev) && num_gt (num_div (of_Z (Z.abs (curr - prev))) (of_Z prev)) num_half.

(** The message template [`${label}: ${prev} → ${curr}`]. *)
Definition changeMessage (label : string) (prev curr : Z) : string :=
  label +:+ ": " +:+ pretty prev +:+ " → " +:+ pretty curr.

Section Scan.
Context {row : Type} (rowDate : row -> Z).
Context (metric1 : row -> Z) (type1 label1 : string).
Context (metric2 : row -> Z) (type2 label2 : string).

(** The body of the loop for one index [i]: the two guarded pushes. *)
Definition scanBody (prev curr : row) (anomalies : list Anomaly) : list Anomaly :=
  let anomalies :=
    if significantChange (metric1 prev) (metric1 curr)
    then anomalies ++ [mkAnomaly (rowDate curr) type1
                         (changeMessage label1 (metric1 prev) (metric1 curr))]
    else anomalies in
  if significantChange (metric2 prev) (metric2 curr)
  then anomalies ++ [mkAnomaly (rowDate curr) type2
                       (changeMessage label2 (metric2 prev) (metric2 curr))]
  else anomalies.

(** [for (let i = 1; i < metrics.length; i++) { ... }]; [fuel] bounds the
    number of iterations and [metrics.length] is enough. *)
Fixpoint scanLoop (fuel : nat) (i : nat) (metrics : list row)
    (anomalies : list Anomaly) : list Anomaly :=
  match fuel with
  | O => anomalies
  | S fuel' =>
      if (i <? length metrics)%nat
      then match metrics !! (i - 1)%nat, metrics !! i with
           | Some prev, Some curr =>
               scanLoop fuel' (S i) metrics (scanBody prev curr anomalies)
           | _, _ => anomalies
           end
      else anomalies
  end.

(** [metrics] is [None] when the query result is null or undefined. *)
Definition scanAnomalies (metrics : option (list row)) : list Anomaly :=
  match metrics with
  | None => []
  | Some metrics =>
      if (length metrics <? 2)%nat then []
      else scanLoop (length metrics) 1 metrics []
  end.

End Scan.

Definition detectTaskAnomalies (metrics : option (list (TaskMetrics.t num)))
  : list Anomaly :=
  scanAnomalies TaskMetrics.date
    TaskMetrics.completedTasks "completedTasks" "Significant change in completed tasks"
    TaskMetrics.overdueTasks "overdueTasks" "Significant change in overdue tasks"
    metrics.

Definition detectUserActivityAnomalies
    (performance : option (list (UserPerformance.t num))) : list Anomaly :=
  scanAnomalies UserPerformance.date
    UserPerformance.tasksCompleted "tasksCompleted" "Significant change in tasks completed"
    UserPerformance.tasksOverdue "tasksOverdue" "Significant change in overdue tasks"
    performance.

Definition detectDepartmentTrends (metrics : option (list (TaskMetrics.t num)))
  : list Trend :=
  match metrics with
  | None => []
  | Some metrics =>
      if (length metrics <? 2)%nat then []
      else match metrics !! 0%nat, metrics !! (length metrics - 1)%nat with
           | Some first, Some last =>
               let trend := TaskMetrics.completedTasks last
                            - TaskMetrics.completedTasks first in
               let trendType :=
                 if 0 <? trend then "increasing"
                 else if trend <? 0 then "decreasing"
                 else "stable" in
               [mkTrend "completedTasks" trendType
                  (TaskMetrics.completedTasks first)
                  (TaskMetrics.completedTasks last)]
           | _, _ => []
           end
  end.

End Detection.

(** *** Forecasting *)

Section Forecasting.
Context {num : Type} `{Number num}.
Context (tz : TimeZone).

Section Projection.
Context {row : Type} (rowDate : row -> Z) (field : row -> num).

Definition projectedPoint (lastMetric : row) (avgChange : num) (i : Z) : Forecast :=
  let nextDate := setDatePlus tz (newDate (rowDate lastMetric)) i in
  {| forecast_date := toISODate nextDate;
     predicted := Math_round (num_add (field lastMetric) (num_mul avgChange (of_Z i))) |}.

(** [for (let i = 1; i <= 7; i++) forecast.push(...)] *)
Fixpoint projectLoop (fuel : nat) (i : Z) (lastMetric : row) (avgChange : num)
    (forecast : list Forecast) : list Forecast :=
  match fuel with
  | O => forecast
  | S fuel' =>
      if i <=? 7
      then projectLoop fuel' (i + 1) lastMetric avgChange
             (forecast ++ [projectedPoint lastMetric avgChange i])
      else forecast
  end.

Definition linearForecast (metrics : option (list row)) : list Forecast :=
  match metrics with
  | None => []
  | Some metrics =>
      if (length metrics <? 2)%nat then []
      else match metrics !! (length metrics - 1)%nat, metrics !! 0%nat with
           | Some lastMetric, Some first =>
               let avgChange :=
                 num_div (num_sub (field lastMetric) (field first))
                         (of_Z (Z.of_nat (length metrics) - 1)) in
               projectLoop 8 1 lastMetric avgChange []
           | _, _ => []
           end
  end.

End Projection.

Definition forecastTaskCompletion (metrics : option (list (TaskMetrics.t num)))
  : list Forecast :=
  linearForecast TaskMetrics.date (fun m => of_Z (TaskMetrics.completedTasks m)) metrics.

Definition forecastUserProductivity
    (performance : option (list (UserPerformance.t num))) : list Forecast :=
  linearForecast UserPerformance.date UserPerformance.productivityScore performance.

Definition forecastDepartmentWorkload (metrics : option (list (TaskMetrics.t num)))
  : list Forecast :=
  linearForecast TaskMetrics.date (fun m => of_Z (TaskMetrics.totalTasks m)) metrics.

End Forecasting.

(** *** Department analytics and the daily aggregation *)

Section Daily.
Context {num : Type} `{Number num}.

Record DepartmentSnapshot := mkDepartmentSnapshot {
  da_totalEmployees : Z;
  da_activeEmployees : Z;
  da_departmentEfficiency : num;
  da_averageTaskCompletionTime : num
}.

(** [department] is what [Department.findByPk(id, { include: Users })]
    returned: the [isActive] flags of the department's users, or [None] for
    null, on which [department.Users] throws. *)
Definition calculateDepartmentAnalytics (department : option (list bool))
    (tasks : list Task) (clock : Z) : option DepartmentSnapshot :=
  match department with
  | None => None
  | Some users =>
      let completedTasks := List.filter isCompleted tasks in
      let totalTasks := Z.of_nat (length tasks) in
      Some
        {| da_totalEmployees := Z.of_nat (length users);
           da_activeEmployees := Z.of_nat (length (List.filter (fun isActive => isActive) users));
           da_departmentEfficiency :=
             if 0 <? totalTasks
             then
               let completionRate :=
                 num_div (of_Z (Z.of_nat (length completedTasks))) (of_Z totalTasks) in
               let overdueRate :=
                 num_div (of_Z (count (isOverdue clock) tasks)) (of_Z totalTasks) in
               num_sub (num_mul completionRate (of_Z 100)) (num_mul overdueRate (of_Z 50))
             else of_Z 0;
           da_averageTaskCompletionTime :=
             if 0 <? Z.of_nat (length completedTasks)
             then num_div (of_Z (totalTime completedTasks))
                          (of_Z (Z.of_nat (length completedTasks)))
             else of_Z 0 |}
  end.

(** The row [UserPerformance.create({...userPerformance, userId, date})]. *)
Definition storedUserPerformance (p : UserSnapshot) (today : Z) : UserPerformance.t num :=
  UserPerformance.mk (us_tasksCompleted p) (us_tasksOverdue p)
                     (us_averageResponseTime p) (us_productivityScore p) today.

(** What the aggregation reads: the departments, a department with its
    users by primary key, the users of a department, and the tasks of a
    department or of a user created up to a date. *)
Record Database := mkDatabase {
  db_departments : list string;
  db_department : string -> option (list bool);
  db_users : string -> list string;
  db_departmentTasks : string -> Z -> list Task;
  db_userTasks : string -> Z -> list Task
}.

(** The three snapshot tables, each in insertion order; a row is kept with
    the department or user it belongs to. *)
Record Tables := mkTables {
  tbl_taskMetrics : list (string * TaskMetrics.t num);
  tbl_departmentAnalytics : list (string * Z * DepartmentSnapshot);
  tbl_userPerformance : list (string * UserPerformance.t num)
}.

(** [for (const user of users) { ...; await UserPerformance.create(...) }] *)
Definition updateUsers (db : Database) (clock today : Z) (users : list string)
    (rows : list (string * UserPerformance.t num)) : list (string * UserPerformance.t num) :=
  fold_left (fun rows user =>
               rows ++ [(user, storedUserPerformance
                                 (calculateUserPerformance (db_userTasks db user today) clock)
                                 today)])
            users rows.

(** [for (const department of departments) { ... }]: the tables, and whether
    the loop ran to its end ([false]: a step threw, and the rows created
    before it stay). *)
Fixpoint updateDepartments (db : Database) (clock today : Z) (departments : list string)
    (tables : Tables) : Tables * bool :=
  match departments with
  | [] => (tables, true)
  | department :: rest =>
      let tasks := db_departmentTasks db department today in
      let taskMetrics := calculateTaskMetrics tasks clock in
      let withMetrics :=
        {| tbl_taskMetrics :=
             tbl_taskMetrics tables ++ [(department, storedTaskMetrics taskMetrics today)];
           tbl_departmentAnalytics := tbl_departmentAnalytics tables;
           tbl_userPerformance := tbl_userPerformance tables |} in
      match calculateDepartmentAnalytics (db_department db department) tasks clock with
      | None => (withMetrics, false)
      | Some departmentAnalytics =>
          updateDepartments db clock today rest
            {| tbl_taskMetrics := tbl_taskMetrics withMetrics;
               tbl_departmentAnalytics :=
                 tbl_departmentAnalytics withMetrics
                 ++ [(department, today, departmentAnalytics)];
               tbl_userPerformance :=
                 updateUsers db clock today (db_users db department)
                             (tbl_userPerformance withMetrics) |}
      end
  end.

(** [today] is [new Date().toISOString().split('T')[0]]. *)
Definition updateDailyMetrics (db : Database) (clock : Z) (tables : Tables)
  : Tables * bool :=
  updateDepartments db clock (toISODate clock) (db_departments db) tables.

End Daily.

(** *** Dashboard queries *)

(** A row of [SELECT status, priority, COUNT(id) ... GROUP BY status, priority]. *)
Record GroupCount := mkGroupCount {
  gc_status : string;
  gc_priority : string;
  gc_count : Z
}.

(** [acc[key] = (acc[key] || 0) + count] *)
Definition addCount (acc : gmap string Z) (key : string) (count : Z) : gmap string Z :=
  <[key := (match acc !! key with
            | Some n => if n =? 0 then 0 else n
            | None => 0
            end) + count]> acc.

Record Distribution := mkDistribution {
  byStatus : gmap string Z;
  byPriority : gmap string Z
}.

Definition getTaskDistribution (tasks : list GroupCount) : Distribution :=
  {| byStatus :=
       fold_left (fun acc task => addCount acc (gc_status task) (gc_count task)) tasks ∅;
     byPriority :=
       fold_left (fun acc task => addCount acc (gc_priority task) (gc_count task)) tasks ∅ |}.

Section Comparison.
Context {num : Type} `{Number num}.

Record DepartmentComparison := mkDepartmentComparison {
  dc_departmentId : string;
  dc_departmentName : string;
  dc_totalTasks : Z;
  dc_completedTasks : Z;
  dc_averageCompletionTime : num;
  dc_productivityScore : num
}.

(** [completedAt] and [productivityScore] read those attributes of a task
    ([None]: undefined). A department comes with its id, its name and its
    tasks of the period. *)
Definition getDepartmentComparison (completedAt : Task -> option Z)
    (productivityScore : Task -> option num)
    (departments : list (string * string * list Task)) : list DepartmentComparison :=
  List.map (fun dept =>
    let tasks := snd dept in
    {| dc_departmentId := fst (fst dept);
       dc_departmentName := snd (fst dept);
       dc_totalTasks := Z.of_nat (length tasks);
       dc_completedTasks := count isCompleted tasks;
       dc_averageCompletionTime :=
         or_zero
           (num_div
              (fold_left (fun acc task =>
                            num_add acc
                              (match completedAt task with
                               | Some t => of_Z (t - createdAt task)
                               | None => of_Z 0
                               end))
                         tasks (of_Z 0))
              (of_Z (Z.of_nat (length tasks))));
       dc_productivityScore :=
         or_zero
           (num_div
              (fold_left (fun acc task =>
                            num_add acc
                              (match productivityScore task with
                               | Some score => or_zero score
                               | None => of_Z 0
                               end))
                         tasks (of_Z 0))
              (of_Z (Z.of_nat (length tasks)))) |}) departments.

End Comparison.

End AnalyticsService.

(** ** reportScheduler.js *)

Module ReportScheduler.

(** The persisted schedule, a JSON object: [cron] is absent in [None]. *)
Record Schedule := mkSchedule {
  cron : option string;
  recipientEmail : option string;
  lastSent : option Z
}.

(** A row of the reports table, without its primary key. [parameters] is
    the JSON document the generators are given; [reportCreator] is the
    e-mail address of the included creator, when there is one. *)
Record CustomReport := mkCustomReport {
  name : string;
  type : string;
  parameters : string;
  isActive : bool;
  schedule : option Schedule;
  reportCreator : option string
}.

(** The reports table, by primary key. *)
Abbreviation Reports := (gmap string CustomReport).

(** What one run of the job sees of the world: the clock read at its start,
    and what the libraries and the collaborators answer.
      - [findAllAnswers] is [false] when the query of the run does not
        answer: building its [where] clause reads
        [CustomReport.sequelize.Op.ne], which throws when the Sequelize
        instance has no [Op], or the query rejects;
      - [validate expr] is [cron.validate(expr)];
      - [nextDates expr] is the date
        [cron.schedule(expr, () => {}, { scheduled: false }).nextDates().toDate()]
        evaluates to during this run, and [None] when evaluating it throws,
        as it does when the task the library returns has no [nextDates];
      - [generateCustomReport id] is [None] when the promise rejects, and the
        rendered data otherwise;
      - [sendMail to subject text] tells whether the transport delivered;
      - [updateWrites] tells whether [report.update({ schedule })] writes
        the row when the value it is given is the object the loaded row
        already holds; a mapper that compares the given value with the one
        the row holds finds them equal and writes nothing. *)
Record Env := mkEnv {
  now : Z;
  findAllAnswers : bool;
  validate : string -> bool;
  nextDates : string -> option Z;
  generateCustomReport : string -> option string;
  sendMail : string -> string -> string -> bool;
  updateWrites : bool
}.

Inductive Event : Type :=
  | GenerationFailed (id : string)
  | SendFailed (id : string)
  | Sent (id to : string).

Definition eventId (ev : Event) : string :=
  match ev with
  | GenerationFailed id => id
  | SendFailed id => id
  | Sent id _ => id
  end.

Definition newline : string := String (Ascii.ascii_of_nat 10) EmptyString.

Definition formatReportData (report : CustomReport) (data : string) : string :=
  "Report: " +:+ name report +:+ newline +:+ "Type: " +:+ type report
  +:+ newline +:+ newline +:+ "Data:" +:+ newline +:+ data.

(** [cron.validate(cronExpr) && <nextDates> <= now
     && (!lastSent || new Date(lastSent) < now)], evaluated from the left:
    [None] when the second operand is evaluated and throws. *)
Definition shouldSend (e : Env) (cronExpr : string) (lastSent : option Z)
  : option bool :=
  if validate e cronExpr
  then match nextDates e cronExpr with
       | None => None
       | Some next =>
           Some ((next <=? now e)
                 && match lastSent with
                    | None => true
                    | Some t => t <? now e
                    end)
       end
  else Some false.

(** [report.schedule.lastSent = now] *)
Definition setLastSent (report : CustomReport) (t : Z) : CustomReport :=
  {| name := name report;
     type := type report;
     parameters := parameters report;
     isActive := isActive report;
     schedule :=
       match schedule report with
       | Some s => Some {| cron := cron s;
                           recipientEmail := recipientEmail s;
                           lastSent := Some t |}
       | None => None
       end;
     reportCreator := reportCreator report |}.

(** The body of [for (const report of reports)]: the new table and what was
    logged, or [None] when the body throws. [continue] on a missing or empty
    expression ([!cronExpr]) and on [!shouldSend]; the due test is outside
    every [try], so when it throws the body does. A missing creator makes
    [report.reportCreator.email] throw inside the second [try], which is the
    send-failure branch. After the mail, [lastSent] is assigned inside the
    schedule object of the loaded row and that same object is handed to
    [report.update]. *)
Definition processReport (e : Env) (store : Reports) (id : string)
    (report : CustomReport) : option (Reports * list Event) :=
  let cronExpr := match schedule report with Some s => cron s | None => None end in
  let lastSent := match schedule report with Some s => lastSent s | None => None end in
  match cronExpr with
  | None => Some (store, [])
  | Some c =>
      if String.eqb c EmptyString then Some (store, [])
      else match shouldSend e c lastSent with
           | None => None
           | Some false => Some (store, [])
           | Some true =>
               match generateCustomReport e id with
               | None => Some (store, [GenerationFailed id])
               | Some reportData =>
                   match reportCreator report with
                   | None => Some (store, [SendFailed id])
                   | Some email =>
                       if sendMail e email ("Scheduled Report: " +:+ name report)
                            (formatReportData report reportData)
                       then Some (if updateWrites e
                                  then <[id := setLastSent report (now e)]> store
                                  else store,
                                  [Sent id email])
                       else Some (store, [SendFailed id])
                   end
               end
           end
  end.

(** [CustomReport.findAll({ where: { isActive: true, schedule: { ne: null } } })] *)
Definition findScheduled (store : Reports) : list (string * CustomReport) :=
  filter (fun kr => isActive (snd kr) = true /\ is_Some (schedule (snd kr)))
         (map_to_list store).

(** How a run ends: the table, what was logged, and whether the callback
    threw. *)
Record Run := mkRun {
  table : Reports;
  log : list Event;
  thrown : bool
}.

(** The loop over the reports loaded; a body that throws ends it. *)
Fixpoint processAll (e : Env) (reports : list (string * CustomReport))
    (store : Reports) (logged : list Event) : Run :=
  match reports with
  | [] => mkRun store logged false
  | kr :: rest =>
      match processReport e store (fst kr) (snd kr) with
      | None => mkRun store logged true
      | Some step => processAll e rest (fst step) (logged ++ snd step)
      end
  end.

(** One run of the hourly job. *)
Definition run (e : Env) (store : Reports) : Run :=
  if findAllAnswers e
  then processAll e (findScheduled store) store []
  else mkRun store [] true.

(** The table and the log a run leaves. *)
Definition tick (e : Env) (store : Reports) : Reports * list Event :=
  (table (run e store), log (run e store)).

End ReportScheduler.

(** ** Cron expressions of the weekly fragment

    The fire instants of a five-field expression whose day-of-month and
    month fields are [*], on a UTC clock. It gives the specification's
    "next fire instant strictly after t" a meaning for expressions such as
    [0 8 * * 1]. *)

Module Cron.

Inductive Field : Type :=
  | Any
  | At (n : Z).

Record Expr := mkExpr {
  minute : Field;
  hour : Field;
  dayOfWeek : Field
}.

Definition parseField (s : string) : option Field :=
  if String.eqb s "*" then Some Any
  else match NilEmpty.uint_of_string s with
       | Some d => Some (At (Z.of_uint d))
       | None => None
       end.

Definition parse (s : string) : option Expr :=
  match String.words s with
  | [mi; ho; dom; mo; dow] =>
      match parseField mi, parseField ho, parseField dom, parseField mo, parseField dow with
      | Some m, Some h, Some Any, Some Any, Some d => Some (mkExpr m h d)
      | _, _, _, _, _ => None
      end
  | _ => None
  end.

Definition matches (f : Field) (v : Z) : bool :=
  match f with
  | Any => true
  | At n => v =? n
  end.

(** Does the expression fire at minute [m] after the epoch? The epoch was a
    Thursday (day 4, Sunday being 0). *)
Definition fires (e : Expr) (m : Z) : bool :=
  matches (minute e) (m mod 60)
  && matches (hour e) ((m / 60) mod 24)
  && matches (dayOfWeek e) ((m / 1440 + 4) mod 7).

Fixpoint firstFire (fuel : nat) (e : Expr) (m : Z) : option Z :=
  match fuel with
  | O => None
  | S fuel' => if fires e m then Some m else firstFire fuel' e (m + 1)
  end.

Definition msPerMinute : Z := 60000.

(** The first fire instant strictly after [t] (milliseconds); one week of
    minutes is searched. *)
Definition nextFireAfter (e : Expr) (t : Z) : option Z :=
  match firstFire (Z.to_nat 10080) e (t / msPerMinute + 1) with
  | Some m => Some (m * msPerMinute)
  | None => None
  end.

End Cron.

(** ** analyticsService.js: custom reports *)

Module ReportService.
Import ReportScheduler.

(** What [generateCustomReport] throws: ['Report not found'],
    ['Invalid report type'], and whatever a query of a generator rejects
    with. *)
Inductive ReportError : Type :=
  | ReportNotFound
  | InvalidReportType
  | QueryRejected.

(** The data of a report: what a generator read from the database for the
    parameters stored with the report, or the placeholder object of
    [generateCustomReportData]. *)
Inductive ReportData : Type :=
  | Generated (data : string)
  | NotImplemented.

(** The three generators that query the database, given the parameters
    stored with the report: the data read, or [None] when a query rejects. *)
Record Generators := mkGenerators {
  generateTaskReport : string -> option string;
  generateUserReport : string -> option string;
  generateDepartmentReport : string -> option string
}.

Definition generated (answer : option string) : ReportError + ReportData :=
  match answer with
  | Some data => inr (Generated data)
  | None => inl QueryRejected
  end.

(** The placeholder: it reads nothing. *)
Definition generateCustomReportData (parameters : string) : ReportData := NotImplemented.

(** [findByPk], then the [switch] on [report.type]. *)
Definition generateCustomReport (gen : Generators) (store : Reports) (reportId : string)
  : ReportError + (CustomReport * ReportData) :=
  match store !! reportId with
  | None => inl ReportNotFound
  | Some report =>
      let data :=
        if String.eqb (type report) "task"
        then generated (generateTaskReport gen (parameters report))
        else if String.eqb (type report) "user"
        then generated (generateUserReport gen (parameters report))
        else if String.eqb (type report) "department"
        then generated (generateDepartmentReport gen (parameters report))
        else if String.eqb (type report) "custom"
        then inr (generateCustomReportData (parameters report))
        else inl InvalidReportType in
      match data with
      | inl error => inl error
      | inr data => inr (report, data)
      end
  end.

End ReportService.

(** ** middleware/auth.js *)

Module Auth.

(** The answers of the API: a status and a body. *)
Inductive Body : Type :=
  | ErrorBody (error : string)
  | ErrorsBody (errors : list string)
  | MessageBody (message : string)
  | ReportBody (report : ReportScheduler.CustomReport)
  | GeneratedBody (report : ReportScheduler.CustomReport) (data : ReportService.ReportData)
  | ReportsBody (reports : gmap string ReportScheduler.CustomReport)
  | MessageReportBody (message : string) (report : ReportScheduler.CustomReport).

Record Response := mkResponse {
  status : Z;
  body : Body
}.

(** A request as the handlers read it: the role of [req.user] (absent when
    no user was attached), the errors the validators collected, the
    [:reportId] parameter. *)
Record Request := mkRequest {
  req_role : option string;
  req_errors : list string;
  req_reportId : string
}.

Definition includes (roles : list string) (role : string) : bool :=
  existsb (String.eqb role) roles.

(** [authorizeRole(roles)]: [None] is [next()]. *)
Definition authorizeRole (roles : list string) (req : Request) : option Response :=
  match req_role req with
  | None => Some (mkResponse 401 (ErrorBody "Authentication required"))
  | Some role =>
      if negb (includes roles role)
      then Some (mkResponse 403 (ErrorBody "Not authorized to perform this action"))
      else None
  end.

(** [checkRole(allowedRoles)], kept beside it. *)
Definition checkRole (allowedRoles : list string) (req : Request) : option Response :=
  match req_role req with
  | None => Some (mkResponse 401 (ErrorBody "Authentication required"))
  | Some role =>
      if negb (includes allowedRoles role)
      then Some (mkResponse 403 (ErrorBody "Insufficient permissions"))
      else None
  end.

End Auth.

(** ** analyticsController.js and routes/analytics.js: custom reports *)

Module AnalyticsController.
Import ReportScheduler.
Import Auth.

Definition internalError : Response := mkResponse 500 (ErrorBody "Internal server error").

(** [if (!errors.isEmpty()) return res.status(400).json(...)] *)
Definition validationFailed (req : Request) : option Response :=
  match req_errors req with
  | [] => None
  | _ :: _ => Some (mkResponse 400 (ErrorsBody (req_errors req)))
  end.

(** [if (req.user.role !== 'admin') return res.status(403).json(...)]; with
    no [req.user] the read throws inside the [try]. *)
Definition adminOnly (req : Request) (error : string) : option Response :=
  match req_role req with
  | None => Some internalError
  | Some role =>
      if negb (String.eqb role "admin")
      then Some (mkResponse 403 (ErrorBody error))
      else None
  end.

Definition getCustomReport (gen : ReportService.Generators) (store : Reports)
    (req : Request) : Response :=
  match validationFailed req with
  | Some response => response
  | None =>
      match adminOnly req "Only administrators can view custom reports" with
      | Some response => response
      | None =>
          match ReportService.generateCustomReport gen store (req_reportId req) with
          | inr (report, data) => mkResponse 200 (GeneratedBody report data)
          | inl _ => internalError
          end
      end
  end.

(** The [where] of the list: [if (type) where.type = type] and
    [if (isActive !== undefined) where.isActive = isActive === 'true'], on
    the query parameters when given. *)
Definition listed (type isActive : option string) (report : CustomReport) : bool :=
  (match type with
   | Some t => String.eqb t EmptyString || String.eqb (ReportScheduler.type report) t
   | None => true
   end)
  && (match isActive with
      | Some flag => Bool.eqb (ReportScheduler.isActive report) (String.eqb flag "true")
      | None => true
      end).

Definition listCustomReports (store : Reports) (req : Request)
    (type isActive : option string) : Response :=
  match adminOnly req "Only administrators can list custom reports" with
  | Some response => response
  | None =>
      mkResponse 200
        (ReportsBody (filter (fun kr => listed type isActive (snd kr) = true) store))
  end.

(** The fields of the body [report.update] is given; an absent field is
    left as it is. *)
Record ReportUpdate := mkReportUpdate {
  upd_name : option string;
  upd_parameters : option string;
  upd_schedule : option Schedule;
  upd_isActive : option bool
}.

Definition applyUpdate (report : CustomReport) (update : ReportUpdate) : CustomReport :=
  {| name := default (name report) (upd_name update);
     type := ReportScheduler.type report;
     parameters := default (parameters report) (upd_parameters update);
     isActive := default (isActive report) (upd_isActive update);
     schedule :=
       match upd_schedule update with
       | Some s => Some s
       | None => schedule report
       end;
     reportCreator := reportCreator report |}.

Definition updateCustomReport (store : Reports) (req : Request) (update : ReportUpdate)
  : Reports * Response :=
  match validationFailed req with
  | Some response => (store, response)
  | None =>
      match adminOnly req "Only administrators can update custom reports" with
      | Some response => (store, response)
      | None =>
          match store !! req_reportId req with
          | None => (store, mkResponse 404 (ErrorBody "Report not found"))
          | Some report =>
              (<[req_reportId req := applyUpdate report update]> store,
               mkResponse 200 (ReportBody (applyUpdate report update)))
          end
      end
  end.

Definition deleteCustomReport (store : Reports) (req : Request) : Reports * Response :=
  match adminOnly req "Only administrators can delete custom reports" with
  | Some response => (store, response)
  | None =>
      match store !! req_reportId req with
      | None => (store, mkResponse 404 (ErrorBody "Report not found"))
      | Some report =>
          (delete (req_reportId req) store,
           mkResponse 200 (MessageBody "Report deleted successfully"))
      end
  end.

(** [report.schedule = { cron, recipientEmail }]: the attribute is assigned
    a new object, and the [update] that follows writes it. *)
Definition newSchedule (report : CustomReport) (cron recipientEmail : string)
  : CustomReport :=
  {| name := name report;
     type := ReportScheduler.type report;
     parameters := parameters report;
     isActive := isActive report;
     schedule := Some {| ReportScheduler.cron := Some cron;
                         ReportScheduler.recipientEmail := Some recipientEmail;
                         lastSent := None |};
     reportCreator := reportCreator report |}.

Definition updateCustomReportSchedule (store : Reports) (req : Request)
    (cron recipientEmail : string) : Reports * Response :=
  match validationFailed req with
  | Some response => (store, response)
  | None =>
      match adminOnly req "Only administrators can update report schedules" with
      | Some response => (store, response)
      | None =>
          match store !! req_reportId req with
          | None => (store, mkResponse 404 (ErrorBody "Report not found"))
          | Some report =>
              (<[req_reportId req := newSchedule report cron recipientEmail]> store,
               mkResponse 200
                 (MessageReportBody "Report schedule updated successfully"
                    (newSchedule report cron recipientEmail)))
          end
      end
  end.

(** The routes: [authorizeRole], the route's own check of the validation
    result where it has one, then the handler. *)
Definition reportRoles : list string := ["admin"; "department_head"].

Definition routeGetReport (gen : ReportService.Generators) (store : Reports)
    (req : Request) : Response :=
  match authorizeRole reportRoles req with
  | Some response => response
  | None => getCustomReport gen store req
  end.

Definition routeListReports (store : Reports) (req : Request)
    (type isActive : option string) : Response :=
  match authorizeRole reportRoles req with
  | Some response => response
  | None => listCustomReports store req type isActive
  end.

Definition routeUpdateReport (store : Reports) (req : Request) (update : ReportUpdate)
  : Reports * Response :=
  match authorizeRole reportRoles req with
  | Some response => (store, response)
  | None =>
      match validationFailed req with
      | Some response => (store, response)
      | None => updateCustomReport store req update
      end
  end.

Definition routeDeleteReport (store : Reports) (req : Request) : Reports * Response :=
  match authorizeRole reportRoles req with
  | Some response => (store, response)
  | None => deleteCustomReport store req
  end.

Definition routeUpdateSchedule (store : Reports) (req : Request)
    (cron recipientEmail : string) : Reports * Response :=
  match authorizeRole ["admin"] req with
  | Some response => (store, response)
  | None => updateCustomReportSchedule store req cron recipientEmail
  end.

End AnalyticsController.

(** ** Vocabulary of the statements *)

Import AnalyticsService.
Import ReportScheduler.

(** A series too short to compare two snapshots: absent, empty or a single row. *)
Definition insufficientHistory {A : Type} (series : option (list A)) : Prop :=
  match series with
  | None => True
  | Some rows => (length rows < 2)%nat
  end.

(** The pairs (prev, curr) of neighbours of a series, in order. *)
Definition adjacentPairs {A : Type} (series : list A) : list (A * A) :=
  zip series (tail series).

(** The emission rule as the specification words it, in a number model:
    [prev > 0] and [|curr - prev| / prev > 0.5]. *)
Definition exceedsThreshold {num : Type} `{Number num} (prev curr : Z) : bool :=
  bool_decide (0 < prev)
  && num_gt (num_div (of_Z (Z.abs (curr - prev))) (of_Z prev)) num_half.

(** The same rule as an inequality between rationals. *)
Definition relativeChangeOverHalf (prev curr : Z) : Prop :=
  0 < prev /\ (1 # 2 < Qabs (inject_Z curr - inject_Z prev) / inject_Z prev)%Q.

(** The record for a metric: the current snapshot's date, the metric's
    name, and a message that names the metric and gives both values in
    decimal. *)
Definition anomalyRecord (date : Z) (type label : string) (prev curr : Z) : Anomaly :=
  mkAnomaly date type (label +:+ ": " +:+ pretty prev +:+ " → " +:+ pretty curr).

(** The records a pair contributes, in the order the loop pushes them: one
    for the first metric when it exceeds the threshold, then one for the
    second. *)
Definition emitted {num : Type} `{Number num} {row : Type} (rowDate : row -> Z)
    (metric1 : row -> Z) (type1 label1 : string)
    (metric2 : row -> Z) (type2 label2 : string) (pair : row * row) : list Anomaly :=
  let (prev, curr) := pair in
  (if exceedsThreshold (metric1 prev) (metric1 curr)
   then [anomalyRecord (rowDate curr) type1 label1 (metric1 prev) (metric1 curr)]
   else [])
  ++ (if exceedsThreshold (metric2 prev) (metric2 curr)
      then [anomalyRecord (rowDate curr) type2 label2 (metric2 prev) (metric2 curr)]
      else []).

(** The direction of a trend by the sign of the change. *)
Definition direction (delta : Z) : string :=
  match Z.compare delta 0 with
  | Gt => "increasing"
  | Lt => "decreasing"
  | Eq => "stable"
  end.

(** A zone whose offset never changes; UTC is the one with offset 0. *)
Definition fixedOffset (offset : Z) : TimeZone := mkTimeZone (fun _ _ => offset).

Definition utc : TimeZone := fixedOffset 0.

Definition msPerHour : Z := 3600000.

(** New York around the start of daylight saving time in 2024: five hours
    behind UTC until 2024-03-10T07:00:00Z (02:00 local time, day 19792 after
    the epoch), four hours behind from then on; the local hour from 02:00 to
    03:00 of that day does not exist and is read with the earlier offset. *)
Definition newYork : TimeZone :=
  mkTimeZone (fun t isUTC =>
    let change := 19792 * msPerDay + 7 * msPerHour in
    if isUTC
    then (if t <? change then -5 * msPerHour else -4 * msPerHour)
    else (if t <? change - 4 * msPerHour then -5 * msPerHour else -4 * msPerHour)).

(** The horizon: the loop indices 1 to 7. *)
Definition horizon : list Z := [1; 2; 3; 4; 5; 6; 7].

(** The value the specification gives the [i]-th forecast point:
    [round (last + avgStep * i)] with
    [avgStep = (last - first) / (n - 1)]. *)
Definition extrapolated {num : Type} `{Number num} (first last : num) (n : Z) (i : Z) : Z :=
  let avgStep := num_div (num_sub last first) (of_Z (n - 1)) in
  Math_round (num_add last (num_mul avgStep (of_Z i))).

(** Two daily department snapshots, of 2024-03-07 and 2024-03-08 (days
    19789 and 19790 after the epoch). *)
Definition marchSeries {num : Type} `{Number num} : list (TaskMetrics.t num) :=
  [TaskMetrics.mk 10 4 6 0 (of_Z 0) 19789;
   TaskMetrics.mk 10 5 5 0 (of_Z 0) 19790].

(** Scenario A of the specification: three daily department snapshots with
    totalTasks 10, 10, 16 and completedTasks 5, 5, 9. *)
Definition scenarioA {num : Type} `{Number num} : list (TaskMetrics.t num) :=
  [TaskMetrics.mk 10 5 5 0 (of_Z 0) 19875;
   TaskMetrics.mk 10 5 5 0 (of_Z 0) 19876;
   TaskMetrics.mk 16 9 7 0 (of_Z 0) 19877].

(** Fifteen daily snapshots whose completed tasks fall from 29 to 0: the
    average step is -29/14 and the seventh projection is -14.5 exactly. *)
Definition fallingSeries {num : Type} `{Number num} : list (TaskMetrics.t num) :=
  TaskMetrics.mk 29 29 0 0 (of_Z 0) 19863
  :: replicate 13 (TaskMetrics.mk 29 15 14 0 (of_Z 0) 19870)
  ++ [TaskMetrics.mk 29 0 29 0 (of_Z 0) 19877].

(** A task still pending whose due date has passed. *)
Definition overduePending : Task :=
  mkTask "pending" "high" (Some 1000) 0 0 None.

(** The number of tasks with priority [key]. *)
Definition tally (key : string) (tasks : list Task) : nat :=
  length (List.filter (fun task => String.eqb (priority task) key) tasks).

(** The priorities [calculateTaskTrends] initialises a counter for. *)
Definition initialised (key : string) : Prop :=
  key = "high" \/ key = "medium" \/ key = "low".

(** A cell after [n] increments. *)
Definition bumped (n : nat) (cell : option counter) : option counter :=
  match n with
  | O => cell
  | S _ => Some (Nat.iter n succ_counter (toNumber cell))
  end.

(** The decision of one run about one stored report: the query's filter
    ([isActive], a schedule) and the two guards of the loop (a cron
    expression, [shouldSend]). The report is due when the run, on reaching
    it, goes on to generate it. *)
Definition isDue (e : Env) (report : CustomReport) : bool :=
  isActive report
  && match schedule report with
     | Some s =>
         match cron s with
         | Some c =>
             negb (String.eqb c EmptyString)
             && match shouldSend e c (lastSent s) with
                | Some answer => answer
                | None => false
                end
         | None => false
         end
     | None => false
     end.

(** The due test throws on the report: it is among those the query loads,
    its expression is not empty and validates, and evaluating the next date
    throws. *)
Definition throwsOn (e : Env) (report : CustomReport) : bool :=
  isActive report
  && match schedule report with
     | Some s =>
         match cron s with
         | Some c =>
             negb (String.eqb c EmptyString) && validate e c
             && match nextDates e c with
                | Some _ => false
                | None => true
                end
         | None => false
         end
     | None => false
     end.

(** The reports a run gets through: those loaded, up to the first one on
    which the due test throws; none when the query does not answer. *)
Fixpoint upToThrow (e : Env) (reports : list (string * CustomReport))
  : list (string * CustomReport) :=
  match reports with
  | [] => []
  | kr :: rest => if throwsOn e (snd kr) then [] else kr :: upToThrow e rest
  end.

Definition reached (e : Env) (store : Reports) : list (string * CustomReport) :=
  if findAllAnswers e then upToThrow e (findScheduled store) else [].

(** What the run logs for a stored report it gets through. *)
Definition outcome (e : Env) (id : string) (report : CustomReport) : list Event :=
  if isDue e report
  then match generateCustomReport e id with
       | None => [GenerationFailed id]
       | Some reportData =>
           match reportCreator report with
           | None => [SendFailed id]
           | Some email =>
               if sendMail e email ("Scheduled Report: " +:+ name report)
                    (formatReportData report reportData)
               then [Sent id email]
               else [SendFailed id]
           end
       end
  else [].

(** The run, on reaching the report, delivers it: it is due, generation
    succeeds and the transport accepts the message. *)
Definition delivers (e : Env) (id : string) (report : CustomReport) : bool :=
  isDue e report
  && match generateCustomReport e id, reportCreator report with
     | Some reportData, Some email =>
         sendMail e email ("Scheduled Report: " +:+ name report)
           (formatReportData report reportData)
     | _, _ => false
     end.

(** The run writes the row of report [id]: it reaches the report, delivers
    it, and the update writes. *)
Definition storesSent (e : Env) (store : Reports) (id : string)
    (report : CustomReport) : bool :=
  delivers e id report && updateWrites e && bool_decide (id ∈ (reached e store).*1).

(** The transition rule as the specification words it: the report is active,
    has a schedule with a cron expression, and the next fire instant strictly
    after [lastSent] (the epoch when it was never sent) is at most [now]. *)
Definition specDue (report : ReportScheduler.CustomReport) (now : Z) : bool :=
  ReportScheduler.isActive report
  && match ReportScheduler.schedule report with
     | Some s =>
         match ReportScheduler.cron s with
         | Some c =>
             match Cron.parse c with
             | Some e =>
                 match Cron.nextFireAfter e (default 0 (ReportScheduler.lastSent s)) with
                 | Some f => f <=? now
                 | None => false
                 end
             | None => false
             end
         | None => false
         end
     | None => false
     end.


(** [schedule.lastSent] of a stored report. *)
Definition lastSentOf (report : CustomReport) : option Z :=
  match schedule report with
  | Some s => lastSent s
  | None => None
  end.


(** Monday 2024-06-03 (day 19877 after the epoch), at [h]:[m] UTC. *)
Definition monday (h m : Z) : Z := 19877 * msPerDay + h * 3600000 + m * 60000.

Definition weekly : string := "0 8 * * 1".

Definition weeklyReport (sent : option Z) : CustomReport :=
  mkCustomReport "Weekly tasks" "task" "{}" true
    (Some (mkSchedule (Some weekly) (Some "lead@example.com") sent))
    (Some "owner@example.com").

(** A run at [t] whose cron library answers the next fire instant after the
    clock, as a next-date computation does, and whose collaborators
    succeed. *)
Definition clockEnv (t : Z) : Env :=
  {| now := t;
     findAllAnswers := true;
     validate := fun c => bool_decide (is_Some (Cron.parse c));
     nextDates := fun c =>
       match Cron.parse c with
       | Some x => Cron.nextFireAfter x t
       | None => None
       end;
     generateCustomReport := fun _ => Some "[]";
     sendMail := fun _ _ _ => true;
     updateWrites := true |}.

(** A run at [t] with libraries that lack what the job asks of them: the
    Sequelize instance has no [Op], so the query is never made, the task the
    cron library returns has no [nextDates], and [update] compares. *)
Definition lackingEnv (t : Z) : Env :=
  {| now := t;
     findAllAnswers := false;
     validate := fun c => bool_decide (is_Some (Cron.parse c));
     nextDates := fun _ => None;
     generateCustomReport := fun _ => Some "[]";
     sendMail := fun _ _ _ => true;
     updateWrites := false |}.

(** A run at [t] whose query answers and whose cron task has no
    [nextDates]. *)
Definition probelessEnv (t : Z) : Env :=
  {| now := t;
     findAllAnswers := true;
     validate := fun c => bool_decide (is_Some (Cron.parse c));
     nextDates := fun _ => None;
     generateCustomReport := fun _ => Some "[]";
     sendMail := fun _ _ _ => true;
     updateWrites := false |}.

(** A run at [t] in which the cron library answers [f], the collaborators
    succeed and the update writes. *)
Definition answeringEnv (t f : Z) : Env :=
  {| now := t;
     findAllAnswers := true;
     validate := fun _ => true;
     nextDates := fun _ => Some f;
     generateCustomReport := fun _ => Some "[]";
     sendMail := fun _ _ _ => true;
     updateWrites := true |}.



Definition oneReport (sent : option Z) : Reports :=
  {["RPT-20240601-00001" := weeklyReport sent]}.

(** ** Vocabulary of the further properties *)

(** A stored metrics row that counts its completed tasks among its total. *)
Definition consistentRow {num : Type} (row : TaskMetrics.t num) : Prop :=
  0 <= TaskMetrics.completedTasks row <= TaskMetrics.totalTasks row.

(** The rows one run of the daily aggregation creates for a department. *)
Definition metricsRowOf {num : Type} `{Number num} (db : Database) (clock : Z)
    (department : string) : string * TaskMetrics.t num :=
  (department,
   storedTaskMetrics
     (calculateTaskMetrics (db_departmentTasks db department (toISODate clock)) clock)
     (toISODate clock)).

Definition performanceRowsOf {num : Type} `{Number num} (db : Database) (clock : Z)
    (department : string) : list (string * UserPerformance.t num) :=
  List.map (fun user =>
              (user,
               storedUserPerformance
                 (calculateUserPerformance (db_userTasks db user (toISODate clock)) clock)
                 (toISODate clock)))
           (db_users db department).

(** A database of two departments, the second with two users, none with a
    task. *)
Definition twoDepartments : Database :=
  {| db_departments := ["DEP-20240101-00001"; "DEP-20240101-00002"];
     db_department := fun d =>
       if String.eqb d "DEP-20240101-00002" then Some [true; false] else Some [];
     db_users := fun d =>
       if String.eqb d "DEP-20240101-00002"
       then ["USR-20240101-00001"; "USR-20240101-00002"] else [];
     db_departmentTasks := fun _ _ => [];
     db_userTasks := fun _ _ => [] |}.


Definition noTables {num : Type} `{Number num} : Tables (num := num) :=
  {| tbl_taskMetrics := []; tbl_departmentAnalytics := []; tbl_userPerformance := [] |}.

Definition analyticsRowOf {num : Type} `{Number num} (db : Database) (clock : Z)
    (department : string) : option (string * Z * DepartmentSnapshot (num := num)) :=
  match calculateDepartmentAnalytics (db_department db department)
          (db_departmentTasks db department (toISODate clock)) clock with
  | Some analytics => Some (department, toISODate clock, analytics)
  | None => None
  end.

(** The tables after the departments of [done] have been aggregated. *)
Definition tablesAfter {num : Type} `{Number num} (db : Database) (clock : Z)
    (done : list string) (tables : Tables (num := num)) : Tables (num := num) :=
  {| tbl_taskMetrics := tbl_taskMetrics tables ++ List.map (metricsRowOf db clock) done;
     tbl_departmentAnalytics :=
       tbl_departmentAnalytics tables ++ omap (analyticsRowOf db clock) done;
     tbl_userPerformance :=
       tbl_userPerformance tables ++ flat_map (performanceRowsOf db clock) done |}.

(** The sum of the cells of a distribution. *)
Definition sumValues (m : gmap string Z) : Z :=
  map_fold (fun _ n sum => n + sum) 0 m.

(** The tasks counted by the groups whose [key] is [k], whether there is
    such a group, and the tasks counted by all groups. *)
Definition groupTotal (key : GroupCount -> string) (k : string)
    (groups : list GroupCount) : Z :=
  fold_right (fun group sum =>
                if String.eqb (key group) k then gc_count group + sum else sum)
             0 groups.

Definition hasGroup (key : GroupCount -> string) (k : string)
    (groups : list GroupCount) : bool :=
  existsb (fun group => String.eqb (key group) k) groups.

Definition grandTotal (groups : list GroupCount) : Z :=
  fold_right (fun group sum => gc_count group + sum) 0 groups.

(** Runs of the job one after another, each on the table the one before
    left, with the logs in order. *)
Fixpoint runs (envs : list Env) (store : Reports) : Reports * list Event :=
  match envs with
  | [] => (store, [])
  | e :: rest =>
      let first := tick e store in
      let others := runs rest (fst first) in
      (fst others, snd first ++ snd others)
  end.

(** [a] is not later than [b], a report never sent being earliest. *)
Definition earlier (a b : option Z) : Prop :=
  match a, b with
  | None, _ => True
  | Some x, Some y => x <= y
  | Some _, None => False
  end.

(** A report with another [schedule.recipientEmail]. *)
Definition setRecipient (recipient : option string) (report : CustomReport)
  : CustomReport :=
  {| name := name report;
     type := type report;
     parameters := parameters report;
     isActive := isActive report;
     schedule :=
       match schedule report with
       | Some s => Some {| cron := cron s;
                           recipientEmail := recipient;
                           lastSent := lastSent s |}
       | None => None
       end;
     reportCreator := reportCreator report |}.

(** A report the scheduler has no expression for: inactive, without a
    schedule, or with a schedule whose [cron] is absent or empty. *)
Definition unscheduled (report : CustomReport) : Prop :=
  isActive report = false
  \/ schedule report = None
  \/ exists s, schedule report = Some s
               /\ (cron s = None \/ cron s = Some EmptyString).

(** Generators whose queries answer with nothing found. *)
Definition noGenerators : ReportService.Generators :=
  ReportService.mkGenerators
    (fun _ => Some "[]") (fun _ => Some "{}") (fun _ => Some "{}").

(** The five report routes that read or write a stored report, as one
    request to the router. *)
Inductive ReportCall : Type :=
  | GetReport
  | ListReports (type isActive : option string)
  | UpdateReport (update : AnalyticsController.ReportUpdate)
  | DeleteReport
  | UpdateSchedule (cron recipientEmail : string).

Definition serve (gen : ReportService.Generators) (store : Reports)
    (req : Auth.Request) (call : ReportCall) : Reports * Auth.Response :=
  match call with
  | GetReport => (store, AnalyticsController.routeGetReport gen store req)
  | ListReports type isActive =>
      (store, AnalyticsController.routeListReports store req type isActive)
  | UpdateReport update => AnalyticsController.routeUpdateReport store req update
  | DeleteReport => AnalyticsController.routeDeleteReport store req
  | UpdateSchedule cron recipientEmail =>
      AnalyticsController.routeUpdateSchedule store req cron recipientEmail
  end.

Definition isAdmin (req : Auth.Request) : Prop := Auth.req_role req = Some "admin".

(** A request of an administrator that passed the validators. *)
Definition adminRequest (reportId : string) : Auth.Request :=
  Auth.mkRequest (Some "admin") [] reportId.

(** The statuses [calculateTaskTrends] initialises a counter for, which
    are the values of the [status] column. *)
Definition knownStatus (key : string) : Prop :=
  key = "pending" \/ key = "in_progress" \/ key = "completed" \/ key = "cancelled".

(** The number of tasks with status [key]. *)
Definition withStatus (key : string) (tasks : list Task) : Z :=
  count (fun task => String.eqb (status task) key) tasks.

(** * Properties *)

(** ** Short series *)

Section ShortSeries.
Context {num : Type} `{Number num}.

Lemma scanAnomalies_short {row : Type} (rowDate : row -> Z)
    (m1 : row -> Z) (t1 l1 : string) (m2 : row -> Z) (t2 l2 : string)
    (series : option (list row)) :
  insufficientHistory series ->
  scanAnomalies rowDate m1 t1 l1 m2 t2 l2 series = [].
Proof.
  destruct series as [rows|]; simpl; [|reflexivity].
  intros Hlen. apply Nat.ltb_lt in Hlen. rewrite Hlen. reflexivity.
Qed.

Lemma linearForecast_short (tz : TimeZone) {row : Type} (rowDate : row -> Z)
    (field : row -> num) (series : option (list row)) :
  insufficientHistory series -> linearForecast tz rowDate field series = [].
Proof.
  destruct series as [rows|]; simpl; [|reflexivity].
  intros Hlen. apply Nat.ltb_lt in Hlen. rewrite Hlen. reflexivity.
Qed.

(** C4. A series with fewer than two snapshots (absent, empty or a single
    row) is not an error: each of the three detectors and the three
    forecasters returns the empty list. *)
Theorem insufficient_history_returns_empty (tz : TimeZone)
    (metrics : option (list (TaskMetrics.t num)))
    (performance : option (list (UserPerformance.t num))) :
  insufficientHistory metrics ->
  insufficientHistory performance ->
  detectTaskAnomalies metrics = []
  /\ detectUserActivityAnomalies performance = []
  /\ detectDepartmentTrends metrics = []
  /\ forecastTaskCompletion tz metrics = []
  /\ forecastUserProductivity tz performance = []
  /\ forecastDepartmentWorkload tz metrics = [].
Proof.
  intros Hm Hp. repeat split.
  - apply scanAnomalies_short, Hm.
  - apply scanAnomalies_short, Hp.
  - destruct metrics as [rows|]; simpl in *; [|reflexivity].
    apply Nat.ltb_lt in Hm. rewrite Hm. reflexivity.
  - apply linearForecast_short, Hm.
  - apply linearForecast_short, Hp.
  - apply linearForecast_short, Hm.
Qed.

End ShortSeries.

(** Scenario B of the specification: the forecast of a user's productivity
    from a performance series of length one is empty; so is what the
    detectors and forecasters make of an absent metrics series. *)
Lemma insufficient_history_witness :
  forecastUserProductivity (num := Q) newYork
    (Some [UserPerformance.mk 3 1 0%Q (125 # 2)%Q 19877]) = []
  /\ detectTaskAnomalies (num := Q) None = [].
Proof.
  destruct (insufficient_history_returns_empty (num := Q) newYork
              None (Some [UserPerformance.mk 3 1 0%Q (125 # 2)%Q 19877])
              I (Nat.lt_succ_diag_r 1))
    as (Hanomalies & _ & _ & _ & Hforecast & _).
  split; [exact Hforecast|exact Hanomalies].
Defined.

(** ** Series with two ends *)

(** A series of at least two rows is a first row, the rows between, and a
    last row. *)
Lemma series_ends {A : Type} (series : list A) :
  (2 <= length series)%nat ->
  exists first mid last, series = first :: mid ++ [last].
Proof.
  intros Hlen. destruct series as [|first rest]; simpl in Hlen; [lia|].
  destruct (@exists_last _ rest) as (mid & last & ->).
  - intros ->. simpl in Hlen. lia.
  - exists first, mid, last. reflexivity.
Qed.

Lemma ends_long {A : Type} (first : A) mid last :
  (length (first :: mid ++ [last]) <? 2)%nat = false.
Proof.
  apply Nat.ltb_ge. simpl. rewrite length_app. simpl. lia.
Qed.

Lemma ends_first {A : Type} (first : A) mid last :
  (first :: mid ++ [last]) !! 0%nat = Some first.
Proof. reflexivity. Qed.

Lemma ends_last {A : Type} (first : A) mid last :
  (first :: mid ++ [last]) !! (length (first :: mid ++ [last]) - 1)%nat = Some last.
Proof.
  replace (length (first :: mid ++ [last]) - 1)%nat with (length (first :: mid)).
  - change (first :: mid ++ [last]) with ((first :: mid) ++ [last]).
    apply list_lookup_middle. reflexivity.
  - simpl. rewrite length_app. simpl. lia.
Qed.

(** ** Trend detection *)

Section Trends.
Context {num : Type} `{Number num}.

(** C7. Trend detection compares only the two ends of a department series
    of at least two snapshots: it reports on [completedTasks], from the first
    snapshot's value to the last one's, "increasing" when last - first is
    positive, "decreasing" when it is negative and "stable" when it is zero;
    the snapshots between the ends have no effect. *)
Theorem trend_compares_only_endpoints
    (first : TaskMetrics.t num) (mid mid' : list (TaskMetrics.t num))
    (last : TaskMetrics.t num) :
  let from := TaskMetrics.completedTasks first in
  let to := TaskMetrics.completedTasks last in
  detectDepartmentTrends (Some (first :: mid ++ [last]))
  = [mkTrend "completedTasks" (direction (to - from)) from to]
  /\ (to - from > 0 -> direction (to - from) = "increasing")
  /\ (to - from < 0 -> direction (to - from) = "decreasing")
  /\ (to - from = 0 -> direction (to - from) = "stable")
  /\ detectDepartmentTrends (Some (first :: mid' ++ [last]))
     = detectDepartmentTrends (Some (first :: mid ++ [last])).
Proof.
  intros from to.
  assert (Hshape : forall between,
    detectDepartmentTrends (Some (first :: between ++ [last]))
    = [mkTrend "completedTasks" (direction (to - from)) from to]).
  { intros between. unfold detectDepartmentTrends.
    rewrite ends_long, ends_first, ends_last.
    fold from to. unfold direction.
    destruct (Z.compare_spec (to - from) 0) as [Heq|Hlt|Hgt].
    - rewrite Heq. reflexivity.
    - destruct (Z.ltb_spec 0 (to - from)); [lia|].
      destruct (Z.ltb_spec (to - from) 0); [reflexivity|lia].
    - destruct (Z.ltb_spec 0 (to - from)); [reflexivity|lia]. }
  split; [apply Hshape|].
  unfold direction. repeat split.
  - intros Hpos. apply Z.gt_lt in Hpos. apply Z.compare_gt_iff in Hpos.
    rewrite Hpos. reflexivity.
  - intros Hneg. apply Z.compare_lt_iff in Hneg. rewrite Hneg. reflexivity.
  - intros ->. reflexivity.
  - rewrite !Hshape. reflexivity.
Qed.

End Trends.

(** ** Forecasts *)

(** In a zone whose offset never changes, adding whole days to midnight UTC
    and reading the date back gives the day that many days later. *)
Lemma date_plus_days (offset day i : Z) :
  toISODate (setDatePlus (fixedOffset offset) (newDate day) i) = day + i.
Proof.
  unfold toISODate, setDatePlus, utcOfLocal, localTime, newDate. cbn [localTZA fixedOffset].
  replace (day * msPerDay + offset + i * msPerDay - offset) with ((day + i) * msPerDay) by ring.
  apply Z.div_mul. discriminate.
Qed.

Section Forecasts.
Context {num : Type} `{Number num}.

Lemma linearForecast_ends (tz : TimeZone) {row : Type} (rowDate : row -> Z)
    (field : row -> num) (first : row) (mid : list row) (last : row) :
  linearForecast tz rowDate field (Some (first :: mid ++ [last]))
  = List.map (fun i =>
               mkForecast (toISODate (setDatePlus tz (newDate (rowDate last)) i))
                 (extrapolated (field first) (field last)
                    (Z.of_nat (length (first :: mid ++ [last]))) i))
             horizon.
Proof.
  unfold linearForecast.
  rewrite ends_long, ends_last, ends_first.
  unfold horizon, extrapolated. cbn [projectLoop List.map Z.leb Z.compare Pos.compare
    Pos.compare_cont Z.add Pos.add Pos.succ app].
  unfold projectedPoint. reflexivity.
Qed.

(** C6. What the forecasters return for a series of at least two
    snapshots. In every time zone and every interpretation of the arithmetic
    there are exactly seven points, and the value of the i-th (i = 1..7) is
    [round (last.field + avgStep * i)] with
    [avgStep = (last.field - first.field) / (n - 1)], over [completedTasks],
    [productivityScore] and [totalTasks] respectively; nothing clamps it
    (over the rationals the series 10, 0 of completed tasks is forecast as
    -10, -20, ..., -70).
    The dates are the last historical date plus i days when the offset of the
    process's time zone never changes. They are computed in local time and
    printed in UTC, so where the offset changes within the horizon a date
    comes twice: in New York the forecast from a series ending on 2024-03-08
    (day 19790) is dated 03-09, 03-10, 03-10, 03-11, 03-12, 03-13, 03-14,
    and has no point for 03-15. *)
Theorem forecast_shape_and_values (tz : TimeZone) (offset : Z)
    (first : TaskMetrics.t num) (mid : list (TaskMetrics.t num)) (last : TaskMetrics.t num)
    (ufirst : UserPerformance.t num) (umid : list (UserPerformance.t num))
    (ulast : UserPerformance.t num) :
  let metrics := first :: mid ++ [last] in
  let performance := ufirst :: umid ++ [ulast] in
  let n := Z.of_nat (length metrics) in
  let un := Z.of_nat (length performance) in
  List.map predicted (forecastTaskCompletion tz (Some metrics))
  = List.map (extrapolated (of_Z (TaskMetrics.completedTasks first))
                           (of_Z (TaskMetrics.completedTasks last)) n) horizon
  /\ List.map predicted (forecastUserProductivity tz (Some performance))
     = List.map (extrapolated (UserPerformance.productivityScore ufirst)
                              (UserPerformance.productivityScore ulast) un) horizon
  /\ List.map predicted (forecastDepartmentWorkload tz (Some metrics))
     = List.map (extrapolated (of_Z (TaskMetrics.totalTasks first))
                              (of_Z (TaskMetrics.totalTasks last)) n) horizon
  /\ length (forecastTaskCompletion tz (Some metrics)) = 7%nat
  /\ length (forecastUserProductivity tz (Some performance)) = 7%nat
  /\ length (forecastDepartmentWorkload tz (Some metrics)) = 7%nat
  /\ List.map forecast_date (forecastTaskCompletion (fixedOffset offset) (Some metrics))
     = List.map (fun i => TaskMetrics.date last + i) horizon
  /\ List.map forecast_date (forecastUserProductivity (fixedOffset offset) (Some performance))
     = List.map (fun i => UserPerformance.date ulast + i) horizon
  /\ List.map forecast_date (forecastDepartmentWorkload (fixedOffset offset) (Some metrics))
     = List.map (fun i => TaskMetrics.date last + i) horizon
  /\ List.map forecast_date (forecastTaskCompletion (num := Q) newYork (Some marchSeries))
     = [19791; 19792; 19792; 19793; 19794; 19795; 19796]
  /\ List.map forecast_date (forecastTaskCompletion (num := float) newYork (Some marchSeries))
     = [19791; 19792; 19792; 19793; 19794; 19795; 19796]
  /\ List.map forecast_date (forecastTaskCompletion (num := Q) utc (Some marchSeries))
     = [19791; 19792; 19793; 19794; 19795; 19796; 19797]
  /\ List.map predicted
       (forecastTaskCompletion (num := Q) tz
          (Some [TaskMetrics.mk 10 10 0 0 0%Q 100; TaskMetrics.mk 10 0 0 0 0%Q 101]))
     = [-10; -20; -30; -40; -50; -60; -70].
Proof.
  intros metrics performance n un.
  unfold forecastTaskCompletion, forecastUserProductivity, forecastDepartmentWorkload.
  subst metrics performance.
  rewrite !linearForecast_ends, !map_map, !length_map. cbn [predicted forecast_date].
  assert (Hdates : forall day,
    List.map (fun i => toISODate (setDatePlus (fixedOffset offset) (newDate day) i)) horizon
    = List.map (fun i => day + i) horizon).
  { intros day. apply List.map_ext. intros i. apply date_plus_days. }
  rewrite !Hdates.
  do 9 (split; [reflexivity|]).
  split; [vm_compute; reflexivity|]. split; [vm_compute; reflexivity|].
  split; [vm_compute; reflexivity|].
  vm_compute. reflexivity.
Qed.

End Forecasts.

(** The values hold in both number models, and they can differ by one
    where a projection is a tie: the seventh projection of [fallingSeries] is
    -14.5 exactly, which [Math.round] takes to -14, and -14.500000000000002
    in doubles, which it takes to -15. *)
Example forecast_tie_in_doubles :
  List.map predicted (forecastTaskCompletion (num := float) utc (Some fallingSeries))
  = [-2; -4; -6; -8; -10; -12; -15]
  /\ List.map predicted (forecastTaskCompletion (num := Q) utc (Some fallingSeries))
     = [-2; -4; -6; -8; -10; -12; -14]
  /\ List.map forecast_date (forecastTaskCompletion (num := float) utc (Some fallingSeries))
     = [19878; 19879; 19880; 19881; 19882; 19883; 19884].
Proof. repeat split; vm_compute; reflexivity. Qed.

(** ** Anomaly detection *)

Section ScanStructure.
Context {num : Type} `{Number num}.
Context {row : Type} (rowDate : row -> Z).
Context (metric1 : row -> Z) (type1 label1 : string).
Context (metric2 : row -> Z) (type2 label2 : string).

Local Abbreviation body := (scanBody rowDate metric1 type1 label1 metric2 type2 label2).
Local Abbreviation loop := (scanLoop rowDate metric1 type1 label1 metric2 type2 label2).

Lemma scanBody_app prev curr anomalies :
  body prev curr anomalies = anomalies ++ body prev curr [].
Proof.
  unfold scanBody.
  destruct (significantChange (metric1 prev) (metric1 curr));
    destruct (significantChange (metric2 prev) (metric2 curr)); simpl;
    rewrite <- ?app_assoc, ?app_nil_r; reflexivity.
Qed.

Lemma adjacentPairs_length (series : list row) :
  length (adjacentPairs series) = (length series - 1)%nat.
Proof.
  unfold adjacentPairs. rewrite length_zip_with.
  destruct series as [|x rest]; [reflexivity|].
  cbn [tail length]. rewrite Nat.min_r by lia. lia.
Qed.

Lemma adjacentPairs_lookup (series : list row) (i : nat) prev curr :
  series !! i = Some prev -> series !! S i = Some curr ->
  adjacentPairs series !! i = Some (prev, curr).
Proof.
  intros Hprev Hcurr. unfold adjacentPairs.
  apply lookup_zip_with_Some. exists prev, curr.
  rewrite lookup_tail. auto.
Qed.

Lemma scanLoop_pairs (fuel i : nat) (series : list row) (anomalies : list Anomaly) :
  (1 <= i)%nat -> (length series <= i + fuel)%nat ->
  loop fuel i series anomalies
  = anomalies
    ++ flat_map (fun pair => body (fst pair) (snd pair) [])
                (drop (i - 1) (adjacentPairs series)).
Proof.
  revert i anomalies. induction fuel as [|fuel IH]; intros i anomalies Hi Hfuel.
  - simpl. rewrite drop_ge by (rewrite adjacentPairs_length; lia).
    simpl. rewrite app_nil_r. reflexivity.
  - simpl. destruct (Nat.ltb_spec i (length series)) as [Hlt|Hge].
    + destruct (lookup_lt_is_Some_2 series (i - 1)) as [prev Hprev]; [lia|].
      destruct (lookup_lt_is_Some_2 series i) as [curr Hcurr]; [lia|].
      rewrite Hprev, Hcurr.
      rewrite IH by lia.
      replace (S i - 1)%nat with (S (i - 1)) by lia.
      assert (Hpair : adjacentPairs series !! (i - 1)%nat = Some (prev, curr)).
      { apply adjacentPairs_lookup; [assumption|].
        replace (S (i - 1)) with i by lia. assumption. }
      rewrite (drop_S _ _ _ Hpair). simpl.
      rewrite (scanBody_app prev curr anomalies), <- app_assoc. reflexivity.
    + rewrite drop_ge by (rewrite adjacentPairs_length; lia).
      simpl. rewrite app_nil_r. reflexivity.
Qed.

Lemma scanAnomalies_pairs (series : list row) :
  scanAnomalies rowDate metric1 type1 label1 metric2 type2 label2 (Some series)
  = flat_map (fun pair => body (fst pair) (snd pair) []) (adjacentPairs series).
Proof.
  unfold scanAnomalies. destruct (Nat.ltb_spec (length series) 2) as [Hshort|Hlong].
  - destruct series as [|x [|y rest]]; simpl in Hshort; try lia; reflexivity.
  - rewrite scanLoop_pairs by lia. reflexivity.
Qed.

End ScanStructure.

(** Over the rationals the rule is an inequality between integers. *)
Lemma Qabs_inject_sub (prev curr : Z) :
  (Qabs (inject_Z curr - inject_Z prev) == inject_Z (Z.abs (curr - prev)))%Q.
Proof.
  unfold Qeq, Qabs, Qminus, Qplus, Qopp, inject_Z. simpl.
  rewrite !Z.mul_1_r. reflexivity.
Qed.

Lemma relativeChange_integers (prev curr : Z) :
  relativeChangeOverHalf prev curr <-> 0 < prev /\ prev < 2 * Z.abs (curr - prev).
Proof.
  unfold relativeChangeOverHalf. rewrite Qabs_inject_sub.
  split; intros [Hpos Hgt]; (split; [exact Hpos|]).
  - assert (Hp : (0 < inject_Z prev)%Q) by (rewrite <- (Zlt_Qlt 0); exact Hpos).
    apply (Qmult_lt_r _ _ _ Hp) in Hgt.
    rewrite (Qmult_comm (_ / _)), Qmult_div_r in Hgt
      by (intros Hz; rewrite Hz in Hp; exact (Qlt_irrefl _ Hp)).
    unfold Qlt, inject_Z in Hgt. simpl in Hgt. lia.
  - assert (Hp : (0 < inject_Z prev)%Q) by (rewrite <- (Zlt_Qlt 0); exact Hpos).
    apply Qlt_shift_div_l; [exact Hp|].
    unfold Qlt, inject_Z. simpl. lia.
Qed.

Lemma exceedsThreshold_rational (prev curr : Z) :
  exceedsThreshold (num := Q) prev curr = true <-> relativeChangeOverHalf prev curr.
Proof.
  unfold exceedsThreshold, relativeChangeOverHalf.
  cbn [num_gt num_div num_half of_Z Q_Number].
  rewrite andb_true_iff, bool_decide_eq_true, negb_true_iff, Qabs_inject_sub.
  split; intros [Hpos Hgt]; (split; [exact Hpos|]).
  - apply Qnot_le_lt. intros Hle. apply Qle_bool_iff in Hle. congruence.
  - destruct (Qle_bool _ _) eqn:Hle; [|reflexivity].
    apply Qle_bool_iff in Hle. exfalso. exact (Qle_not_lt _ _ Hle Hgt).
Qed.

Section Emission.
Context {num : Type} `{Number num}.

Lemma significantChange_rule (prev curr : Z) :
  significantChange prev curr = exceedsThreshold prev curr.
Proof.
  unfold significantChange, exceedsThreshold. f_equal.
  destruct (Z.ltb_spec 0 prev) as [Hpos|Hnonpos].
  - symmetry. apply bool_decide_eq_true_2, Hpos.
  - symmetry. apply bool_decide_eq_false_2. lia.
Qed.

Lemma scanBody_emitted {row : Type} (rowDate : row -> Z)
    (m1 : row -> Z) (t1 l1 : string) (m2 : row -> Z) (t2 l2 : string) (pair : row * row) :
  scanBody rowDate m1 t1 l1 m2 t2 l2 (fst pair) (snd pair) []
  = emitted rowDate m1 t1 l1 m2 t2 l2 pair.
Proof.
  destruct pair as [prev curr]. unfold scanBody, emitted, anomalyRecord, changeMessage.
  cbn [fst snd]. rewrite !significantChange_rule.
  destruct (exceedsThreshold (m1 prev) (m1 curr));
    destruct (exceedsThreshold (m2 prev) (m2 curr)); reflexivity.
Qed.

(** C5. Anomaly emission is exact, in doubles as in any other
    interpretation of the arithmetic. The anomalies of a series are, pair of
    neighbours (prev, curr) by pair and in order, a record for the first
    metric exactly when [prev.metric > 0] and
    [|curr.metric - prev.metric| / prev.metric > 0.5], then one for the second
    metric under the same rule; each record carries curr's date, the metric's
    name and a message with the metric's label and both values in decimal.
    The metrics are [completedTasks] and [overdueTasks] for a department
    series, [tasksCompleted] and [tasksOverdue] for a user series. A pair
    whose previous value is not positive emits nothing, whatever the quotient
    is: in doubles 5/0 is Infinity, which exceeds 0.5. The rule is strict:
    over the rationals it holds exactly when prev < 2 |curr - prev|, so a
    relative change of exactly 0.5 emits nothing, and in doubles the change
    from 4 to 6 emits nothing while the change from 4 to 7 emits. *)
Theorem anomaly_emission_exact
    (metrics : list (TaskMetrics.t num)) (performance : list (UserPerformance.t num)) :
  detectTaskAnomalies (Some metrics)
  = flat_map
      (emitted TaskMetrics.date
         TaskMetrics.completedTasks "completedTasks" "Significant change in completed tasks"
         TaskMetrics.overdueTasks "overdueTasks" "Significant change in overdue tasks")
      (adjacentPairs metrics)
  /\ detectUserActivityAnomalies (Some performance)
     = flat_map
         (emitted UserPerformance.date
            UserPerformance.tasksCompleted "tasksCompleted"
            "Significant change in tasks completed"
            UserPerformance.tasksOverdue "tasksOverdue"
            "Significant change in overdue tasks")
         (adjacentPairs performance)
  /\ (forall prev curr : Z, prev <= 0 -> exceedsThreshold (num := num) prev curr = false)
  /\ (forall prev curr : Z,
        exceedsThreshold (num := Q) prev curr = true
        <-> 0 < prev /\ prev < 2 * Z.abs (curr - prev))
  /\ (forall prev curr : Z,
        2 * Z.abs (curr - prev) = prev -> exceedsThreshold (num := Q) prev curr = false)
  /\ exceedsThreshold (num := float) 4 6 = false
  /\ exceedsThreshold (num := float) 4 7 = true
  /\ exceedsThreshold (num := float) 4 1 = true
  /\ num_gt (num_div (of_Z (num := float) 5) (of_Z 0)) num_half = true
  /\ anomaly_message (anomalyRecord 19877 "completedTasks"
                        "Significant change in completed tasks" 5 9)
     = "Significant change in completed tasks: 5 → 9".
Proof.
  split; [|split; [|split; [|split; [|split]]]].
  - unfold detectTaskAnomalies. rewrite scanAnomalies_pairs.
    apply flat_map_ext. intros pair. apply scanBody_emitted.
  - unfold detectUserActivityAnomalies. rewrite scanAnomalies_pairs.
    apply flat_map_ext. intros pair. apply scanBody_emitted.
  - intros prev curr Hprev. unfold exceedsThreshold.
    rewrite bool_decide_eq_false_2 by lia. reflexivity.
  - intros prev curr. rewrite exceedsThreshold_rational. apply relativeChange_integers.
  - intros prev curr Hhalf.
    destruct (exceedsThreshold (num := Q) prev curr) eqn:Hex; [|reflexivity].
    apply exceedsThreshold_rational, relativeChange_integers in Hex. lia.
  - repeat split; vm_compute; reflexivity.
Qed.

End Emission.

(** Scenario A: the detector flags the change of completed tasks from 5 to 9
    on the third day and nothing else, in doubles as over the rationals; the
    trend is increasing, from 5 to 9. *)
Example scenario_A :
  detectTaskAnomalies (num := float) (Some scenarioA)
  = [mkAnomaly 19877 "completedTasks" "Significant change in completed tasks: 5 → 9"]
  /\ detectTaskAnomalies (num := Q) (Some scenarioA)
     = [mkAnomaly 19877 "completedTasks" "Significant change in completed tasks: 5 → 9"]
  /\ detectDepartmentTrends (num := Q) (Some scenarioA)
     = [mkTrend "completedTasks" "increasing" 5 9].
Proof. repeat split; vm_compute; reflexivity. Qed.

(** ** Rounding of doubles

    The IEEE 754 operations are the ones of [SpecFloat], which the primitive
    doubles implement: a quotient or a product is computed exactly and then
    rounded to nearest, ties to even. Rounding a value that is at most a
    number of the format gives at most that number. *)

Lemma pow2_pos (n : Z) : 0 < 2 ^ n \/ n < 0.
Proof. destruct (Z_lt_le_dec n 0); [right; assumption|left; apply Z.pow_pos_nonneg; lia]. Qed.

Lemma scaled_same (m1 m2 e : Z) : - 3000 <= e -> (scaled m1 e <= scaled m2 e <-> m1 <= m2).
Proof.
  intros He. unfold scaled. assert (0 < 2 ^ (e + 3000)) by (apply Z.pow_pos_nonneg; lia).
  symmetry. apply Z.mul_le_mono_pos_r. assumption.
Qed.

Lemma scaled_same_lt (m1 m2 e : Z) : - 3000 <= e -> (scaled m1 e < scaled m2 e <-> m1 < m2).
Proof.
  intros He. unfold scaled. assert (0 < 2 ^ (e + 3000)) by (apply Z.pow_pos_nonneg; lia).
  symmetry. apply Z.mul_lt_mono_pos_r. assumption.
Qed.

Lemma scaled_shift (m e n : Z) : 0 <= n -> - 3000 <= e -> scaled (m * 2 ^ n) e = scaled m (e + n).
Proof.
  intros Hn He. unfold scaled. replace (e + n + 3000) with (n + (e + 3000)) by lia.
  rewrite (Z.pow_add_r 2 n (e + 3000)) by lia. ring.
Qed.

Lemma scaled_div (m e n : Z) : 0 <= m -> 0 <= n -> - 3000 <= e -> scaled (m / 2 ^ n) (e + n) <= scaled m e.
Proof.
  intros Hm Hn He. rewrite <- scaled_shift by lia. apply scaled_same; [lia|].
  rewrite Z.mul_comm. apply Z.mul_div_le. apply Z.pow_pos_nonneg; lia.
Qed.

Lemma scaled_div_lt (m e n : Z) :
  0 <= m -> 0 <= n -> - 3000 <= e -> m mod 2 ^ n <> 0 -> scaled (m / 2 ^ n) (e + n) < scaled m e.
Proof.
  intros Hm Hn He Hmod. rewrite <- scaled_shift by lia. apply scaled_same_lt; [lia|].
  assert (Hp : 0 < 2 ^ n) by (apply Z.pow_pos_nonneg; lia).
  pose proof (Z.div_mod m (2 ^ n) ltac:(lia)) as Hdm.
  pose proof (Z.mod_pos_bound m (2 ^ n) Hp). nia.
Qed.

(** The number of binary digits of a mantissa. *)
Lemma digits2_pos_bounds (p : positive) :
  2 ^ (Zpos (digits2_pos p) - 1) <= Zpos p < 2 ^ Zpos (digits2_pos p).
Proof.
  induction p as [p IH|p IH|]; cbn [digits2_pos].
  - rewrite Pos2Z.inj_succ.
    replace (Z.succ (Zpos (digits2_pos p)) - 1) with (Z.succ (Zpos (digits2_pos p) - 1)) by lia.
    rewrite !Z.pow_succ_r by lia. lia.
  - rewrite Pos2Z.inj_succ.
    replace (Z.succ (Zpos (digits2_pos p)) - 1) with (Z.succ (Zpos (digits2_pos p) - 1)) by lia.
    rewrite !Z.pow_succ_r by lia. lia.
  - cbn. lia.
Qed.

Lemma pow2_le_inv (a b : Z) : 0 <= a -> 0 <= b -> 2 ^ a < 2 ^ b -> a < b.
Proof. intros Ha Hb H. apply (Z.pow_lt_mono_r_iff 2); lia. Qed.

(** From the order of two values to the order of their magnitudes. *)
Lemma scaled_digits (m1 m2 : positive) (e1 e2 : Z) :
  - 3000 <= e1 -> - 3000 <= e2 ->
  scaled (Zpos m1) e1 <= scaled (Zpos m2) e2 ->
  Zpos (digits2_pos m1) + e1 <= Zpos (digits2_pos m2) + e2.
Proof.
  intros H1 H2 Hle. unfold scaled in Hle.
  pose proof (digits2_pos_bounds m1) as [Hl1 _].
  pose proof (digits2_pos_bounds m2) as [_ Hu2].
  assert (Hlow : 2 ^ (Zpos (digits2_pos m1) - 1 + (e1 + 3000)) <= Zpos m1 * 2 ^ (e1 + 3000)).
  { rewrite (Z.pow_add_r 2 (Zpos (digits2_pos m1) - 1) (e1 + 3000)) by lia.
    apply Z.mul_le_mono_nonneg_r; [apply Z.pow_nonneg; lia|lia]. }
  assert (Hup : Zpos m2 * 2 ^ (e2 + 3000) < 2 ^ (Zpos (digits2_pos m2) + (e2 + 3000))).
  { rewrite (Z.pow_add_r 2 (Zpos (digits2_pos m2)) (e2 + 3000)) by lia.
    apply Z.mul_lt_mono_pos_r; [apply Z.pow_pos_nonneg; lia|lia]. }
  assert (Hlt : 2 ^ (Zpos (digits2_pos m1) - 1 + (e1 + 3000)) < 2 ^ (Zpos (digits2_pos m2) + (e2 + 3000))) by lia.
  apply pow2_le_inv in Hlt; lia.
Qed.


Lemma fexp_mono (a b : Z) : a <= b -> SpecFloat.fexp prec emax a <= SpecFloat.fexp prec emax b.
Proof. unfold SpecFloat.fexp, emin, prec, emax. lia. Qed.


Lemma shr_1_shifted (x : shr_record) : 0 <= shr_m x -> shiftedRight 1 x (shr_1 x).
Proof.
  destruct x as [m r s]. cbn [shr_m]. intros Hm. unfold shiftedRight, inexact.
  change (2 ^ 1) with 2.
  destruct m as [|p|p]; [| |lia].
  - cbn. split; [reflexivity|]. intros H. left. exact H.
  - destruct p as [p|p|]; cbn [shr_1 shr_m shr_r shr_s].
    + split.
      * apply (Z.div_unique _ _ _ 1); lia.
      * intros _. right.
        assert (H1 : 1 = Zpos p~1 mod 2) by (apply (Z.mod_unique _ _ (Zpos p)); lia).
        lia.
    + split.
      * apply (Z.div_unique _ _ _ 0); lia.
      * cbn. intros H. left. exact H.
    + split; [reflexivity|]. intros _. right. intros Hmod. vm_compute in Hmod. discriminate.
Qed.

Lemma shiftedRight_compose (a b : Z) (x y z : shr_record) :
  0 <= a -> 0 <= b -> 0 <= shr_m x -> shiftedRight a x y -> shiftedRight b y z -> shiftedRight (a + b) x z.
Proof.
  intros Ha Hb Hx [Hy Hiy] [Hz Hiz]. split.
  - rewrite Hz, Hy, (Z.pow_add_r 2 a b) by lia.
    apply Zdiv.Zdiv_Zdiv; apply Z.pow_nonneg; lia.
  - intros Hin. assert (Hpa : 0 < 2 ^ a) by (apply Z.pow_pos_nonneg; lia).
    assert (Hpb : 0 < 2 ^ b) by (apply Z.pow_pos_nonneg; lia).
    assert (Hsplit : shr_m x mod 2 ^ (a + b) = 0 ->
                     shr_m x mod 2 ^ a = 0 /\ (shr_m x / 2 ^ a) mod 2 ^ b = 0).
    { rewrite Z.pow_add_r by lia. intros H0.
      apply Z.mod_divide in H0; [|lia]. destruct H0 as [q Hq].
      split.
      - apply Z.mod_divide; [lia|]. exists (q * 2 ^ b). lia.
      - apply Z.mod_divide; [lia|]. exists q.
        rewrite Hq. replace (q * (2 ^ a * 2 ^ b)) with (q * 2 ^ b * 2 ^ a) by ring.
        rewrite Z.div_mul by lia. reflexivity. }
    destruct (Hiz Hin) as [Hyin|Hmod].
    + destruct (Hiy Hyin) as [Hxin|Hmod]; [left; exact Hxin|].
      right. intros H0. apply Hsplit in H0. tauto.
    + right. intros H0. apply Hsplit in H0. rewrite Hy in Hmod. tauto.
Qed.

Lemma shiftedRight_nonneg (k : Z) (x y : shr_record) : 0 <= k -> 0 <= shr_m x -> shiftedRight k x y -> 0 <= shr_m y.
Proof.
  intros Hk Hx [Hy _]. rewrite Hy. apply Z.div_pos; [lia|apply Z.pow_pos_nonneg; lia].
Qed.

Lemma iter_shr_shifted (p : positive) (x : shr_record) :
  0 <= shr_m x -> shiftedRight (Zpos p) x (SpecFloat.iter_pos shr_1 p x).
Proof.
  revert x. induction p as [p IH|p IH|]; intros x Hx; cbn [SpecFloat.iter_pos].
  - pose proof (shr_1_shifted x Hx) as H1.
    assert (Hx1 : 0 <= shr_m (shr_1 x)) by (apply (shiftedRight_nonneg 1 x); [lia|exact Hx|exact H1]).
    pose proof (IH _ Hx1) as H2.
    assert (Hx2 : 0 <= shr_m (SpecFloat.iter_pos shr_1 p (shr_1 x)))
      by (apply (shiftedRight_nonneg (Zpos p) (shr_1 x)); [lia|exact Hx1|exact H2]).
    pose proof (IH _ Hx2) as H3.
    replace (Zpos p~1) with (1 + (Zpos p + Zpos p)) by lia.
    apply (shiftedRight_compose 1 (Zpos p + Zpos p) x (shr_1 x)); [lia|lia|exact Hx|exact H1|].
    apply (shiftedRight_compose (Zpos p) (Zpos p) (shr_1 x) (SpecFloat.iter_pos shr_1 p (shr_1 x)));
      [lia|lia|exact Hx1|exact H2|exact H3].
  - pose proof (IH _ Hx) as H2.
    assert (Hx2 : 0 <= shr_m (SpecFloat.iter_pos shr_1 p x))
      by (apply (shiftedRight_nonneg (Zpos p) x); [lia|exact Hx|exact H2]).
    pose proof (IH _ Hx2) as H3.
    replace (Zpos p~0) with (Zpos p + Zpos p) by lia.
    apply (shiftedRight_compose (Zpos p) (Zpos p) x (SpecFloat.iter_pos shr_1 p x));
      [lia|lia|exact Hx|exact H2|exact H3].
  - apply shr_1_shifted, Hx.
Qed.

Lemma record_of_loc_m (m : Z) (l : location) : shr_m (shr_record_of_loc m l) = m.
Proof. destruct l as [|[]]; reflexivity. Qed.

Lemma record_of_loc_inexact (m : Z) (l : location) :
  inexact (shr_record_of_loc m l) = true <-> l <> loc_Exact.
Proof. destruct l as [|[]]; cbn; split; intros; try discriminate; try congruence; reflexivity. Qed.

Lemma shr_fexp_cases (m e : Z) (l : location) :
  0 <= m ->
  (shr_fexp prec emax m e l = (shr_record_of_loc m l, e) /\ SpecFloat.fexp prec emax (Zdigits2 m + e) <= e)
  \/ exists rec,
       shr_fexp prec emax m e l = (rec, SpecFloat.fexp prec emax (Zdigits2 m + e))
       /\ e < SpecFloat.fexp prec emax (Zdigits2 m + e)
       /\ shiftedRight (SpecFloat.fexp prec emax (Zdigits2 m + e) - e) (shr_record_of_loc m l) rec.
Proof.
  intros Hm. unfold shr_fexp, shr.
  destruct (SpecFloat.fexp prec emax (Zdigits2 m + e) - e) as [|p|p] eqn:Hn.
  - left. split; [reflexivity|lia].
  - right. exists (SpecFloat.iter_pos shr_1 p (shr_record_of_loc m l)).
    split; [f_equal; lia|]. split; [lia|].
    apply iter_shr_shifted. rewrite record_of_loc_m. exact Hm.
  - left. split; [reflexivity|lia].
Qed.

Lemma shift_value (m e : Z) (l : location) (rec : shr_record) (e' : Z) :
  0 <= m -> - 3000 <= e ->
  shr_fexp prec emax m e l = (rec, e') ->
  0 <= shr_m rec /\ e <= e' /\ scaled (shr_m rec) e' <= scaled m e
  /\ (inexact rec = true -> l = loc_Exact ->
      scaled (shr_m rec) e' < scaled m e /\ e' = SpecFloat.fexp prec emax (Zdigits2 m + e))
  /\ (inexact rec = true -> e' = e \/ e' = SpecFloat.fexp prec emax (Zdigits2 m + e))
  /\ (e' = e -> inexact rec = true -> l <> loc_Exact).
Proof.
  intros Hm He Hshift.
  destruct (shr_fexp_cases m e l Hm) as [[Heq Hn]|(rec' & Heq & Hn & [Hval Hin])];
    rewrite Heq in Hshift; injection Hshift as <- <-.
  - rewrite record_of_loc_m. split; [exact Hm|]. split; [lia|]. split; [lia|].
    split; [|split].
    + intros Hi Hl. apply record_of_loc_inexact in Hi. contradiction.
    + intros _. left. reflexivity.
    + intros _ Hi. apply record_of_loc_inexact in Hi. exact Hi.
  - rewrite record_of_loc_m in Hval, Hin.
    set (n := SpecFloat.fexp prec emax (Zdigits2 m + e) - e) in *.
    assert (Hpos : 0 < 2 ^ n) by (apply Z.pow_pos_nonneg; lia).
    replace (SpecFloat.fexp prec emax (Zdigits2 m + e)) with (e + n) by (unfold n; lia).
    rewrite Hval. split; [apply Z.div_pos; lia|]. split; [lia|].
    split; [apply scaled_div; lia|]. split; [|split].
    + intros Hi Hl. split; [|reflexivity].
      destruct (Hin Hi) as [Hx|Hmod]; [apply record_of_loc_inexact in Hx; contradiction|].
      apply scaled_div_lt; lia.
    + intros _. right. reflexivity.
    + intros Hsame. lia.
Qed.

Lemma rne_bounds (m : Z) (rec : shr_record) :
  (inexact rec = false -> round_nearest_even m (loc_of_shr_record rec) = m)
  /\ m <= round_nearest_even m (loc_of_shr_record rec) <= m + 1.
Proof.
  destruct rec as [m0 [|] [|]]; cbn; (split; [intros; try discriminate; reflexivity|]);
    try lia; destruct (Z.even m); lia.
Qed.

Lemma canonical_digits (Mb : positive) (Eb : Z) :
  canonical_mantissa prec emax Mb Eb = true ->
  SpecFloat.fexp prec emax (Zpos (digits2_pos Mb) + Eb) = Eb /\ Zpos Mb < 2 ^ 53 /\ - 1074 <= Eb.
Proof.
  unfold canonical_mantissa. intros Hc. apply Z.eqb_eq in Hc. split; [exact Hc|].
  pose proof (digits2_pos_bounds Mb) as [_ Hup].
  unfold SpecFloat.fexp, emin, prec, emax in Hc.
  assert (Hd : Zpos (digits2_pos Mb) <= 53) by lia.
  split; [|lia].
  apply (Z.lt_le_trans _ _ _ Hup). apply Z.pow_le_mono_r; lia.
Qed.

(** Rounding a value that is at most a number of the format gives at most
    that number. *)
Lemma round_aux_upper (mz ez : Z) (lz : location) (Mb : positive) (Eb : Z) :
  0 < mz -> - 2000 <= ez -> Eb <= 900 ->
  canonical_mantissa prec emax Mb Eb = true ->
  scaled mz ez <= scaled (Zpos Mb) Eb ->
  (lz <> loc_Exact -> scaled mz ez < scaled (Zpos Mb) Eb /\ ez <= Eb) ->
  binary_round_aux prec emax false mz ez lz = S754_zero false
  \/ exists m e,
       binary_round_aux prec emax false mz ez lz = S754_finite false m e
       /\ scaled (Zpos m) e <= scaled (Zpos Mb) Eb /\ ez <= e.
Proof.
  intros Hmz Hez HEb Hcanon Hle Hlt.
  destruct (canonical_digits _ _ Hcanon) as (Hfexp & HMb & HEb').
  unfold binary_round_aux.
  destruct (shr_fexp prec emax mz ez lz) as [rec e'] eqn:Hfirst.
  apply (shift_value mz ez lz rec e' ltac:(lia) ltac:(lia)) in Hfirst
    as (Hm' & He' & Hv' & Hexact & Hwhere & Hsame).
  set (m'' := round_nearest_even (shr_m rec) (loc_of_shr_record rec)).
  destruct (rne_bounds (shr_m rec) rec) as [Hkeep Hround]. fold m'' in Hkeep, Hround.
  assert (Hshifted : SpecFloat.fexp prec emax (Zdigits2 mz + ez) <= Eb).
  { destruct mz as [|p|p]; try lia. cbn [Zdigits2].
    rewrite <- Hfexp. apply fexp_mono. apply scaled_digits; lia. }
  assert (Hv'' : scaled m'' e' <= scaled (Zpos Mb) Eb).
  { destruct (inexact rec) eqn:Hin.
    - assert (Hstrict : scaled (shr_m rec) e' < scaled (Zpos Mb) Eb /\ e' <= Eb).
      { destruct (Hwhere eq_refl) as [-> | ->].
        - destruct (Hlt (Hsame eq_refl eq_refl)) as [H1 H2]. split; lia.
        - split; [|exact Hshifted].
          destruct lz as [|c].
          + destruct (Hexact eq_refl eq_refl) as [H1 _]. lia.
          + destruct (Hlt ltac:(discriminate)) as [H1 _]. lia. }
      destruct Hstrict as [Hstrict HeEb].
      replace Eb with (e' + (Eb - e')) in Hstrict |- * by lia.
      rewrite <- scaled_shift in Hstrict |- * by lia.
      apply scaled_same_lt in Hstrict; [|lia]. apply scaled_same; lia.
    - rewrite (Hkeep eq_refl). lia. }
  destruct (shr_fexp prec emax m'' e' loc_Exact) as [rec2 e2] eqn:Hsecond.
  apply (shift_value m'' e' loc_Exact rec2 e2 ltac:(lia) ltac:(lia)) in Hsecond
    as (Hm2 & He2 & Hv2 & _).
  destruct (shr_m rec2) as [|m|m] eqn:Hres; [left; reflexivity| |lia].
  destruct (Z.leb_spec e2 (emax - prec)) as [Hfin|Hover].
  - right. exists m, e2. split; [reflexivity|]. split; lia.
  - exfalso. unfold emax, prec in Hover.
    assert (Hbig : 2 ^ (972 + 3000) <= scaled (Zpos m) e2).
    { unfold scaled. apply Z.le_trans with (1 * 2 ^ (e2 + 3000)).
      - rewrite Z.mul_1_l. apply Z.pow_le_mono_r; lia.
      - apply Z.mul_le_mono_nonneg_r; [apply Z.pow_nonneg; lia|lia]. }
    assert (Hsmall : scaled (Zpos Mb) Eb < 2 ^ (972 + 3000)).
    { unfold scaled. apply Z.lt_le_trans with (2 ^ 53 * 2 ^ (Eb + 3000)).
      - apply Z.mul_lt_mono_pos_r; [apply Z.pow_pos_nonneg; lia|lia].
      - rewrite <- Z.pow_add_r by lia. apply Z.pow_le_mono_r; lia. }
    lia.
Qed.

(** Comparison of two positive numbers of the format, from their values. *)
Lemma SFleb_of_values (m Mb : positive) (e Eb : Z) :
  canonical_mantissa prec emax m e = true ->
  canonical_mantissa prec emax Mb Eb = true ->
  scaled (Zpos m) e <= scaled (Zpos Mb) Eb ->
  SFleb (S754_finite false m e) (S754_finite false Mb Eb) = true.
Proof.
  intros Hm HMb Hle. unfold SFleb, SFcompare.
  destruct (canonical_digits _ _ Hm) as (Hfm & Hm53 & Hem).
  destruct (canonical_digits _ _ HMb) as (HfM & HM53 & HeM).
  destruct (Z.compare_spec e Eb) as [->|Hlt|Hgt]; [|reflexivity|exfalso].
  - apply scaled_same in Hle; [|lia].
    change (Pos.compare_cont Eq m Mb) with (Pos.compare m Mb).
    destruct (Pos.compare_spec m Mb); [reflexivity|reflexivity|lia].
  - pose proof (digits2_pos_bounds m) as [Hlow _].
    assert (Hd : Zpos (digits2_pos m) = 53)
      by (unfold SpecFloat.fexp, emin, prec, emax in Hfm; lia).
    rewrite Hd in Hlow. change (2 ^ (53 - 1)) with (2 ^ 52) in Hlow.
    unfold scaled in Hle.
    assert (Hstep : 2 ^ (e + 3000) = 2 ^ (e - Eb) * 2 ^ (Eb + 3000))
      by (rewrite <- Z.pow_add_r by lia; f_equal; lia).
    assert (Htwo : 2 <= 2 ^ (e - Eb))
      by (change 2 with (2 ^ 1) at 1; apply Z.pow_le_mono_r; lia).
    assert (Hp : 0 < 2 ^ (Eb + 3000)) by (apply Z.pow_pos_nonneg; lia).
    rewrite Hstep in Hle.
    assert (Hbig : 2 ^ 53 * 2 ^ (Eb + 3000) <= Zpos m * (2 ^ (e - Eb) * 2 ^ (Eb + 3000))).
    { change (2 ^ 53) with (2 ^ 52 * 2). nia. }
    nia.
Qed.

(** Integers below 2^53 are numbers of the format. *)

Lemma iter_xO_value (p k : positive) : Zpos (Pos.iter xO p k) = Zpos p * 2 ^ Zpos k.
Proof.
  induction k as [|k IH] using Pos.peano_ind.
  - cbn. lia.
  - rewrite Pos.iter_succ, Pos2Z.inj_succ, Z.pow_succ_r by lia.
    change (Zpos (Pos.iter xO p k)~0) with (2 * Zpos (Pos.iter xO p k)). rewrite IH. ring.
Qed.

Lemma iter_xO_digits (p k : positive) :
  Zpos (digits2_pos (Pos.iter xO p k)) = Zpos (digits2_pos p) + Zpos k.
Proof.
  induction k as [|k IH] using Pos.peano_ind.
  - cbn [Pos.iter digits2_pos]. lia.
  - rewrite Pos.iter_succ. cbn [digits2_pos]. rewrite !Pos2Z.inj_succ, IH. lia.
Qed.

Lemma round_aux_exact (m : positive) (e : Z) :
  SpecFloat.fexp prec emax (Zpos (digits2_pos m) + e) <= e -> e <= 971 ->
  binary_round_aux prec emax false (Zpos m) e loc_Exact = S754_finite false m e.
Proof.
  intros Hfit He. unfold binary_round_aux.
  destruct (shr_fexp_cases (Zpos m) e loc_Exact ltac:(lia)) as [[Heq _]|(rec & _ & Hn & _)];
    [|cbn [Zdigits2] in Hn; lia].
  rewrite Heq. cbn [shr_record_of_loc shr_m loc_of_shr_record round_nearest_even].
  rewrite Heq. cbn [shr_record_of_loc shr_m].
  destruct (Z.leb_spec e (emax - prec)) as [_|Hover]; [reflexivity|].
  unfold emax, prec in Hover. lia.
Qed.

Lemma normalize_small (p : positive) :
  Zpos p < 2 ^ 53 ->
  exists m e,
    binary_normalize prec emax (Zpos p) 0 false = S754_finite false m e
    /\ scaled (Zpos m) e = scaled (Zpos p) 0
    /\ Zpos (digits2_pos m) = 53
    /\ - 52 <= e <= 0
    /\ canonical_mantissa prec emax m e = true.
Proof.
  intros Hsmall. cbn [binary_normalize]. unfold binary_round.
  pose proof (digits2_pos_bounds p) as [Hlow Hup].
  assert (Hd : Zpos (digits2_pos p) <= 53).
  { destruct (Z_le_gt_dec (Zpos (digits2_pos p)) 53) as [Hle|Hgt]; [exact Hle|exfalso].
    assert (2 ^ 53 <= 2 ^ (Zpos (digits2_pos p) - 1)) by (apply Z.pow_le_mono_r; lia). lia. }
  assert (Hf : SpecFloat.fexp prec emax (Zpos (digits2_pos p) + 0) = Zpos (digits2_pos p) - 53)
    by (unfold SpecFloat.fexp, emin, prec, emax; lia).
  rewrite Hf. unfold shl_align.
  destruct (Zpos (digits2_pos p) - 53 - 0) as [|k|k] eqn:Hshift; [|lia|].
  - exists p, 0. rewrite round_aux_exact by (rewrite ?Hf; lia).
    split; [reflexivity|]. split; [reflexivity|]. split; [lia|]. split; [lia|].
    unfold canonical_mantissa. rewrite Hf. apply Z.eqb_eq. lia.
  - assert (Hdig : Zpos (digits2_pos (Pos.iter xO p k)) = 53)
      by (rewrite iter_xO_digits; lia).
    assert (Hfk : SpecFloat.fexp prec emax (Zpos (digits2_pos (Pos.iter xO p k)) + (Zpos (digits2_pos p) - 53))
                  = Zpos (digits2_pos p) - 53)
      by (rewrite Hdig; unfold SpecFloat.fexp, emin, prec, emax; lia).
    exists (Pos.iter xO p k), (Zpos (digits2_pos p) - 53).
    rewrite round_aux_exact by (rewrite ?Hfk; lia).
    split; [reflexivity|]. split.
    { rewrite iter_xO_value, scaled_shift by lia. f_equal. lia. }
    split; [exact Hdig|]. split; [lia|].
    unfold canonical_mantissa. rewrite Hfk. apply Z.eqb_eq. reflexivity.
Qed.

Lemma float_of_Z_small (z : Z) :
  0 < z < 2 ^ 53 ->
  exists m e,
    Prim2SF (float_of_Z z) = S754_finite false m e
    /\ scaled (Zpos m) e = scaled z 0
    /\ Zpos (digits2_pos m) = 53
    /\ - 52 <= e <= 0.
Proof.
  intros [Hpos Hsmall]. destruct z as [|p|p]; try lia.
  destruct (normalize_small p Hsmall) as (m & e & Hnorm & Hval & Hdig & He & Hcanon).
  exists m, e. unfold float_of_Z. rewrite Hnorm.
  rewrite Prim2SF_SF2Prim; [auto|].
  cbn [valid_binary]. unfold bounded. rewrite Hcanon. cbn [andb].
  apply Z.leb_le. unfold emax, prec. lia.
Qed.

Lemma new_location_inexact (n r : Z) : new_location n r <> loc_Exact -> r <> 0.
Proof.
  unfold new_location, new_location_even, new_location_odd. intros H ->.
  destruct (Z.even n); cbn in H; congruence.
Qed.

(** The quotient of two normal numbers x <= y is at most one. *)
Lemma SFdiv_at_most_one (mx my : positive) (ex ey : Z) :
  Zpos (digits2_pos mx) = 53 -> Zpos (digits2_pos my) = 53 ->
  - 52 <= ex <= 0 -> - 52 <= ey <= 0 ->
  scaled (Zpos mx) ex <= scaled (Zpos my) ey ->
  SFdiv prec emax (S754_finite false mx ex) (S754_finite false my ey) = S754_zero false
  \/ exists m e,
       SFdiv prec emax (S754_finite false mx ex) (S754_finite false my ey)
       = S754_finite false m e
       /\ scaled (Zpos m) e <= scaled (Zpos 4503599627370496) (- 52) /\ - 105 <= e.
Proof.
  intros Hdx Hdy Hex Hey Hle.
  assert (Hexy : ex <= ey).
  { pose proof (scaled_digits mx my ex ey ltac:(lia) ltac:(lia) Hle). lia. }
  cbn [SFdiv xorb]. unfold SFdiv_core_binary. cbn [Zdigits2]. rewrite Hdx, Hdy.
  assert (He' : Z.min (SpecFloat.fexp prec emax (53 + ex - (53 + ey))) (ex - ey) = ex - ey - 53)
    by (unfold SpecFloat.fexp, emin, prec, emax; lia).
  rewrite He'. replace (ex - ey - (ex - ey - 53)) with 53 by lia.
  rewrite Z.shiftl_mul_pow2 by lia.
  pose proof (Z_div_mod (Zpos mx * 2 ^ 53) (Zpos my) ltac:(lia)) as Hdm.
  destruct (Z.div_eucl (Zpos mx * 2 ^ 53) (Zpos my)) as [q r].
  destruct Hdm as [Heq Hr].
  pose proof (digits2_pos_bounds my) as [_ Hmy]. rewrite Hdy in Hmy.
  assert (Hq : 0 < q).
  { destruct (Z_lt_le_dec 0 q) as [Hpos|Hneg]; [exact Hpos|exfalso].
    assert (Zpos my * q <= 0) by nia. nia. }
  assert (HA : 0 < 2 ^ (ex + 3000)) by (apply Z.pow_pos_nonneg; lia).
  assert (HB : 0 < 2 ^ (ey + 3000)) by (apply Z.pow_pos_nonneg; lia).
  assert (HK : 0 < 2 ^ 3000) by (apply Z.pow_pos_nonneg; lia).
  assert (HE : 0 < 2 ^ (ex - ey - 53 + 3000)) by (apply Z.pow_pos_nonneg; lia).
  assert (Hexp : 2 ^ (ex - ey - 53 + 3000) * (2 ^ (ey + 3000) * 2 ^ 53) = 2 ^ (ex + 3000) * 2 ^ 3000).
  { rewrite <- !Z.pow_add_r by lia. f_equal. lia. }
  unfold scaled in Hle.
  assert (Hone : scaled (Zpos 4503599627370496) (- 52) = 2 ^ 3000).
  { change (Zpos 4503599627370496) with (1 * 2 ^ 52). rewrite scaled_shift by lia.
    unfold scaled. replace (- 52 + 52 + 3000) with 3000 by lia. lia. }
  assert (Hcore : q * 2 ^ (ex + 3000) <= 2 ^ (ey + 3000) * 2 ^ 53
                  /\ (r <> 0 -> q * 2 ^ (ex + 3000) < 2 ^ (ey + 3000) * 2 ^ 53)).
  { assert (H1 : Zpos my * (q * 2 ^ (ex + 3000)) + r * 2 ^ (ex + 3000)
                 = Zpos mx * 2 ^ (ex + 3000) * 2 ^ 53) by nia.
    assert (H2 : Zpos mx * 2 ^ (ex + 3000) * 2 ^ 53 <= Zpos my * (2 ^ (ey + 3000) * 2 ^ 53)) by nia.
    split.
    - assert (Zpos my * (q * 2 ^ (ex + 3000)) <= Zpos my * (2 ^ (ey + 3000) * 2 ^ 53)) by nia.
      apply (Z.mul_le_mono_pos_l _ _ (Zpos my)); lia.
    - intros Hr0. assert (0 < r * 2 ^ (ex + 3000)) by nia.
      assert (Zpos my * (q * 2 ^ (ex + 3000)) < Zpos my * (2 ^ (ey + 3000) * 2 ^ 53)) by nia.
      apply (Z.mul_lt_mono_pos_l (Zpos my)); lia. }
  destruct Hcore as [Hweak Hstrict].
  assert (Hscale : forall a : Z,
             a * 2 ^ (ex - ey - 53 + 3000) * (2 ^ (ey + 3000) * 2 ^ 53) = a * 2 ^ (ex + 3000) * 2 ^ 3000).
  { intros a. rewrite <- Z.mul_assoc, Hexp. ring. }
  assert (HD : 0 < 2 ^ (ey + 3000) * 2 ^ 53) by nia.
  destruct (round_aux_upper q (ex - ey - 53) (new_location (Zpos my) r) 4503599627370496 (- 52))
    as [Hz|(m & e & Hres & Hval & He)].
  - exact Hq.
  - lia.
  - lia.
  - reflexivity.
  - rewrite Hone. unfold scaled.
    apply (Z.mul_le_mono_pos_r _ _ (2 ^ (ey + 3000) * 2 ^ 53)); [exact HD|].
    rewrite Hscale. nia.
  - intros Hloc. apply new_location_inexact in Hloc. split; [|lia].
    rewrite Hone. unfold scaled.
    apply (Z.mul_lt_mono_pos_r (2 ^ (ey + 3000) * 2 ^ 53)); [exact HD|].
    rewrite Hscale. specialize (Hstrict Hloc). nia.
  - left. exact Hz.
  - right. exists m, e. split; [exact Hres|]. split; [exact Hval|lia].
Qed.

(** One hundred times a quotient of at most one is at most one hundred. *)
Lemma SFmul_hundred (m : positive) (e : Z) :
  - 105 <= e ->
  scaled (Zpos m) e <= scaled (Zpos 4503599627370496) (- 52) ->
  SFmul prec emax (S754_finite false m e) (S754_finite false 7036874417766400 (- 46))
  = S754_zero false
  \/ exists m' e',
       SFmul prec emax (S754_finite false m e) (S754_finite false 7036874417766400 (- 46))
       = S754_finite false m' e'
       /\ scaled (Zpos m') e' <= scaled (Zpos 7036874417766400) (- 46).
Proof.
  intros He Hle. cbn [SFmul xorb].
  assert (Hone : scaled (Zpos 4503599627370496) (- 52) = 2 ^ 3000).
  { change (Zpos 4503599627370496) with (1 * 2 ^ 52). rewrite scaled_shift by lia.
    unfold scaled. replace (- 52 + 52 + 3000) with 3000 by lia. lia. }
  rewrite Hone in Hle. unfold scaled in Hle.
  destruct (round_aux_upper (Zpos (m * 7036874417766400)) (e + - 46) loc_Exact
              7036874417766400 (- 46))
    as [Hz|(m' & e' & Hres & Hval & _)].
  - lia.
  - lia.
  - lia.
  - reflexivity.
  - unfold scaled. rewrite Pos2Z.inj_mul.
    assert (HE : 0 < 2 ^ (e + - 46 + 3000)) by (apply Z.pow_pos_nonneg; lia).
    assert (H46 : 2 ^ (e + - 46 + 3000) * 2 ^ 46 = 2 ^ (e + 3000))
      by (rewrite <- Z.pow_add_r by lia; f_equal; lia).
    assert (HK46 : 2 ^ (- 46 + 3000) * 2 ^ 46 = 2 ^ 3000)
      by (rewrite <- Z.pow_add_r by lia; f_equal; lia).
    assert (Hm : Zpos m * 2 ^ (e + - 46 + 3000) <= 2 ^ (- 46 + 3000)).
    { apply (Z.mul_le_mono_pos_r _ _ (2 ^ 46)); [lia|].
      rewrite <- Z.mul_assoc, H46, HK46. exact Hle. }
    nia.
  - intros Hloc. congruence.
  - left. exact Hz.
  - right. exists m', e'. split; [exact Hres|exact Hval].
Qed.

Lemma float_rate_bounds (completed total : Z) :
  0 <= completed <= total -> 0 < total < 2 ^ 53 ->
  let rate := PrimFloat.mul (PrimFloat.div (float_of_Z completed) (float_of_Z total))
                            (float_of_Z 100) in
  PrimFloat.leb 0 rate = true /\ PrimFloat.leb rate 100 = true.
Proof.
  intros Hc Ht rate.
  pose proof (FloatAxioms.Prim2SF_valid rate) as Hvalid.
  rewrite !FloatAxioms.leb_spec.
  assert (Hrate : Prim2SF rate
                  = SFmul prec emax
                      (SFdiv prec emax (Prim2SF (float_of_Z completed))
                                       (Prim2SF (float_of_Z total)))
                      (S754_finite false 7036874417766400 (- 46))).
  { unfold rate. rewrite FloatAxioms.mul_spec, FloatAxioms.div_spec. reflexivity. }
  change (Prim2SF 0) with (S754_zero false).
  change (Prim2SF 100) with (S754_finite false 7036874417766400 (- 46)).
  destruct (float_of_Z_small total Ht) as (my & ey & Hy & Hvy & Hdy & Hey).
  rewrite Hy in Hrate.
  assert (Hzero : Prim2SF rate = S754_zero false ->
                  SFleb (S754_zero false) (Prim2SF rate) = true
                  /\ SFleb (Prim2SF rate) (S754_finite false 7036874417766400 (- 46)) = true).
  { intros ->. split; reflexivity. }
  destruct (Z.eq_dec completed 0) as [->|Hnz].
  - apply Hzero. rewrite Hrate. reflexivity.
  - destruct (float_of_Z_small completed ltac:(lia)) as (mx & ex & Hx & Hvx & Hdx & Hex).
    rewrite Hx in Hrate.
    assert (Hle : scaled (Zpos mx) ex <= scaled (Zpos my) ey).
    { rewrite Hvx, Hvy. apply scaled_same; lia. }
    destruct (SFdiv_at_most_one mx my ex ey Hdx Hdy Hex Hey Hle)
      as [Hq|(m & e & Hq & Hval & He)]; rewrite Hq in Hrate.
    + apply Hzero. rewrite Hrate. reflexivity.
    + destruct (SFmul_hundred m e He Hval) as [Hr|(m' & e' & Hr & Hval')];
        rewrite Hr in Hrate.
      * apply Hzero. exact Hrate.
      * rewrite Hrate in Hvalid |- *. split; [reflexivity|].
        cbn [valid_binary] in Hvalid. unfold bounded in Hvalid.
        apply andb_true_iff in Hvalid as [Hcanon _].
        apply SFleb_of_values; [exact Hcanon|reflexivity|exact Hval'].
Qed.

(** ** Completion rate *)

Lemma rate_bounds (completed total : Z) :
  0 <= completed <= total -> 0 < total ->
  (0 <= inject_Z completed / inject_Z total * inject_Z 100 <= 100)%Q.
Proof.
  intros Hc Ht. destruct total as [|p|p]; try lia.
  unfold Qle, Qdiv, Qmult, Qinv, inject_Z. simpl. split; nia.
Qed.

Lemma count_bounds (p : Task -> bool) (tasks : list Task) :
  0 <= count p tasks <= Z.of_nat (length tasks).
Proof.
  unfold count. pose proof (List.filter_length_le p tasks). lia.
Qed.

Section CompletionRate.
Context {num : Type} `{Number num}.

(** C8. The completion rate is total and bounded, in doubles as in any
    other interpretation of the arithmetic.
    Over a task set ([calculateTaskTrends]): when there are tasks the rate is
    completed / total * 100; with no task it is 0, and nothing is divided.
    Over snapshots ([getPerformanceTrends]): each entry's rate is
    completedTasks / totalTasks * 100 when totalTasks > 0 and 0 when
    totalTasks = 0. The zero case is the guard's doing: in doubles the
    unguarded 0 / 0 * 100 is NaN.
    The value completed / total * 100 lies in [0, 100]: for a task set
    always, and for a snapshot whenever the row counts its completed tasks
    among its total, as every row the daily aggregation stores does. The
    range is proved twice: of the exact quotient, and of the double the
    code computes (the quotient rounded, times 100, rounded again), for
    counts below 2^53, which every array length and every INTEGER column
    is. *)
Theorem completion_rate_total_and_bounded
    (tasks : list Task) (clock today : Z)
    (formatDate : Z -> string) (metrics : list (TaskMetrics.t num))
    (rows : list (TaskMetrics.t Q)) :
  let rate := completionRate (calculateTaskTrends (num := num) tasks) in
  let total := Z.of_nat (length tasks) in
  let completed := count isCompleted tasks in
  (0 < total -> rate = num_mul (num_div (of_Z completed) (of_Z total)) (of_Z 100))
  /\ (total = 0 -> rate = of_Z 0)
  /\ Forall2
       (fun metric entry =>
          let total := TaskMetrics.totalTasks metric in
          let completed := TaskMetrics.completedTasks metric in
          (0 < total ->
             pt_completionRate entry
             = num_mul (num_div (of_Z completed) (of_Z total)) (of_Z 100))
          /\ (total <= 0 -> pt_completionRate entry = of_Z 0))
       metrics (getPerformanceTrends formatDate metrics)
  /\ (0 < total ->
        (0 <= completionRate (calculateTaskTrends (num := Q) tasks) <= 100)%Q)
  /\ Forall2
       (fun row entry =>
          0 < TaskMetrics.totalTasks row ->
          0 <= TaskMetrics.completedTasks row <= TaskMetrics.totalTasks row ->
          (0 <= pt_completionRate entry <= 100)%Q)
       rows (getPerformanceTrends formatDate rows)
  /\ (let stored := storedTaskMetrics (calculateTaskMetrics (num := num) tasks clock) today in
      0 <= TaskMetrics.completedTasks stored <= TaskMetrics.totalTasks stored)
  /\ completionRate (calculateTaskTrends (num := float) []) = 0%float
  /\ PrimFloat.eqb
       (num_mul (num_div (of_Z (num := float) 0) (of_Z 0)) (of_Z 100))
       (num_mul (num_div (of_Z (num := float) 0) (of_Z 0)) (of_Z 100)) = false
  /\ (0 < total < 2 ^ 53 ->
        PrimFloat.leb 0 (completionRate (calculateTaskTrends (num := float) tasks)) = true
        /\ PrimFloat.leb (completionRate (calculateTaskTrends (num := float) tasks)) 100
           = true)
  /\ (forall doubles : list (TaskMetrics.t float),
        Forall2
          (fun row entry =>
             0 < TaskMetrics.totalTasks row < 2 ^ 53 ->
             0 <= TaskMetrics.completedTasks row <= TaskMetrics.totalTasks row ->
             PrimFloat.leb 0 (pt_completionRate entry) = true
             /\ PrimFloat.leb (pt_completionRate entry) 100 = true)
          doubles (getPerformanceTrends formatDate doubles)).
Proof.
  intros rate total completed.
  split; [|split; [|split; [|split; [|split; [|split; [|split; [|split; [|split]]]]]]]].
  - intros Hpos. subst rate. unfold calculateTaskTrends, completionRate.
    fold total. apply Z.ltb_lt in Hpos as Hb. rewrite Hb. reflexivity.
  - intros Hzero. subst rate. unfold calculateTaskTrends, completionRate.
    fold total. rewrite Hzero. reflexivity.
  - unfold getPerformanceTrends. induction metrics as [|metric rest IH]; simpl.
    + constructor.
    + constructor; [|exact IH]. simpl. split.
      * intros Hpos. apply Z.ltb_lt in Hpos. rewrite Hpos. reflexivity.
      * intros Hzero. destruct (Z.ltb_spec 0 (TaskMetrics.totalTasks metric)); [lia|].
        reflexivity.
  - intros Hpos. unfold calculateTaskTrends, completionRate.
    fold total. apply Z.ltb_lt in Hpos as Hb. rewrite Hb.
    apply rate_bounds; [apply count_bounds|exact Hpos].
  - unfold getPerformanceTrends. induction rows as [|row rest IH]; simpl.
    + constructor.
    + constructor; [|exact IH]. simpl.
      intros Hpos Hc. apply Z.ltb_lt in Hpos as Hb. rewrite Hb.
      apply rate_bounds; assumption.
  - simpl. apply count_bounds.
  - vm_compute. reflexivity.
  - vm_compute. reflexivity.
  - intros [Hpos Hsmall]. unfold calculateTaskTrends, completionRate.
    fold total. apply Z.ltb_lt in Hpos as Hb. rewrite Hb.
    apply float_rate_bounds; [apply count_bounds|split; assumption].
  - intros doubles. unfold getPerformanceTrends.
    induction doubles as [|row rest IH]; simpl.
    + constructor.
    + constructor; [|exact IH]. simpl.
      intros [Hpos Hsmall] Hc. apply Z.ltb_lt in Hpos as Hb. rewrite Hb.
      apply float_rate_bounds; [exact Hc|split; assumption].
Qed.

End CompletionRate.

(** ** Productivity score *)

Lemma score_sign (completed overdue total : Z) :
  0 < total ->
  (inject_Z completed / inject_Z total * inject_Z 100
   - inject_Z overdue / inject_Z total * inject_Z 50 < 0)%Q
  <-> 2 * completed < overdue.
Proof.
  intros Ht. destruct total as [|p|p]; try lia.
  unfold Qlt, Qminus, Qplus, Qopp, Qdiv, Qmult, Qinv, inject_Z. simpl.
  split; nia.
Qed.

Section ProductivityScore.
Context {num : Type} `{Number num}.

(** C9. The productivity score, in doubles as in any other interpretation
    of the arithmetic: for a user with at least one assigned task it is
    (tasksCompleted / totalTasks) * 100 - (tasksOverdue / totalTasks) * 50,
    where tasksCompleted counts the completed tasks and tasksOverdue those not
    completed and due before the clock; with no task it is 0, by the guard
    (in doubles the unguarded formula is NaN there). Nothing clamps it to
    [0, 100]: a user whose only task is overdue scores -50, in doubles and
    over the rationals, and over the rationals the score is negative exactly
    when the overdue tasks are more than twice the completed ones. *)
Theorem productivity_score_unclamped (tasks : list Task) (clock : Z) :
  let performance := calculateUserPerformance (num := num) tasks clock in
  let score := us_productivityScore performance in
  let total := Z.of_nat (length tasks) in
  let completed := count isCompleted tasks in
  let overdue := count (isOverdue clock) tasks in
  us_tasksCompleted performance = completed
  /\ us_tasksOverdue performance = overdue
  /\ (0 < total ->
        score = num_sub (num_mul (num_div (of_Z completed) (of_Z total)) (of_Z 100))
                        (num_mul (num_div (of_Z overdue) (of_Z total)) (of_Z 50)))
  /\ (total = 0 -> score = of_Z 0)
  /\ (0 < total ->
        (us_productivityScore (calculateUserPerformance (num := Q) tasks clock) < 0)%Q
        <-> 2 * completed < overdue)
  /\ us_productivityScore (calculateUserPerformance (num := float) [overduePending] 2000)
     = (-50)%float
  /\ (us_productivityScore (calculateUserPerformance (num := Q) [overduePending] 2000)
      == - (50))%Q
  /\ us_productivityScore (calculateUserPerformance (num := float) [] 2000) = 0%float
  /\ PrimFloat.eqb
       (num_sub (num_mul (num_div (of_Z (num := float) 0) (of_Z 0)) (of_Z 100))
                (num_mul (num_div (of_Z (num := float) 0) (of_Z 0)) (of_Z 50)))
       (num_sub (num_mul (num_div (of_Z (num := float) 0) (of_Z 0)) (of_Z 100))
                (num_mul (num_div (of_Z (num := float) 0) (of_Z 0)) (of_Z 50))) = false.
Proof.
  intros performance score total completed overdue.
  split; [reflexivity|]. split; [reflexivity|].
  split; [|split; [|split]].
  - intros Hpos. subst score performance.
    unfold calculateUserPerformance, us_productivityScore.
    fold total completed overdue. apply Z.ltb_lt in Hpos as Hb. rewrite Hb.
    reflexivity.
  - intros Hzero. subst score performance.
    unfold calculateUserPerformance, us_productivityScore.
    fold total. rewrite Hzero. reflexivity.
  - intros Hpos. unfold calculateUserPerformance, us_productivityScore.
    fold total completed overdue. apply Z.ltb_lt in Hpos as Hb. rewrite Hb.
    apply score_sign, Hpos.
  - split; [vm_compute; reflexivity|]. split; [reflexivity|].
    split; vm_compute; reflexivity.
Qed.

End ProductivityScore.

(** ** Priority distribution *)

Lemma bumped_bumped (a b : nat) (cell : option counter) :
  bumped a (bumped b cell) = bumped (a + b) cell.
Proof.
  destruct b as [|b]; [rewrite Nat.add_0_r; reflexivity|].
  destruct a as [|a]; [reflexivity|].
  unfold bumped. replace (S a + S b)%nat with (S (a + S b)) by lia.
  f_equal. cbn [toNumber]. rewrite <- Nat.iter_add. reflexivity.
Qed.

Lemma postIncrement_lookup (obj : gmap string counter) (key' key : string) :
  postIncrement obj key' !! key
  = bumped (if String.eqb key' key then 1 else 0) (obj !! key).
Proof.
  unfold postIncrement. destruct (String.eqb_spec key' key) as [->|Hne].
  - rewrite lookup_insert_eq. reflexivity.
  - rewrite lookup_insert_ne by exact Hne. reflexivity.
Qed.

Lemma fold_postIncrement_lookup (tasks : list Task) (obj : gmap string counter)
    (key : string) :
  fold_left (fun dist task => postIncrement dist (priority task)) tasks obj !! key
  = bumped (tally key tasks) (obj !! key).
Proof.
  revert obj. induction tasks as [|task rest IH]; intros obj; [reflexivity|].
  cbn [fold_left]. rewrite IH, postIncrement_lookup, bumped_bumped.
  f_equal. unfold tally. cbn [List.filter].
  destruct (String.eqb (priority task) key); cbn [length]; lia.
Qed.

Lemma bumped_zero (n : nat) : bumped n (Some (Num 0)) = Some (Num (Z.of_nat n)).
Proof.
  destruct n as [|n]; [reflexivity|]. unfold bumped. f_equal. cbn [toNumber].
  induction n as [|n IH]; [reflexivity|].
  rewrite Nat.iter_succ, IH. cbn [succ_counter]. f_equal. lia.
Qed.

Lemma bumped_missing (n : nat) :
  bumped n None = if Nat.eqb n 0 then None else Some NaN.
Proof.
  destruct n as [|n]; [reflexivity|]. unfold bumped. cbn [Nat.eqb toNumber]. f_equal.
  induction n as [|n IH]; [reflexivity|]. rewrite Nat.iter_succ, IH. reflexivity.
Qed.

Lemma tally_total (tasks : list Task) :
  Forall (fun task => initialised (priority task)) tasks ->
  (tally "high" tasks + tally "medium" tasks + tally "low" tasks = length tasks)%nat.
Proof.
  unfold tally. induction 1 as [|task rest Hkey _ IH]; [reflexivity|].
  cbn [List.filter length].
  destruct Hkey as [-> | [-> | ->]]; cbn [String.eqb Ascii.eqb Bool.eqb andb length]; lia.
Qed.

Lemma tally_positive (key : string) (tasks : list Task) :
  (exists task, In task tasks /\ priority task = key) -> Nat.eqb (tally key tasks) 0 = false.
Proof.
  intros (task & Hin & Hkey). apply Nat.eqb_neq. unfold tally.
  assert (Hf : In task (List.filter (fun task => String.eqb (priority task) key) tasks)).
  { apply List.filter_In. split; [exact Hin|]. apply String.eqb_eq, Hkey. }
  destruct (List.filter _ tasks); [contradiction|]. discriminate.
Qed.

Section Distribution.
Context {num : Type} `{Number num}.

(** C10. [calculateTaskTrends] counts only the distribution keys it
    initialises. The priority distribution starts with exactly the keys
    high, medium and low, and the status distribution with pending,
    in_progress, completed and cancelled. After the pass each of the three
    priority counters is the number of tasks with that priority, and the
    three add up to the number of tasks when every priority is one of them.
    A priority without a counter, such as urgent, gets the cell NaN as soon
    as one task has it (and no cell otherwise); its tasks are in none of the
    three counters. *)
Theorem priority_distribution_counts_initialised_keys (tasks : list Task) :
  let dist := priorityDistribution (calculateTaskTrends tasks) in
  dom initialPriorityDistribution = ({["high"; "medium"; "low"]} : gset string)
  /\ dom initialStatusDistribution
     = ({["pending"; "in_progress"; "completed"; "cancelled"]} : gset string)
  /\ (forall key, initialised key ->
        dist !! key = Some (Num (Z.of_nat (tally key tasks))))
  /\ (Forall (fun task => initialised (priority task)) tasks ->
        (tally "high" tasks + tally "medium" tasks + tally "low" tasks
         = length tasks)%nat)
  /\ (forall key, ~ initialised key ->
        dist !! key = if Nat.eqb (tally key tasks) 0 then None else Some NaN)
  /\ ((exists task, In task tasks /\ priority task = "urgent") ->
        dist !! "urgent" = Some NaN).
Proof.
  intros dist. subst dist. unfold calculateTaskTrends, priorityDistribution.
  assert (Hmissing : forall key, ~ initialised key ->
            initialPriorityDistribution !! key = None).
  { intros key Hkey. unfold initialPriorityDistribution, initialised in *.
    rewrite !lookup_insert_ne by (intros <-; tauto). apply lookup_empty. }
  split; [|split; [|split; [|split; [|split]]]].
  - unfold initialPriorityDistribution. rewrite !dom_insert_L, dom_empty_L. set_solver.
  - unfold initialStatusDistribution. rewrite !dom_insert_L, dom_empty_L. set_solver.
  - intros key Hkey. rewrite fold_postIncrement_lookup.
    destruct Hkey as [-> | [-> | ->]]; exact (bumped_zero _).
  - apply tally_total.
  - intros key Hkey. rewrite fold_postIncrement_lookup, (Hmissing key Hkey).
    apply bumped_missing.
  - intros Hurgent. rewrite fold_postIncrement_lookup, Hmissing.
    + rewrite bumped_missing, (tally_positive _ _ Hurgent). reflexivity.
    + unfold initialised. intros [Hk|[Hk|Hk]]; discriminate Hk.
Qed.

End Distribution.

(** ** The scheduler *)

Lemma processReport_outcome (e : Env) (store : Reports) (id : string)
    (report : CustomReport) :
  isActive report = true ->
  processReport e store id report
  = if throwsOn e report then None
    else Some (if delivers e id report && updateWrites e
               then <[id := setLastSent report (now e)]> store
               else store,
               outcome e id report).
Proof.
  intros Hactive. unfold processReport, throwsOn, delivers, outcome, isDue, shouldSend.
  rewrite Hactive. cbn [andb].
  destruct (schedule report) as [s|]; [|reflexivity].
  destruct (cron s) as [c|]; [|reflexivity].
  destruct (String.eqb c EmptyString); [reflexivity|]. cbn [negb andb].
  destruct (validate e c); [|reflexivity].
  destruct (nextDates e c) as [next|]; [|reflexivity].
  destruct ((next <=? now e) && _); [|reflexivity]. cbn [andb].
  destruct (generateCustomReport e id) as [reportData|]; [|reflexivity].
  destruct (reportCreator report) as [email|]; [|reflexivity].
  destruct (sendMail e email _ _); [|reflexivity].
  destruct (updateWrites e); reflexivity.
Qed.

Lemma upToThrow_sublist (e : Env) (reports : list (string * CustomReport)) :
  upToThrow e reports `sublist_of` reports.
Proof.
  induction reports as [|kr rest IH]; [constructor|]. cbn [upToThrow].
  destruct (throwsOn e (snd kr)); [apply sublist_nil_l|].
  apply sublist_skip, IH.
Qed.


Lemma processAll_log (e : Env) (reports : list (string * CustomReport))
    (store : Reports) (logged : list Event) :
  Forall (fun kr => isActive (snd kr) = true) reports ->
  log (processAll e reports store logged)
  = logged ++ flat_map (fun kr => outcome e (fst kr) (snd kr)) (upToThrow e reports).
Proof.
  intros Hactive. revert store logged.
  induction Hactive as [|[id report] rest Hact _ IH]; intros store logged.
  - simpl. rewrite app_nil_r. reflexivity.
  - cbn [processAll upToThrow fst snd] in *.
    rewrite (processReport_outcome _ _ _ _ Hact).
    destruct (throwsOn e report).
    + simpl. rewrite app_nil_r. reflexivity.
    + cbn [fst snd]. rewrite IH. cbn [flat_map fst snd].
      rewrite app_assoc. reflexivity.
Qed.


Lemma processAll_lookup (e : Env) (reports : list (string * CustomReport))
    (store : Reports) (logged : list Event) (k : string) :
  Forall (fun kr => isActive (snd kr) = true) reports ->
  NoDup (reports.*1) ->
  table (processAll e reports store logged) !! k
  = match (list_to_map (upToThrow e reports) : Reports) !! k with
    | Some report =>
        if delivers e k report && updateWrites e
        then Some (setLastSent report (now e))
        else store !! k
    | None => store !! k
    end.
Proof.
  intros Hactive. revert store logged.
  induction Hactive as [|[id report] rest Hact _ IH]; intros store logged Hnodup.
  - reflexivity.
  - cbn [processAll upToThrow fst snd] in *.
    rewrite (processReport_outcome _ _ _ _ Hact).
    destruct (throwsOn e report); [reflexivity|]. cbn [fst snd].
    rewrite fmap_cons in Hnodup. apply NoDup_cons in Hnodup as [Hfresh Hnodup].
    rewrite IH by exact Hnodup. rewrite list_to_map_cons.
    assert (Hfresh' : id ∉ (upToThrow e rest).*1).
    { intros Hin. apply Hfresh.
      exact (elem_of_sublist _ _ _ Hin (fmap_sublist fst _ _ (upToThrow_sublist e rest))). }
    destruct (decide (id = k)) as [->|Hne].
    + rewrite lookup_insert_eq, (not_elem_of_list_to_map_1 _ _ Hfresh').
      destruct (delivers e k report && updateWrites e);
        [apply lookup_insert_eq|reflexivity].
    + rewrite lookup_insert_ne by exact Hne.
      destruct (list_to_map (upToThrow e rest) !! k) as [other|];
        (destruct (delivers e id report && updateWrites e);
         [rewrite lookup_insert_ne by exact Hne|]);
        reflexivity.
Qed.

Lemma findScheduled_active (store : Reports) :
  Forall (fun kr => isActive (snd kr) = true) (findScheduled store).
Proof.
  apply Forall_forall. intros kr Hin. unfold findScheduled in Hin.
  apply list_elem_of_filter in Hin. tauto.
Qed.

Lemma findScheduled_NoDup (store : Reports) : NoDup ((findScheduled store).*1).
Proof.
  apply (sublist_NoDup _ ((map_to_list store).*1)).
  - apply NoDup_fst_map_to_list.
  - apply fmap_sublist, sublist_filter.
Qed.

Lemma elem_of_findScheduled (store : Reports) (k : string) (report : CustomReport) :
  (k, report) ∈ findScheduled store
  <-> store !! k = Some report /\ isActive report = true /\ is_Some (schedule report).
Proof.
  unfold findScheduled. rewrite list_elem_of_filter, elem_of_map_to_list. simpl. tauto.
Qed.

Lemma reached_sublist (e : Env) (store : Reports) :
  reached e store `sublist_of` findScheduled store.
Proof.
  unfold reached. destruct (findAllAnswers e); [apply upToThrow_sublist|apply sublist_nil_l].
Qed.

Lemma reached_NoDup (e : Env) (store : Reports) : NoDup ((reached e store).*1).
Proof.
  apply (sublist_NoDup _ ((findScheduled store).*1)); [apply findScheduled_NoDup|].
  apply fmap_sublist, reached_sublist.
Qed.

Lemma elem_of_reached (e : Env) (store : Reports) (k : string) (report : CustomReport) :
  (k, report) ∈ reached e store ->
  store !! k = Some report /\ isActive report = true /\ is_Some (schedule report).
Proof.
  intros Hin. apply elem_of_findScheduled.
  exact (elem_of_sublist _ _ _ Hin (reached_sublist e store)).
Qed.





Lemma tick_log (e : Env) (store : Reports) :
  snd (tick e store)
  = flat_map (fun kr => outcome e (fst kr) (snd kr)) (reached e store).
Proof.
  unfold tick, run, reached. cbn [snd]. destruct (findAllAnswers e); [|reflexivity].
  rewrite processAll_log by apply findScheduled_active. reflexivity.
Qed.

Lemma tick_lookup (e : Env) (store : Reports) (k : string) :
  fst (tick e store) !! k
  = (fun report =>
       if storesSent e store k report then setLastSent report (now e) else report)
    <$> store !! k.
Proof.
  unfold tick, run, storesSent. cbn [fst].
  pose proof (reached_NoDup e store) as Hnodup.
  pose proof (elem_of_reached e store k) as Hfound.
  unfold reached in *. destruct (findAllAnswers e).
  - cbn [table].
    rewrite processAll_lookup by (apply findScheduled_active || apply findScheduled_NoDup).
    destruct (list_to_map (upToThrow e (findScheduled store)) !! k) as [report|] eqn:Hin.
    + apply elem_of_list_to_map in Hin; [|exact Hnodup].
      destruct (Hfound report Hin) as [Hk _]. rewrite Hk. cbn.
      rewrite bool_decide_eq_true_2, andb_true_r
        by (apply list_elem_of_fmap; exists (k, report); auto).
      destruct (delivers e k report && updateWrites e); reflexivity.
    + apply not_elem_of_list_to_map_2 in Hin.
      rewrite (bool_decide_eq_false_2 _ Hin).
      destruct (store !! k); cbn; rewrite ?andb_false_r; reflexivity.
  - cbn [table]. rewrite bool_decide_eq_false_2 by (cbn; apply not_elem_of_nil).
    destruct (store !! k); cbn; rewrite ?andb_false_r; reflexivity.
Qed.

Lemma outcome_ids (e : Env) (id : string) (report : CustomReport) (ev : Event) :
  In ev (outcome e id report) -> eventId ev = id.
Proof.
  unfold outcome. destruct (isDue e report); [|contradiction].
  destruct (generateCustomReport e id); [|intros [<-|[]]; reflexivity].
  destruct (reportCreator report); [|intros [<-|[]]; reflexivity].
  destruct (sendMail e _ _ _); intros [<-|[]]; reflexivity.
Qed.

Lemma outcome_due (e : Env) (id : string) (report : CustomReport) :
  (exists ev, In ev (outcome e id report)) <-> isDue e report = true.
Proof.
  unfold outcome. destruct (isDue e report).
  - split; [reflexivity|]. intros _.
    destruct (generateCustomReport e id); [|eexists; left; reflexivity].
    destruct (reportCreator report); [|eexists; left; reflexivity].
    destruct (sendMail e _ _ _); eexists; left; reflexivity.
  - split; [intros [ev []]|discriminate].
Qed.

Lemma tick_event_origin (e : Env) (store : Reports) (k : string)
    (report : CustomReport) (ev : Event) :
  store !! k = Some report ->
  In ev (snd (tick e store)) -> eventId ev = k -> In ev (outcome e k report).
Proof.
  intros Hk Hin Hid. rewrite tick_log in Hin.
  apply in_flat_map in Hin as ([k' found] & Hfound & Hev). cbn [fst snd] in Hev.
  apply outcome_ids in Hev as Hid'. rewrite Hid in Hid'. subst k'.
  apply list_elem_of_In, elem_of_reached in Hfound as (Hk' & _).
  rewrite Hk in Hk'. injection Hk' as <-. exact Hev.
Qed.


Lemma isDue_conditions (e : Env) (report : CustomReport) :
  isDue e report = true
  <-> isActive report = true
      /\ exists s c next,
           schedule report = Some s /\ cron s = Some c /\ c <> EmptyString
           /\ validate e c = true
           /\ nextDates e c = Some next /\ next <= now e
           /\ (lastSent s = None \/ exists t, lastSent s = Some t /\ t < now e).
Proof.
  unfold isDue, shouldSend. split.
  - intros Hdue. apply andb_prop in Hdue as [Hactive Hrest]. split; [exact Hactive|].
    destruct (schedule report) as [s|]; [|discriminate].
    destruct (cron s) as [c|] eqn:Hcron; [|discriminate].
    apply andb_prop in Hrest as [Hne Hsend].
    destruct (validate e c) eqn:Hvalid; [|discriminate].
    destruct (nextDates e c) as [next|] eqn:Hnext; [|discriminate].
    apply andb_prop in Hsend as [Hle Hlast].
    exists s, c, next. repeat split; try assumption; try reflexivity.
    + intros ->. discriminate Hne.
    + apply Z.leb_le, Hle.
    + destruct (lastSent s) as [t|]; [right|left; reflexivity].
      exists t. split; [reflexivity|]. apply Z.ltb_lt, Hlast.
  - intros (Hactive & s & c & next & Hs & Hc & Hne & Hvalid & Hnext & Hle & Hlast).
    rewrite Hactive, Hs, Hc, Hvalid, Hnext. apply Z.leb_le in Hle. rewrite Hle.
    apply String.eqb_neq in Hne. rewrite Hne. cbn [negb andb].
    destruct Hlast as [->|(t & -> & Hlt)]; [reflexivity|]. apply Z.ltb_lt, Hlt.
Qed.

Lemma delivers_due (e : Env) (k : string) (report : CustomReport) :
  delivers e k report = true -> isDue e report = true.
Proof. unfold delivers. intros Hdel. apply andb_prop in Hdel as [Hdue _]. exact Hdue. Qed.

Lemma storesSent_delivers (e : Env) (store : Reports) (k : string)
    (report : CustomReport) :
  storesSent e store k report = true ->
  delivers e k report = true /\ updateWrites e = true /\ k ∈ (reached e store).*1.
Proof.
  unfold storesSent. intros Hst. apply andb_prop in Hst as [Hst Hreached].
  apply andb_prop in Hst as [Hdel Hwrites]. apply bool_decide_eq_true in Hreached. auto.
Qed.


(** The due test asks the library for the next date and wants it at most
    [now]. When the library answers a date after [now] for every expression
    it validates, as a next-date computation from the current clock does, or
    has no answer, no report is due: the run logs nothing and changes
    nothing. *)
Lemma future_probe_dispatches_nothing (e : Env) (store : Reports) :
  (forall c, validate e c = true ->
     match nextDates e c with
     | Some next => now e < next
     | None => True
     end) ->
  tick e store = (store, []) /\ forall report, isDue e report = false.
Proof.
  intros Hfuture.
  assert (Hnever : forall report, isDue e report = false).
  { intros report. destruct (isDue e report) eqn:Hdue; [|reflexivity].
    apply isDue_conditions in Hdue
      as (_ & s & c & next & _ & _ & _ & Hvalid & Hnext & Hle & _).
    specialize (Hfuture c Hvalid). rewrite Hnext in Hfuture. lia. }
  split; [|exact Hnever].
  rewrite (surjective_pairing (tick e store)). f_equal.
  - apply map_eq. intros k. rewrite tick_lookup.
    destruct (store !! k) as [report|]; [|reflexivity]. cbn.
    unfold storesSent, delivers. rewrite Hnever. reflexivity.
  - rewrite tick_log. induction (reached e store) as [|[k report] rest IH];
      [reflexivity|].
    cbn [flat_map fst snd]. rewrite IH. unfold outcome. rewrite Hnever. reflexivity.
Qed.

(** The reference computation of the next fire instant answers an instant
    after the one it is given. *)
Lemma firstFire_from (fuel : nat) (x : Cron.Expr) (start m : Z) :
  Cron.firstFire fuel x start = Some m -> start <= m.
Proof.
  revert start. induction fuel as [|fuel IH]; intros start; [discriminate|].
  cbn [Cron.firstFire]. destruct (Cron.fires x start).
  - intros [= <-]. lia.
  - intros Hlater. apply IH in Hlater. lia.
Qed.

Lemma nextFireAfter_later (x : Cron.Expr) (t next : Z) :
  Cron.nextFireAfter x t = Some next -> t < next.
Proof.
  unfold Cron.nextFireAfter.
  destruct (Cron.firstFire _ x _) as [m|] eqn:Hfire; [|discriminate].
  intros [= <-]. apply firstFire_from in Hfire. unfold Cron.msPerMinute in *.
  pose proof (Z.mod_pos_bound t 60000 ltac:(lia)) as Hmod.
  pose proof (Z.div_mod t 60000 ltac:(lia)) as Hdiv. lia.
Qed.

Lemma clockEnv_future (t : Z) (c : string) :
  match nextDates (clockEnv t) c with
  | Some next => now (clockEnv t) < next
  | None => True
  end.
Proof.
  cbn [nextDates now clockEnv]. destruct (Cron.parse c) as [x|]; [|exact I].
  destruct (Cron.nextFireAfter x t) as [next|] eqn:Hnext; [|exact I].
  exact (nextFireAfter_later _ _ _ Hnext).
Qed.

(** C1. The due test of the run is not the rule of the claim. The rule
    makes the never-sent weekly report of Scenario C due at Monday 08:05
    (the fire instant after the epoch is long past). The code asks the cron
    library for the next date of the expression, without telling it
    [lastSent], and wants that date at most [now]. With a library that
    answers the next fire instant after the clock the report is not due and
    the run sends nothing; with a task that has no [nextDates], or a mapper
    instance without [Op], the run throws and sends nothing. In general a
    report is due in a run exactly when it is active, its non-empty
    expression validates, the library answers a date at most [now] and
    [lastSent] is null or before [now]; so no report is ever due in a run
    whose library answers dates after the clock or none. *)
Theorem scenario_C_is_never_due :
  specDue (weeklyReport None) (monday 8 5) = true
  /\ isDue (clockEnv (monday 8 5)) (weeklyReport None) = false
  /\ run (clockEnv (monday 8 5)) (oneReport None) = mkRun (oneReport None) [] false
  /\ run (probelessEnv (monday 8 5)) (oneReport None) = mkRun (oneReport None) [] true
  /\ run (lackingEnv (monday 8 5)) (oneReport None) = mkRun (oneReport None) [] true
  /\ (forall (t : Z) (store : Reports),
        tick (clockEnv t) store = (store, [])
        /\ tick (probelessEnv t) store = (store, [])
        /\ tick (lackingEnv t) store = (store, []))
  /\ (forall (e : Env) (store : Reports),
        (forall c, validate e c = true ->
           match nextDates e c with
           | Some next => now e < next
           | None => True
           end) ->
        tick e store = (store, []) /\ forall report, isDue e report = false)
  /\ (forall (e : Env) (report : CustomReport),
        isDue e report = true
        <-> isActive report = true
            /\ exists s c next,
                 schedule report = Some s /\ cron s = Some c /\ c <> EmptyString
                 /\ validate e c = true
                 /\ nextDates e c = Some next /\ next <= now e
                 /\ (lastSent s = None \/ exists t, lastSent s = Some t /\ t < now e)).
Proof.
  split; [vm_compute; reflexivity|]. split; [vm_compute; reflexivity|].
  split; [vm_compute; reflexivity|]. split; [vm_compute; reflexivity|].
  split; [reflexivity|]. split; [|split].
  - intros t store. split; [|split].
    + apply future_probe_dispatches_nothing. intros c _. apply clockEnv_future.
    + apply future_probe_dispatches_nothing. intros c _. exact I.
    + apply future_probe_dispatches_nothing. intros c _. exact I.
  - apply future_probe_dispatches_nothing.
  - apply isDue_conditions.
Qed.






(** * Further properties of the code *)

(** ** Snapshots *)

Lemma count_disjoint (p q : Task -> bool) (tasks : list Task) :
  (forall task, p task = true -> q task = false) ->
  count p tasks + count q tasks <= Z.of_nat (length tasks).
Proof.
  intros Hpq. unfold count. induction tasks as [|task rest IH]; [reflexivity|].
  cbn [List.filter]. destruct (p task) eqn:Hp.
  - rewrite (Hpq task Hp). cbn [length]. lia.
  - destruct (q task); cbn [length]; lia.
Qed.

Lemma count_all (p : Task -> bool) (tasks : list Task) :
  count p tasks = Z.of_nat (length tasks) <-> Forall (fun task => p task = true) tasks.
Proof.
  unfold count. induction tasks as [|task rest IH].
  - split; [constructor|reflexivity].
  - cbn [List.filter]. pose proof (List.filter_length_le p rest) as Hle.
    destruct (p task) eqn:Hp; cbn [length]; split.
    + intros Hlen. constructor; [exact Hp|]. apply IH. lia.
    + intros Hall. apply Forall_cons in Hall as [_ Hall]. apply IH in Hall. lia.
    + intros Hlen. lia.
    + intros Hall. apply Forall_cons in Hall as [Hhead _]. congruence.
Qed.

Section Snapshots.
Context {num : Type} `{Number num}.

(** X1. The counters of a department snapshot are consistent: none is
    negative, completed and pending tasks together, and completed and
    overdue tasks together, are at most the total (an overdue task is never a
    completed one), and the average completion time is 0 when no task is
    completed. *)
Theorem task_metrics_invariants (tasks : list Task) (clock : Z) :
  let m := calculateTaskMetrics tasks clock in
  ms_totalTasks m = Z.of_nat (length tasks)
  /\ 0 <= ms_completedTasks m
  /\ 0 <= ms_pendingTasks m
  /\ 0 <= ms_overdueTasks m
  /\ ms_completedTasks m + ms_pendingTasks m <= ms_totalTasks m
  /\ ms_completedTasks m + ms_overdueTasks m <= ms_totalTasks m
  /\ (ms_completedTasks m = 0 -> ms_averageCompletionTime m = of_Z 0).
Proof.
  intros m. subst m. cbn [calculateTaskMetrics ms_totalTasks ms_completedTasks
    ms_pendingTasks ms_overdueTasks ms_averageCompletionTime].
  split; [reflexivity|].
  split; [apply count_bounds|]. split; [apply count_bounds|].
  split; [apply count_bounds|]. split; [|split].
  - apply count_disjoint. intros task Hdone. unfold isCompleted in Hdone.
    apply String.eqb_eq in Hdone. rewrite Hdone. reflexivity.
  - apply count_disjoint. intros task Hdone. unfold isOverdue. rewrite Hdone. reflexivity.
  - unfold count. intros Hnone. rewrite Hnone. reflexivity.
Qed.

(** X2. The analytics of a department agree with the other two
    calculators on the same tasks and clock: the department efficiency is
    the productivity score a user with those tasks gets, and the average
    task completion time is the one of the metrics snapshot. The head count
    is the number of users, of whom the active ones are a part. When there
    is no such department the calculation throws. *)
Theorem department_analytics_agrees (users : list bool) (tasks : list Task) (clock : Z) :
  calculateDepartmentAnalytics None tasks clock = None
  /\ exists analytics,
       calculateDepartmentAnalytics (Some users) tasks clock = Some analytics
       /\ da_departmentEfficiency analytics
          = us_productivityScore (calculateUserPerformance tasks clock)
       /\ da_averageTaskCompletionTime analytics
          = ms_averageCompletionTime (calculateTaskMetrics tasks clock)
       /\ da_totalEmployees analytics = Z.of_nat (length users)
       /\ 0 <= da_activeEmployees analytics <= da_totalEmployees analytics.
Proof.
  split; [reflexivity|]. eexists. split; [reflexivity|].
  cbn [da_departmentEfficiency da_averageTaskCompletionTime da_totalEmployees
    da_activeEmployees].
  split; [reflexivity|]. split; [reflexivity|]. split; [reflexivity|].
  pose proof (List.filter_length_le (fun isActive : bool => isActive) users). lia.
Qed.

End Snapshots.

Lemma score_range (completed overdue total : Z) :
  0 <= completed -> 0 <= overdue -> completed + overdue <= total -> 0 < total ->
  (- (50) <= inject_Z completed / inject_Z total * inject_Z 100
             - inject_Z overdue / inject_Z total * inject_Z 50 <= 100)%Q
  /\ ((inject_Z completed / inject_Z total * inject_Z 100
       - inject_Z overdue / inject_Z total * inject_Z 50 == 100)%Q
      <-> completed = total).
Proof.
  intros Hc Ho Hsum Ht. destruct total as [|p|p]; try lia.
  unfold Qle, Qeq, Qminus, Qplus, Qopp, Qdiv, Qmult, Qinv, inject_Z. simpl.
  repeat split; nia.
Qed.

(** X3. Over the rationals the productivity score of any task set lies
    between -50 and 100, and for a user with tasks it is 100 exactly when
    every task is completed. *)
Theorem productivity_score_range (tasks : list Task) (clock : Z) :
  let score := us_productivityScore (calculateUserPerformance (num := Q) tasks clock) in
  (- (50) <= score <= 100)%Q
  /\ (tasks <> [] ->
      ((score == 100)%Q <-> Forall (fun task => isCompleted task = true) tasks)).
Proof.
  intros score. subst score. unfold calculateUserPerformance, us_productivityScore.
  pose proof (count_bounds isCompleted tasks) as Hc.
  pose proof (count_bounds (isOverdue clock) tasks) as Ho.
  assert (Hsum : count isCompleted tasks + count (isOverdue clock) tasks
                 <= Z.of_nat (length tasks)).
  { apply count_disjoint. intros task Hdone. unfold isOverdue. rewrite Hdone. reflexivity. }
  destruct (Z.ltb_spec 0 (Z.of_nat (length tasks))) as [Hpos|Hzero].
  - destruct (score_range _ _ _ (proj1 Hc) (proj1 Ho) Hsum Hpos) as [Hrange Hfull].
    split; [exact Hrange|]. intros _. simpl. rewrite Hfull. apply count_all.
  - split; [split; discriminate|]. intros Hne. destruct tasks; [contradiction|].
    simpl in Hzero. lia.
Qed.

(** ** The daily aggregation *)

Section DailyAggregation.
Context {num : Type} `{Number num}.

Lemma updateUsers_rows (db : Database) (clock today : Z) (users : list string)
    (rows : list (string * UserPerformance.t num)) :
  updateUsers db clock today users rows
  = rows ++ List.map (fun user =>
                        (user, storedUserPerformance
                                 (calculateUserPerformance (db_userTasks db user today) clock)
                                 today)) users.
Proof.
  unfold updateUsers. revert rows. induction users as [|user rest IH]; intros rows.
  - simpl. rewrite app_nil_r. reflexivity.
  - cbn [fold_left List.map]. rewrite IH, <- app_assoc. reflexivity.
Qed.

Lemma tablesAfter_nil (db : Database) (clock : Z) (tables : Tables) :
  tablesAfter db clock [] tables = tables.
Proof.
  destruct tables. unfold tablesAfter. simpl. rewrite !app_nil_r. reflexivity.
Qed.

Lemma tablesAfter_snoc (db : Database) (clock : Z) (department : string)
    (rest : list string) (tables : Tables) :
  tablesAfter db clock rest (tablesAfter db clock [department] tables)
  = tablesAfter db clock (department :: rest) tables.
Proof.
  unfold tablesAfter. cbn [tbl_taskMetrics tbl_departmentAnalytics tbl_userPerformance
    List.map flat_map]. rewrite app_nil_r. f_equal.
  - rewrite <- app_assoc. reflexivity.
  - rewrite <- app_assoc. f_equal.
    change (department :: rest) with ([department] ++ rest).
    rewrite omap_app. reflexivity.
  - rewrite <- app_assoc. reflexivity.
Qed.

(** The loop over departments that are all found goes on from the tables
    they leave. *)
Lemma updateDepartments_found (db : Database) (clock : Z) (found rest : list string)
    (tables : Tables) :
  Forall (fun department => is_Some (db_department db department)) found ->
  updateDepartments db clock (toISODate clock) (found ++ rest) tables
  = updateDepartments db clock (toISODate clock) rest (tablesAfter db clock found tables).
Proof.
  intros Hfound. revert tables.
  induction Hfound as [|department found [users Husers] _ IH]; intros tables.
  - rewrite tablesAfter_nil. reflexivity.
  - cbn [app updateDepartments]. rewrite Husers. cbn [calculateDepartmentAnalytics].
    rewrite <- tablesAfter_snoc, <- IH. f_equal.
    unfold tablesAfter, analyticsRowOf, metricsRowOf, performanceRowsOf.
    cbn [tbl_taskMetrics tbl_departmentAnalytics tbl_userPerformance List.map flat_map
      omap list_omap]. rewrite Husers. cbn [calculateDepartmentAnalytics].
    rewrite updateUsers_rows, app_nil_r. reflexivity.
Qed.

(** X4. One run of the daily aggregation over departments that are all
    found appends, in the order of the departments, one metrics row and one
    analytics row per department and one performance row per user of each
    department, dated today, and leaves the rows already stored as they are.
    It does not replace a row of the same day: a second run with the same
    data appends the same metrics rows again. *)
Theorem daily_aggregation_appends (db : Database) (clock : Z) (tables : Tables) :
  Forall (fun department => is_Some (db_department db department)) (db_departments db) ->
  let once := updateDailyMetrics db clock tables in
  let twice := updateDailyMetrics db clock (fst once) in
  once = (tablesAfter db clock (db_departments db) tables, true)
  /\ length (tbl_departmentAnalytics (fst once))
     = (length (tbl_departmentAnalytics tables) + length (db_departments db))%nat
  /\ tbl_taskMetrics (fst twice)
     = tbl_taskMetrics tables
       ++ List.map (metricsRowOf db clock) (db_departments db)
       ++ List.map (metricsRowOf db clock) (db_departments db).
Proof.
  intros Hfound once twice.
  assert (Hrun : forall start,
            updateDailyMetrics db clock start
            = (tablesAfter db clock (db_departments db) start, true)).
  { intros start. unfold updateDailyMetrics.
    rewrite <- (app_nil_r (db_departments db)) at 1.
    rewrite updateDepartments_found by exact Hfound. reflexivity. }
  subst once twice. rewrite !Hrun. cbn [fst]. split; [reflexivity|]. split.
  - cbn [tablesAfter tbl_departmentAnalytics]. rewrite length_app. f_equal.
    clear Hrun. induction Hfound as [|department found [users Husers] _ IH];
      [reflexivity|].
    cbn [omap list_omap]. unfold analyticsRowOf at 1. rewrite Husers.
    cbn [calculateDepartmentAnalytics length]. f_equal. exact IH.
  - cbn [tablesAfter tbl_taskMetrics]. rewrite <- app_assoc. reflexivity.
Qed.


End DailyAggregation.

(** Two departments, the second with two users, into empty tables. *)
Lemma daily_aggregation_appends_witness :
  length (tbl_departmentAnalytics
            (fst (updateDailyMetrics (num := Q) twoDepartments 1717405200000 noTables)))
  = 2%nat.
Proof.
  assert (Hfound : Forall (fun department => is_Some (db_department twoDepartments department))
                          (db_departments twoDepartments))
    by (repeat constructor; eexists; reflexivity).
  exact (proj1 (proj2 (daily_aggregation_appends (num := Q) twoDepartments 1717405200000 noTables
                         Hfound))).
Defined.


Lemma updateDepartments_consistent (db : Database) (clock today : Z)
    (departments : list string) (tables : Tables (num := Q)) :
  Forall (fun kr => consistentRow (snd kr)) (tbl_taskMetrics tables) ->
  Forall (fun kr => consistentRow (snd kr))
         (tbl_taskMetrics (fst (updateDepartments db clock today departments tables))).
Proof.
  revert tables. induction departments as [|department rest IH]; intros tables Hok;
    [exact Hok|].
  assert (Hnew : Forall (fun kr : string * TaskMetrics.t Q => consistentRow (snd kr))
            (tbl_taskMetrics tables
             ++ [(department,
                  storedTaskMetrics
                    (calculateTaskMetrics (db_departmentTasks db department today) clock)
                    today)])).
  { apply Forall_app. split; [exact Hok|]. constructor; [|constructor].
    unfold consistentRow. simpl. apply count_bounds. }
  cbn [updateDepartments].
  destruct (calculateDepartmentAnalytics _ _ _); [|exact Hnew].
  apply IH. exact Hnew.
Qed.

(** X6. The daily aggregation keeps the metrics table consistent, and so
    keeps the completion rates of the performance trends in range: if every
    stored row counts its completed tasks among its total, then so does
    every row after a run, whether the run ends or stops midway, and over the
    rationals every completion rate [getPerformanceTrends] computes from the
    table lies in [0, 100]. *)
Theorem daily_aggregation_keeps_rates_in_range (db : Database) (clock : Z)
    (tables : Tables (num := Q)) (formatDate : Z -> string) :
  Forall (fun kr => consistentRow (snd kr)) (tbl_taskMetrics tables) ->
  let stored := tbl_taskMetrics (fst (updateDailyMetrics db clock tables)) in
  Forall (fun kr => consistentRow (snd kr)) stored
  /\ Forall (fun entry => (0 <= pt_completionRate entry <= 100)%Q)
            (getPerformanceTrends formatDate (List.map snd stored)).
Proof.
  intros Hok stored.
  assert (Hstored : Forall (fun kr => consistentRow (snd kr)) stored)
    by (apply updateDepartments_consistent; exact Hok).
  split; [exact Hstored|]. unfold getPerformanceTrends.
  induction Hstored as [|[key row] rest Hrow _ IH]; [constructor|].
  cbn [List.map]. constructor; [|exact IH]. cbn [pt_completionRate snd].
  unfold consistentRow in Hrow. cbn [snd] in Hrow.
  destruct (Z.ltb_spec 0 (TaskMetrics.totalTasks row)) as [Hpos|Hzero].
  - apply rate_bounds; assumption.
  - split; discriminate.
Qed.

Lemma daily_aggregation_range_witness :
  Forall (fun entry => (0 <= pt_completionRate entry <= 100)%Q)
         (getPerformanceTrends (fun _ => "2024-06-03")
            (List.map snd
               (tbl_taskMetrics
                  (fst (updateDailyMetrics (num := Q) twoDepartments 1717405200000 noTables))))).
Proof.
  exact (proj2 (daily_aggregation_keeps_rates_in_range twoDepartments 1717405200000
                  noTables (fun _ => "2024-06-03") (Forall_nil_2 _))).
Defined.

(** ** Task distribution *)

Lemma addCount_lookup (acc : gmap string Z) (key' key : string) (count : Z) :
  addCount acc key' count !! key
  = if String.eqb key' key then Some (default 0 (acc !! key) + count) else acc !! key.
Proof.
  unfold addCount. destruct (String.eqb_spec key' key) as [->|Hne].
  - rewrite lookup_insert_eq. destruct (acc !! key) as [n|]; [|reflexivity].
    simpl. destruct (Z.eqb_spec n 0) as [->|_]; reflexivity.
  - apply lookup_insert_ne, Hne.
Qed.

Lemma groupTotal_absent (key : GroupCount -> string) (k : string)
    (groups : list GroupCount) :
  hasGroup key k groups = false -> groupTotal key k groups = 0.
Proof.
  induction groups as [|group rest IH]; [reflexivity|].
  cbn [hasGroup existsb groupTotal fold_right]. intros Hnone.
  apply orb_false_elim in Hnone as [Hhead Hrest]. rewrite Hhead. apply IH, Hrest.
Qed.

Lemma fold_addCount_lookup (key : GroupCount -> string) (groups : list GroupCount)
    (acc : gmap string Z) (k : string) :
  fold_left (fun acc group => addCount acc (key group) (gc_count group)) groups acc !! k
  = if hasGroup key k groups
    then Some (default 0 (acc !! k) + groupTotal key k groups)
    else acc !! k.
Proof.
  revert acc. induction groups as [|group rest IH]; intros acc; [reflexivity|].
  cbn [fold_left]. rewrite IH, addCount_lookup.
  cbn [hasGroup existsb groupTotal fold_right].
  fold (hasGroup key k rest). fold (groupTotal key k rest).
  destruct (String.eqb (key group) k); cbn [orb].
  - destruct (hasGroup key k rest) eqn:Hrest.
    + simpl. f_equal. lia.
    + rewrite (groupTotal_absent _ _ _ Hrest). f_equal. lia.
  - reflexivity.
Qed.

Lemma sumValues_addCount (acc : gmap string Z) (key : string) (count : Z) :
  sumValues (addCount acc key count) = sumValues acc + count.
Proof.
  assert (Hcomm : forall (m : gmap string Z) (j1 j2 : string) (z1 z2 y : Z),
            j1 <> j2 -> m !! j1 = Some z1 -> m !! j2 = Some z2 ->
            z1 + (z2 + y) = z2 + (z1 + y)) by (intros; lia).
  unfold sumValues, addCount. destruct (acc !! key) as [n|] eqn:Hkey.
  - rewrite (map_fold_delete_L _ _ key n acc (Hcomm acc) Hkey).
    rewrite <- (insert_delete_eq acc).
    rewrite map_fold_insert_L; [|apply Hcomm|apply lookup_delete_eq].
    destruct (Z.eqb_spec n 0) as [->|_]; lia.
  - rewrite map_fold_insert_L; [|apply Hcomm|exact Hkey]. lia.
Qed.

Lemma sumValues_fold (key : GroupCount -> string) (groups : list GroupCount)
    (acc : gmap string Z) :
  sumValues (fold_left (fun acc group => addCount acc (key group) (gc_count group))
                       groups acc)
  = sumValues acc + grandTotal groups.
Proof.
  revert acc. induction groups as [|group rest IH]; intros acc.
  - simpl. lia.
  - cbn [fold_left grandTotal fold_right]. rewrite IH, sumValues_addCount.
    fold (grandTotal rest). lia.
Qed.

(** X7. The task distribution accounts for every counted task, whatever
    its status and priority are called: the cell of a status (of a priority)
    is the sum of the counts of the groups with that status (priority), a
    status without a group has no cell, and the cells of either distribution
    add up to the number of tasks counted. *)
Theorem task_distribution_accounts_for_every_task (tasks : list GroupCount) :
  let distribution := getTaskDistribution tasks in
  (forall k, byStatus distribution !! k
             = if hasGroup gc_status k tasks
               then Some (groupTotal gc_status k tasks) else None)
  /\ (forall k, byPriority distribution !! k
                = if hasGroup gc_priority k tasks
                  then Some (groupTotal gc_priority k tasks) else None)
  /\ sumValues (byStatus distribution) = grandTotal tasks
  /\ sumValues (byPriority distribution) = grandTotal tasks.
Proof.
  intros distribution. subst distribution. unfold getTaskDistribution.
  cbn [byStatus byPriority].
  split; [|split; [|split]].
  - intros k. rewrite fold_addCount_lookup, lookup_empty. reflexivity.
  - intros k. rewrite fold_addCount_lookup, lookup_empty. reflexivity.
  - rewrite sumValues_fold. reflexivity.
  - rewrite sumValues_fold. reflexivity.
Qed.

(** ** Department comparison *)

Lemma float_zero_div (y : float) :
  or_zero (num_div (0%float) y) = 0%float.
Proof.
  cbn [or_zero num_div Float_Number].
  rewrite !FloatAxioms.eqb_spec, FloatAxioms.div_spec.
  change (Prim2SF 0) with (SpecFloat.S754_zero false).
  destruct (Prim2SF y) as [s|s| |s m e]; reflexivity.
Qed.

Lemma float_sum_of_zeros (tasks : list Task) :
  fold_left (fun acc (_ : Task) => num_add acc (of_Z (num := float) 0)) tasks
            (of_Z (num := float) 0)
  = 0%float.
Proof.
  change (of_Z (num := float) 0) with 0%float.
  induction tasks as [|task rest IH]; [reflexivity|].
  cbn [fold_left]. change (num_add 0%float 0%float) with 0%float. exact IH.
Qed.

Lemma rational_sum_of_zeros (tasks : list Task) :
  fold_left (fun acc (_ : Task) => num_add acc (of_Z (num := Q) 0)) tasks
            (of_Z (num := Q) 0)
  = 0%Q.
Proof.
  change (of_Z (num := Q) 0) with 0%Q.
  induction tasks as [|task rest IH]; [reflexivity|].
  cbn [fold_left]. change (num_add 0%Q 0%Q) with 0%Q. exact IH.
Qed.

Lemma rational_zero_div (y : Q) : or_zero (num_div 0%Q y) = 0%Q.
Proof.
  cbn [or_zero num_div Q_Number].
  destruct (Qeq_bool (0 / y) 0) eqn:Hz; [reflexivity|].
  exfalso. apply Qeq_bool_neq in Hz. apply Hz. unfold Qdiv. apply Qmult_0_l.
Qed.

(** X8. For tasks that carry neither a [completedAt] nor a
    [productivityScore] attribute, the department comparison reports an
    average completion time and a productivity score of 0 for every
    department, in doubles as over the rationals, and also for a department
    without tasks, where the quotient 0/0 is NaN and [|| 0] turns it into 0.
    The completed tasks it reports are among the total. *)
Theorem department_comparison_averages_are_zero
    (departments : list (string * string * list Task)) :
  Forall (fun entry =>
            dc_averageCompletionTime entry = 0%float
            /\ dc_productivityScore entry = 0%float
            /\ 0 <= dc_completedTasks entry <= dc_totalTasks entry)
         (getDepartmentComparison (num := float) (fun _ => None) (fun _ => None)
            departments)
  /\ Forall (fun entry =>
               dc_averageCompletionTime entry = 0%Q
               /\ dc_productivityScore entry = 0%Q)
            (getDepartmentComparison (num := Q) (fun _ => None) (fun _ => None)
               departments).
Proof.
  unfold getDepartmentComparison. split.
  - induction departments as [|[[id name] tasks] rest IH]; [constructor|].
    cbn [List.map]. constructor; [|exact IH].
    cbn [dc_averageCompletionTime dc_productivityScore dc_completedTasks dc_totalTasks
      fst snd].
    rewrite float_sum_of_zeros, float_zero_div.
    split; [reflexivity|]. split; [reflexivity|]. apply count_bounds.
  - induction departments as [|[[id name] tasks] rest IH]; [constructor|].
    cbn [List.map]. constructor; [|exact IH].
    cbn [dc_averageCompletionTime dc_productivityScore fst snd].
    rewrite rational_sum_of_zeros, rational_zero_div. split; reflexivity.
Qed.

(** ** Runs of the scheduler, one after another *)

Lemma setLastSent_again (report : CustomReport) (t t' : Z) :
  setLastSent (setLastSent report t) t' = setLastSent report t'.
Proof. unfold setLastSent. cbn. destruct (schedule report); reflexivity. Qed.

Lemma lastSentOf_setLastSent (report : CustomReport) (t : Z) :
  is_Some (schedule report) -> lastSentOf (setLastSent report t) = Some t.
Proof. intros [s Hs]. unfold lastSentOf, setLastSent. cbn. rewrite Hs. reflexivity. Qed.

Lemma delivers_advances (e : Env) (k : string) (report : CustomReport) :
  delivers e k report = true ->
  is_Some (schedule report) /\ earlier (lastSentOf report) (Some (now e)).
Proof.
  intros Hdel. apply delivers_due in Hdel as Hdue.
  apply isDue_conditions in Hdue as (_ & s & c & next & Hs & _ & _ & _ & _ & _ & Hlast).
  split; [eauto|]. unfold lastSentOf. rewrite Hs.
  destruct Hlast as [->|(t & -> & Hlt)]; simpl; [exact I|lia].
Qed.

Lemma earlier_trans (a : option Z) (x y : Z) :
  earlier a (Some x) -> x <= y -> earlier a (Some y).
Proof. destruct a; simpl; [lia|trivial]. Qed.

(** What a sequence of runs makes of a stored report: the report itself, or
    the report with [lastSent] set to the clock of one of the runs, which is
    not earlier than the former [lastSent]. *)
Lemma runs_lookup (envs : list Env) (store : Reports) (k : string) :
  (store !! k = None -> fst (runs envs store) !! k = None)
  /\ (forall report, store !! k = Some report ->
        fst (runs envs store) !! k = Some report
        \/ exists e, In e envs
                     /\ fst (runs envs store) !! k = Some (setLastSent report (now e))
                     /\ is_Some (schedule report)
                     /\ earlier (lastSentOf report) (Some (now e))).
Proof.
  revert store. induction envs as [|e rest IH]; intros store.
  - split; [trivial|]. intros report Hk. left. exact Hk.
  - cbn [runs fst]. destruct (IH (fst (tick e store))) as [IHnone IHsome]. split.
    + intros Hk. apply IHnone. rewrite tick_lookup, Hk. reflexivity.
    + intros report Hk.
      assert (Hstep : fst (tick e store) !! k
                      = Some (if storesSent e store k report
                              then setLastSent report (now e) else report))
        by (rewrite tick_lookup, Hk; reflexivity).
      destruct (storesSent e store k report) eqn:Hst.
      * apply storesSent_delivers in Hst as (Hdel & _ & _).
        destruct (delivers_advances _ _ _ Hdel) as [Hsched Hearlier].
        destruct (IHsome _ Hstep) as [Hsame|(e' & Hin & Hafter & _ & Hlater)].
        -- right. exists e. split; [left; reflexivity|]. auto.
        -- right. exists e'. split; [right; exact Hin|].
           rewrite setLastSent_again in Hafter. split; [exact Hafter|].
           split; [exact Hsched|].
           rewrite (lastSentOf_setLastSent _ _ Hsched) in Hlater. simpl in Hlater.
           exact (earlier_trans _ _ _ Hearlier Hlater).
      * destruct (IHsome _ Hstep) as [Hsame|(e' & Hin & Hrest)].
        -- left. exact Hsame.
        -- right. exists e'. split; [right; exact Hin|exact Hrest].
Qed.

(** X9. Over any sequence of runs the scheduler neither adds nor removes a
    report and changes nothing of a stored report but [lastSent]: name, type,
    activity, cron expression, recipient and creator stay as they are.
    [lastSent] never moves backwards, whatever the clocks of the runs are:
    it stays as it was or becomes the clock of one of the runs. *)
Theorem runs_only_advance_last_sent (envs : list Env) (store : Reports) (k : string) :
  (store !! k = None -> fst (runs envs store) !! k = None)
  /\ (forall report, store !! k = Some report ->
        exists after,
          fst (runs envs store) !! k = Some after
          /\ name after = name report
          /\ type after = type report
          /\ isActive after = isActive report
          /\ reportCreator after = reportCreator report
          /\ (cron <$> schedule after) = (cron <$> schedule report)
          /\ (recipientEmail <$> schedule after) = (recipientEmail <$> schedule report)
          /\ earlier (lastSentOf report) (lastSentOf after)
          /\ (after = report
              \/ exists e, In e envs /\ lastSentOf after = Some (now e))).
Proof.
  destruct (runs_lookup envs store k) as [Hnone Hsome]. split; [exact Hnone|].
  intros report Hk. destruct (Hsome report Hk) as [Hsame|(e & Hin & Hafter & Hsched & Hlater)].
  - exists report. repeat split; try reflexivity; try assumption.
    + unfold earlier. destruct (lastSentOf report); [lia|exact I].
    + left. reflexivity.
  - exists (setLastSent report (now e)). split; [exact Hafter|].
    rewrite (lastSentOf_setLastSent _ _ Hsched).
    destruct Hsched as [s Hs]. unfold setLastSent. cbn. rewrite Hs. cbn.
    repeat split; try reflexivity; try assumption.
    right. exists e. split; [exact Hin|reflexivity].
Qed.

Lemma unscheduled_never_due (e : Env) (report : CustomReport) :
  unscheduled report -> isDue e report = false.
Proof.
  unfold isDue. intros [Hinactive|[Hnone|(s & Hs & [Hcron|Hcron])]].
  - rewrite Hinactive. reflexivity.
  - rewrite Hnone. apply andb_false_r.
  - rewrite Hs, Hcron. apply andb_false_r.
  - rewrite Hs, Hcron. apply andb_false_r.
Qed.

(** X10. A report that is inactive, has no schedule, or has a schedule
    without a cron expression (absent or empty) is out of the scheduler's
    reach: over any sequence of runs it stays exactly as stored and no run
    logs anything about it, whatever the cron library and the collaborators
    answer. *)
Theorem unscheduled_reports_are_never_touched (envs : list Env) (store : Reports)
    (k : string) (report : CustomReport) :
  store !! k = Some report ->
  unscheduled report ->
  fst (runs envs store) !! k = Some report
  /\ forall ev, In ev (snd (runs envs store)) -> eventId ev <> k.
Proof.
  intros Hk Hun. revert store Hk. induction envs as [|e rest IH]; intros store Hk.
  - split; [exact Hk|]. intros ev [].
  - cbn [runs fst snd].
    assert (Hstep : fst (tick e store) !! k = Some report).
    { rewrite tick_lookup, Hk. cbn. unfold storesSent, delivers.
      rewrite (unscheduled_never_due e report Hun). reflexivity. }
    destruct (IH _ Hstep) as [Hafter Hquiet]. split; [exact Hafter|].
    intros ev Hin Hid. apply in_app_or in Hin as [Hin|Hin].
    + apply (tick_event_origin _ _ _ _ _ Hk) in Hin; [|exact Hid].
      unfold outcome in Hin. rewrite (unscheduled_never_due e report Hun) in Hin.
      contradiction.
    + exact (Hquiet ev Hin Hid).
Qed.

(** An inactive weekly report over two runs in which everything succeeds. *)
Lemma unscheduled_reports_witness :
  fst (runs [answeringEnv (monday 9 0) (monday 8 0);
             answeringEnv (monday 10 0) (monday 8 0)]
            {["RPT-20240601-00002" :=
                mkCustomReport "Paused" "task" "{}" false
                  (Some (mkSchedule (Some weekly) None None))
                  (Some "owner@example.com")]})
    !! "RPT-20240601-00002"
  = Some (mkCustomReport "Paused" "task" "{}" false
            (Some (mkSchedule (Some weekly) None None))
            (Some "owner@example.com")).
Proof.
  exact (proj1 (unscheduled_reports_are_never_touched
                  [answeringEnv (monday 9 0) (monday 8 0);
                   answeringEnv (monday 10 0) (monday 8 0)]
                  {["RPT-20240601-00002" :=
                      mkCustomReport "Paused" "task" "{}" false
                        (Some (mkSchedule (Some weekly) None None))
                        (Some "owner@example.com")]}
                  "RPT-20240601-00002" _ eq_refl (or_introl eq_refl))).
Defined.

(** ** Who is mailed *)

Lemma isDue_setRecipient (e : Env) (recipient : option string) (report : CustomReport) :
  isDue e (setRecipient recipient report) = isDue e report.
Proof. unfold isDue, setRecipient. cbn. destruct (schedule report); reflexivity. Qed.

Lemma throwsOn_setRecipient (e : Env) (recipient : option string) (report : CustomReport) :
  throwsOn e (setRecipient recipient report) = throwsOn e report.
Proof. unfold throwsOn, setRecipient. cbn. destruct (schedule report); reflexivity. Qed.

Lemma outcome_setRecipient (e : Env) (k : string) (recipient : option string)
    (report : CustomReport) :
  outcome e k (setRecipient recipient report) = outcome e k report.
Proof. unfold outcome. rewrite isDue_setRecipient. reflexivity. Qed.

Lemma delivers_setRecipient (e : Env) (k : string) (recipient : option string)
    (report : CustomReport) :
  delivers e k (setRecipient recipient report) = delivers e k report.
Proof. unfold delivers. rewrite isDue_setRecipient. reflexivity. Qed.

Lemma setLastSent_setRecipient (recipient : option string) (report : CustomReport) (t : Z) :
  setLastSent (setRecipient recipient report) t
  = setRecipient recipient (setLastSent report t).
Proof. unfold setLastSent, setRecipient. cbn. destruct (schedule report); reflexivity. Qed.

Lemma findScheduled_setRecipient (recipient : option string) (store : Reports) :
  findScheduled (setRecipient recipient <$> store)
  = prod_map id (setRecipient recipient) <$> findScheduled store.
Proof.
  unfold findScheduled. rewrite map_to_list_fmap.
  induction (map_to_list store) as [|[k report] rest IH]; [reflexivity|].
  rewrite fmap_cons, !filter_cons, IH. cbn [prod_map fst snd id].
  assert (Hsame : isActive (setRecipient recipient report) = true
                  /\ is_Some (schedule (setRecipient recipient report))
                  <-> isActive report = true /\ is_Some (schedule report)).
  { unfold setRecipient. cbn. destruct (schedule report); [|tauto].
    split; intros [Ha _]; (split; [exact Ha|eauto]). }
  destruct (decide (isActive (setRecipient recipient report) = true
                    /\ is_Some (schedule (setRecipient recipient report))))
    as [Hyes|Hno];
    destruct (decide (isActive report = true /\ is_Some (schedule report)))
      as [Hyes'|Hno']; try reflexivity; tauto.
Qed.

Lemma reached_setRecipient (e : Env) (recipient : option string) (store : Reports) :
  reached e (setRecipient recipient <$> store)
  = prod_map id (setRecipient recipient) <$> reached e store.
Proof.
  unfold reached. destruct (findAllAnswers e); [|reflexivity].
  rewrite findScheduled_setRecipient.
  induction (findScheduled store) as [|[k report] rest IH]; [reflexivity|].
  rewrite fmap_cons. cbn [upToThrow prod_map fst snd id].
  rewrite throwsOn_setRecipient. destruct (throwsOn e report); [reflexivity|].
  rewrite fmap_cons, IH. reflexivity.
Qed.

(** X11. The scheduler never reads [schedule.recipientEmail]: storing
    another recipient in every schedule changes neither what a run logs nor
    what it writes to [lastSent], and every report a run sends goes to the
    e-mail address of the report's creator. *)
Theorem recipient_email_is_never_read (e : Env) (store : Reports)
    (recipient : option string) :
  tick e (setRecipient recipient <$> store)
  = (setRecipient recipient <$> fst (tick e store), snd (tick e store))
  /\ forall k to, In (Sent k to) (snd (tick e store)) ->
       exists report, store !! k = Some report /\ reportCreator report = Some to.
Proof.
  split.
  - rewrite (surjective_pairing (tick e (setRecipient recipient <$> store))). f_equal.
    + apply map_eq. intros k. rewrite tick_lookup, !lookup_fmap, tick_lookup.
      destruct (store !! k) as [report|]; [|reflexivity]. cbn.
      unfold storesSent. rewrite delivers_setRecipient, reached_setRecipient.
      rewrite <- list_fmap_compose.
      replace (fst ∘ prod_map id (setRecipient recipient))
        with (fst : string * CustomReport -> string) by reflexivity.
      destruct (delivers e k report && updateWrites e && _);
        [rewrite setLastSent_setRecipient|]; reflexivity.
    + rewrite !tick_log, reached_setRecipient.
      induction (reached e store) as [|[k report] rest IH]; [reflexivity|].
      rewrite fmap_cons. cbn [flat_map prod_map fst snd id].
      rewrite IH, outcome_setRecipient. reflexivity.
  - intros k to Hin. rewrite tick_log in Hin.
    apply in_flat_map in Hin as ([k' report] & Hfound & Hev). cbn [fst snd] in Hev.
    apply outcome_ids in Hev as Hid. cbn [eventId] in Hid. subst k'.
    apply list_elem_of_In, elem_of_reached in Hfound as (Hk & _).
    exists report. split; [exact Hk|].
    unfold outcome in Hev. destruct (isDue e report); [|contradiction].
    destruct (generateCustomReport e k); [|destruct Hev as [Hev|[]]; discriminate].
    destruct (reportCreator report) as [email|];
      [|destruct Hev as [Hev|[]]; discriminate].
    destruct (sendMail e email _ _); destruct Hev as [Hev|[]]; [|discriminate].
    injection Hev as <-. reflexivity.
Qed.

(** ** The report routes *)

Lemma adminOnly_admin (req : Auth.Request) (error : string) :
  isAdmin req -> AnalyticsController.adminOnly req error = None.
Proof. unfold isAdmin, AnalyticsController.adminOnly. intros ->. reflexivity. Qed.

Lemma adminOnly_other (req : Auth.Request) (role error : string) :
  Auth.req_role req = Some role -> role <> "admin" ->
  AnalyticsController.adminOnly req error = Some (Auth.mkResponse 403 (Auth.ErrorBody error)).
Proof.
  unfold AnalyticsController.adminOnly. intros -> Hrole.
  apply String.eqb_neq in Hrole. rewrite Hrole. reflexivity.
Qed.

Lemma authorizeRole_admin (req : Auth.Request) :
  isAdmin req ->
  Auth.authorizeRole AnalyticsController.reportRoles req = None
  /\ Auth.authorizeRole ["admin"] req = None.
Proof. unfold isAdmin, Auth.authorizeRole. intros ->. split; reflexivity. Qed.

Lemma validationFailed_status (req : Auth.Request) (response : Auth.Response) :
  AnalyticsController.validationFailed req = Some response ->
  Auth.status response = 400 /\ Auth.req_errors req <> [].
Proof.
  unfold AnalyticsController.validationFailed.
  destruct (Auth.req_errors req); [discriminate|].
  intros [= <-]. split; [reflexivity|discriminate].
Qed.

(** X13. Only administrators reach the custom reports. The routes let
    administrators and department heads through (the schedule route
    administrators only), but every handler refuses a role other than
    'admin': whoever is not an administrator leaves the stored reports as
    they are and is answered 401 (no user), 403, or 400 when the validators
    found errors; a department head whose request is valid passes
    [authorizeRole] on the four routes open to department heads and is then
    answered 403 by the handler. *)
Theorem only_administrators_reach_reports (gen : ReportService.Generators)
    (store : Reports) (req : Auth.Request) (call : ReportCall) :
  (isAdmin req
   \/ (fst (serve gen store req call) = store
       /\ (Auth.status (snd (serve gen store req call)) = 401
             /\ Auth.req_role req = None
           \/ Auth.status (snd (serve gen store req call)) = 403
           \/ Auth.status (snd (serve gen store req call)) = 400
                /\ Auth.req_errors req <> [])))
  /\ (Auth.req_role req = Some "department_head" -> Auth.req_errors req = [] ->
      Auth.authorizeRole AnalyticsController.reportRoles req = None
      /\ Auth.status (snd (serve gen store req call)) = 403).
Proof.
  split.
  - destruct (Auth.req_role req) as [role|] eqn:Hrole.
    + destruct (decide (role = "admin")) as [->|Hother]; [left; exact Hrole|].
      right.
      assert (Hadmin := fun error => adminOnly_other req role error Hrole Hother).
      destruct call; cbn [serve];
        unfold AnalyticsController.routeGetReport, AnalyticsController.routeListReports,
          AnalyticsController.routeUpdateReport, AnalyticsController.routeDeleteReport,
          AnalyticsController.routeUpdateSchedule,
          AnalyticsController.getCustomReport, AnalyticsController.listCustomReports,
          AnalyticsController.updateCustomReport, AnalyticsController.deleteCustomReport,
          AnalyticsController.updateCustomReportSchedule;
        (destruct (Auth.authorizeRole _ req) as [response|] eqn:Hauth;
         [unfold Auth.authorizeRole in Hauth; rewrite Hrole in Hauth;
          destruct (negb _); [|discriminate]; injection Hauth as <-;
          split; [reflexivity|right; left; reflexivity]|]);
        try (destruct (AnalyticsController.validationFailed req) as [response|] eqn:Hval;
             [apply validationFailed_status in Hval as [Hstatus Herrors];
              split; [reflexivity|right; right; split; assumption]|]);
        rewrite Hadmin; (split; [reflexivity|right; left; reflexivity]).
    + right.
      destruct call; cbn [serve];
        unfold AnalyticsController.routeGetReport, AnalyticsController.routeListReports,
          AnalyticsController.routeUpdateReport, AnalyticsController.routeDeleteReport,
          AnalyticsController.routeUpdateSchedule, Auth.authorizeRole;
        rewrite Hrole; (split; [reflexivity|left; split; reflexivity]).
  - intros Hrole Hvalid.
    split; [unfold Auth.authorizeRole; rewrite Hrole; reflexivity|].
    assert (Hadmin := fun error =>
      adminOnly_other req "department_head" error Hrole ltac:(discriminate)).
    destruct call; cbn [serve];
      unfold AnalyticsController.routeGetReport, AnalyticsController.routeListReports,
        AnalyticsController.routeUpdateReport, AnalyticsController.routeDeleteReport,
        AnalyticsController.routeUpdateSchedule,
        AnalyticsController.getCustomReport, AnalyticsController.listCustomReports,
        AnalyticsController.updateCustomReport, AnalyticsController.deleteCustomReport,
        AnalyticsController.updateCustomReportSchedule,
        AnalyticsController.validationFailed, Auth.authorizeRole;
      rewrite Hrole, ?Hvalid; cbn; rewrite ?Hvalid, ?Hadmin; reflexivity.
Qed.

(** X14. A successful schedule update stores [{ cron, recipientEmail }]
    and with it forgets when the report was last sent: the other fields of
    the report and all other reports stay, [lastSent] is gone, and from then
    on the report is due in a run exactly when it is active, the expression
    is not empty and validates, and the library's next date is not after the
    clock, whenever it was sent before. *)
Theorem schedule_update_forgets_last_sent (store : Reports) (req : Auth.Request)
    (cron recipientEmail : string) (report : CustomReport) :
  isAdmin req -> Auth.req_errors req = [] ->
  store !! Auth.req_reportId req = Some report ->
  let after := fst (AnalyticsController.routeUpdateSchedule store req cron recipientEmail) in
  Auth.status (snd (AnalyticsController.routeUpdateSchedule store req cron recipientEmail))
  = 200
  /\ (exists updated,
        after !! Auth.req_reportId req = Some updated
        /\ lastSentOf updated = None
        /\ schedule updated = Some (mkSchedule (Some cron) (Some recipientEmail) None)
        /\ name updated = name report
        /\ type updated = type report
        /\ isActive updated = isActive report
        /\ reportCreator updated = reportCreator report
        /\ forall e,
             isDue e updated
             = isActive report && negb (String.eqb cron EmptyString)
               && validate e cron
               && match nextDates e cron with
                  | Some next => next <=? now e
                  | None => false
                  end)
  /\ forall k, k <> Auth.req_reportId req -> after !! k = store !! k.
Proof.
  intros Hadmin Hvalid Hk after. subst after.
  unfold AnalyticsController.routeUpdateSchedule,
    AnalyticsController.updateCustomReportSchedule, AnalyticsController.validationFailed.
  rewrite (proj2 (authorizeRole_admin req Hadmin)), Hvalid, (adminOnly_admin req _ Hadmin), Hk.
  cbn [fst snd Auth.status].
  split; [reflexivity|]. split.
  - exists (AnalyticsController.newSchedule report cron recipientEmail).
    rewrite lookup_insert_eq.
    repeat (split; [reflexivity|]).
    intros e. unfold isDue, shouldSend. cbn.
    destruct (validate e cron); [|rewrite !andb_false_r; reflexivity].
    destruct (nextDates e cron) as [next|]; [|rewrite !andb_false_r; reflexivity].
    rewrite !andb_true_r, !andb_assoc. reflexivity.
  - intros k Hother. rewrite lookup_insert_ne by congruence. reflexivity.
Qed.

(** The weekly report sent at Monday 08:05 is not due at 08:05 again; after
    the schedule is stored anew it is. *)
Lemma schedule_update_witness :
  isDue (answeringEnv (monday 8 5) (monday 8 0)) (weeklyReport (Some (monday 8 5))) = false
  /\ exists updated,
       fst (AnalyticsController.routeUpdateSchedule (oneReport (Some (monday 8 5)))
              (adminRequest "RPT-20240601-00001") weekly "lead@example.com")
         !! "RPT-20240601-00001" = Some updated
       /\ isDue (answeringEnv (monday 8 5) (monday 8 0)) updated = true.
Proof.
  split; [vm_compute; reflexivity|].
  destruct (schedule_update_forgets_last_sent (oneReport (Some (monday 8 5)))
              (adminRequest "RPT-20240601-00001") weekly "lead@example.com"
              (weeklyReport (Some (monday 8 5))) eq_refl eq_refl eq_refl)
    as (_ & (updated & Hstored & _ & _ & _ & _ & _ & _ & Hdue) & _).
  exists updated. split; [exact Hstored|].
  rewrite Hdue. vm_compute. reflexivity.
Defined.

(** X15. A report that is not stored. For an administrator's valid request
    the update, delete and schedule routes answer 404 'Report not found',
    while the read route answers 500: the service's 'Report not found' is
    thrown and caught as an internal error. Nothing is stored. *)
Theorem missing_report_answers (gen : ReportService.Generators) (store : Reports)
    (req : Auth.Request) (update : AnalyticsController.ReportUpdate)
    (cron recipientEmail : string) :
  isAdmin req -> Auth.req_errors req = [] ->
  store !! Auth.req_reportId req = None ->
  serve gen store req GetReport = (store, AnalyticsController.internalError)
  /\ serve gen store req (UpdateReport update)
     = (store, Auth.mkResponse 404 (Auth.ErrorBody "Report not found"))
  /\ serve gen store req DeleteReport
     = (store, Auth.mkResponse 404 (Auth.ErrorBody "Report not found"))
  /\ serve gen store req (UpdateSchedule cron recipientEmail)
     = (store, Auth.mkResponse 404 (Auth.ErrorBody "Report not found")).
Proof.
  intros Hadmin Hvalid Hmissing.
  destruct (authorizeRole_admin req Hadmin) as [Hroute Hschedule].
  cbn [serve].
  unfold AnalyticsController.routeGetReport, AnalyticsController.routeUpdateReport,
    AnalyticsController.routeDeleteReport, AnalyticsController.routeUpdateSchedule,
    AnalyticsController.getCustomReport, AnalyticsController.updateCustomReport,
    AnalyticsController.deleteCustomReport, AnalyticsController.updateCustomReportSchedule,
    AnalyticsController.validationFailed, ReportService.generateCustomReport.
  rewrite Hroute, Hschedule, Hvalid, !(adminOnly_admin req _ Hadmin), Hmissing.
  repeat split; reflexivity.
Qed.

Lemma missing_report_witness :
  Auth.status (snd (serve noGenerators (oneReport None)
                      (adminRequest "RPT-20240601-00009") GetReport)) = 500
  /\ Auth.status (snd (serve noGenerators (oneReport None)
                         (adminRequest "RPT-20240601-00009") DeleteReport)) = 404.
Proof.
  destruct (missing_report_answers noGenerators (oneReport None)
              (adminRequest "RPT-20240601-00009")
              (AnalyticsController.mkReportUpdate None None None None) weekly "lead@example.com"
              eq_refl eq_refl eq_refl) as (Hget & _ & Hdelete & _).
  rewrite Hget, Hdelete. split; reflexivity.
Defined.

(** X16. Deleting a report. The delete route never looks at the validation
    result: an administrator's request deletes the stored report whatever
    the validators found, where the read, update and schedule routes answer
    400 and change nothing. After the deletion the report is gone, the other
    reports stay, a second deletion answers 404, and no later run of the
    scheduler logs anything about it. *)
Theorem delete_ignores_validation (gen : ReportService.Generators) (store : Reports)
    (req : Auth.Request) (report : CustomReport) :
  isAdmin req -> store !! Auth.req_reportId req = Some report ->
  let after := fst (serve gen store req DeleteReport) in
  Auth.status (snd (serve gen store req DeleteReport)) = 200
  /\ after = delete (Auth.req_reportId req) store
  /\ after !! Auth.req_reportId req = None
  /\ (forall k, k <> Auth.req_reportId req -> after !! k = store !! k)
  /\ serve gen after req DeleteReport
     = (after, Auth.mkResponse 404 (Auth.ErrorBody "Report not found"))
  /\ (forall e ev, In ev (snd (tick e after)) -> eventId ev <> Auth.req_reportId req)
  /\ (Auth.req_errors req <> [] ->
      forall call, call = GetReport \/ (exists update, call = UpdateReport update)
                   \/ (exists cron recipientEmail, call = UpdateSchedule cron recipientEmail) ->
        serve gen store req call
        = (store, Auth.mkResponse 400 (Auth.ErrorsBody (Auth.req_errors req)))).
Proof.
  intros Hadmin Hk after.
  destruct (authorizeRole_admin req Hadmin) as [Hroute Hschedule].
  assert (Hdelete : serve gen store req DeleteReport
                    = (delete (Auth.req_reportId req) store,
                       Auth.mkResponse 200 (Auth.MessageBody "Report deleted successfully"))).
  { cbn [serve].
    unfold AnalyticsController.routeDeleteReport, AnalyticsController.deleteCustomReport.
    rewrite Hroute, (adminOnly_admin req _ Hadmin), Hk. reflexivity. }
  subst after. rewrite Hdelete. cbn [fst snd Auth.status].
  split; [reflexivity|]. split; [reflexivity|].
  split; [apply lookup_delete_eq|].
  split; [intros k Hother; apply lookup_delete_ne; congruence|].
  split.
  { cbn [serve].
    unfold AnalyticsController.routeDeleteReport, AnalyticsController.deleteCustomReport.
    rewrite Hroute, (adminOnly_admin req _ Hadmin), lookup_delete_eq. reflexivity. }
  split.
  { intros e ev Hin Hid. rewrite tick_log in Hin.
    apply in_flat_map in Hin as ([k found] & Hfound & Hev). cbn [fst snd] in Hev.
    apply outcome_ids in Hev. rewrite Hid in Hev. subst k.
    apply list_elem_of_In, elem_of_reached in Hfound as (Hfound & _).
    rewrite lookup_delete_eq in Hfound. discriminate. }
  intros Herrors call Hcall.
  destruct (Auth.req_errors req) as [|err errs] eqn:Hreq; [contradiction|].
  destruct Hcall as [-> | [[update ->] | (cron & recipientEmail & ->)]]; cbn [serve];
    unfold AnalyticsController.routeGetReport, AnalyticsController.routeUpdateReport,
      AnalyticsController.routeUpdateSchedule,
      AnalyticsController.getCustomReport, AnalyticsController.updateCustomReport,
      AnalyticsController.updateCustomReportSchedule,
      AnalyticsController.validationFailed;
    rewrite ?Hroute, ?Hschedule, Hreq; reflexivity.
Qed.

(** An administrator's delete request with a malformed identifier error
    attached still deletes the weekly report. *)
Lemma delete_ignores_validation_witness :
  fst (serve noGenerators (oneReport None)
         (Auth.mkRequest (Some "admin") ["Report ID must be a string"] "RPT-20240601-00001")
         DeleteReport) = delete "RPT-20240601-00001" (oneReport None)
  /\ Auth.status
       (snd (serve noGenerators (oneReport None)
               (Auth.mkRequest (Some "admin") ["Report ID must be a string"]
                  "RPT-20240601-00001") GetReport)) = 400.
Proof.
  destruct (delete_ignores_validation noGenerators (oneReport None)
              (Auth.mkRequest (Some "admin") ["Report ID must be a string"]
                 "RPT-20240601-00001")
              (weeklyReport None) eq_refl eq_refl)
    as (_ & Hafter & _ & _ & _ & _ & Hrefused).
  split; [exact Hafter|].
  rewrite (Hrefused ltac:(discriminate) GetReport (or_introl eq_refl)). reflexivity.
Defined.

(** ** Anomalies of a growing series *)

Lemma adjacentPairs_cons {A : Type} (a b : A) (rest : list A) :
  adjacentPairs (a :: b :: rest) = (a, b) :: adjacentPairs (b :: rest).
Proof. reflexivity. Qed.

Lemma adjacentPairs_split {A : Type} (before : list A) (x : A) (after : list A) :
  adjacentPairs (before ++ x :: after)
  = adjacentPairs (before ++ [x]) ++ adjacentPairs (x :: after).
Proof.
  induction before as [|a [|b before] IH]; [reflexivity| |].
  - destruct after; reflexivity.
  - change (adjacentPairs (a :: b :: (before ++ x :: after))
            = adjacentPairs (a :: b :: (before ++ [x])) ++ adjacentPairs (x :: after)).
    rewrite !adjacentPairs_cons. cbn [app]. f_equal. exact IH.
Qed.

Lemma adjacentPairs_curr {A : Type} (series : list A) (prev curr : A) :
  In (prev, curr) (adjacentPairs series) -> In curr (tail series).
Proof.
  induction series as [|a [|b rest] IH]; [intros []|intros []|].
  rewrite adjacentPairs_cons. intros [[= _ <-]|Hin]; [left; reflexivity|].
  right. exact (IH Hin).
Qed.

Section GrowingSeries.
Context {num : Type} `{Number num}.
Context {row : Type} (rowDate : row -> Z).
Context (metric1 : row -> Z) (type1 label1 : string).
Context (metric2 : row -> Z) (type2 label2 : string).

Local Abbreviation scan := (scanAnomalies rowDate metric1 type1 label1 metric2 type2 label2).
Local Abbreviation body := (scanBody rowDate metric1 type1 label1 metric2 type2 label2).

Lemma scanAnomalies_split (before : list row) (x : row) (after : list row) :
  scan (Some (before ++ x :: after))
  = scan (Some (before ++ [x])) ++ scan (Some (x :: after)).
Proof. rewrite !scanAnomalies_pairs, adjacentPairs_split. apply flat_map_app. Qed.

Lemma scanBody_records (prev curr : row) (anomaly : Anomaly) :
  In anomaly (body prev curr []) ->
  anomaly_date anomaly = rowDate curr
  /\ (anomaly_type anomaly = type1 \/ anomaly_type anomaly = type2).
Proof.
  unfold scanBody.
  destruct (significantChange (metric1 prev) (metric1 curr));
    destruct (significantChange (metric2 prev) (metric2 curr)); cbn [app In];
    intros Hin; repeat destruct Hin as [<-|Hin]; try contradiction; cbn; auto.
Qed.

Lemma scanBody_length (prev curr : row) : (length (body prev curr []) <= 2)%nat.
Proof.
  unfold scanBody.
  destruct (significantChange (metric1 prev) (metric1 curr));
    destruct (significantChange (metric2 prev) (metric2 curr)); cbn; lia.
Qed.

Lemma scanAnomalies_records (series : list row) (anomaly : Anomaly) :
  In anomaly (scan (Some series)) ->
  exists curr, In curr (tail series)
    /\ anomaly_date anomaly = rowDate curr
    /\ (anomaly_type anomaly = type1 \/ anomaly_type anomaly = type2).
Proof.
  rewrite scanAnomalies_pairs. intros Hin.
  apply in_flat_map in Hin as ([prev curr] & Hpair & Hin). cbn [fst snd] in Hin.
  exists curr. split; [exact (adjacentPairs_curr _ _ _ Hpair)|].
  exact (scanBody_records _ _ _ Hin).
Qed.

Lemma scanAnomalies_length (series : list row) :
  (length (scan (Some series)) <= 2 * (length series - 1))%nat.
Proof.
  rewrite scanAnomalies_pairs, <- (adjacentPairs_length series).
  induction (adjacentPairs series) as [|[prev curr] pairs IH]; [cbn; lia|].
  cbn [flat_map fst snd length]. rewrite length_app.
  pose proof (scanBody_length prev curr). lia.
Qed.

End GrowingSeries.

Section Anomalies.
Context {num : Type} `{Number num}.

(** X17. Anomaly detection looks at neighbours only. In either number
    model, the anomalies of a series cut at any snapshot are those up to the
    snapshot followed by those from it on, so a new daily snapshot appends
    the findings of the last pair of days and changes none of the earlier
    ones. A series of n snapshots yields at most 2 (n - 1) anomalies; each
    carries the date of a snapshot after the first and one of the two metric
    names. The same holds for a user's performance series. *)
Theorem anomalies_are_local
    (before : list (TaskMetrics.t num)) (day : TaskMetrics.t num)
    (after : list (TaskMetrics.t num))
    (ubefore : list (UserPerformance.t num)) (uday : UserPerformance.t num)
    (uafter : list (UserPerformance.t num)) :
  let metrics := before ++ day :: after in
  let performance := ubefore ++ uday :: uafter in
  detectTaskAnomalies (Some metrics)
  = detectTaskAnomalies (Some (before ++ [day])) ++ detectTaskAnomalies (Some (day :: after))
  /\ detectUserActivityAnomalies (Some performance)
     = detectUserActivityAnomalies (Some (ubefore ++ [uday]))
       ++ detectUserActivityAnomalies (Some (uday :: uafter))
  /\ (forall next, detectTaskAnomalies (Some (before ++ [day; next]))
                   = detectTaskAnomalies (Some (before ++ [day]))
                     ++ detectTaskAnomalies (Some [day; next]))
  /\ Nat.le (length (detectTaskAnomalies (Some metrics))) (2 * (length metrics - 1))
  /\ Nat.le (length (detectUserActivityAnomalies (Some performance)))
            (2 * (length performance - 1))
  /\ (forall anomaly, In anomaly (detectTaskAnomalies (Some metrics)) ->
        exists curr, In curr (tail metrics)
          /\ anomaly_date anomaly = TaskMetrics.date curr
          /\ (anomaly_type anomaly = "completedTasks"
              \/ anomaly_type anomaly = "overdueTasks"))
  /\ (forall anomaly, In anomaly (detectUserActivityAnomalies (Some performance)) ->
        exists curr, In curr (tail performance)
          /\ anomaly_date anomaly = UserPerformance.date curr
          /\ (anomaly_type anomaly = "tasksCompleted"
              \/ anomaly_type anomaly = "tasksOverdue")).
Proof.
  intros metrics performance.
  unfold detectTaskAnomalies, detectUserActivityAnomalies.
  split; [apply scanAnomalies_split|].
  split; [apply scanAnomalies_split|].
  split; [intros next; apply scanAnomalies_split|].
  split; [apply scanAnomalies_length|].
  split; [apply scanAnomalies_length|].
  split; intros anomaly; apply scanAnomalies_records.
Qed.

End Anomalies.

(** ** Forecast and trend *)

Lemma Qfloor_half (z : Z) : Qfloor (inject_Z z + (1 # 2)) = z.
Proof.
  apply Z.le_antisymm.
  - apply Z.lt_succ_r. rewrite Zlt_Qlt.
    apply Qle_lt_trans with (inject_Z z + (1 # 2))%Q; [apply Qfloor_le|].
    unfold Qlt, Qplus, inject_Z. simpl. lia.
  - rewrite <- (Qfloor_Z z) at 1. apply Qfloor_resp_le.
    unfold Qle, Qplus, inject_Z. simpl. lia.
Qed.

Lemma extrapolated_start (first last n : Z) :
  extrapolated (num := Q) (inject_Z first) (inject_Z last) n 0 = last.
Proof.
  unfold extrapolated. cbn [Math_round num_add num_mul num_div num_sub of_Z Q_Number].
  transitivity (Qfloor (inject_Z last + (1 # 2))); [|apply Qfloor_half].
  apply Qfloor_comp. change (inject_Z 0) with 0%Q. ring.
Qed.

Lemma step_sign (first last n : Z) :
  2 <= n ->
  (first <= last -> (0 <= (inject_Z last - inject_Z first) / inject_Z (n - 1))%Q)
  /\ (last <= first -> ((inject_Z last - inject_Z first) / inject_Z (n - 1) <= 0)%Q).
Proof.
  intros Hn.
  assert (Hpos : (0 < inject_Z (n - 1))%Q) by (rewrite <- (Zlt_Qlt 0); lia).
  split; intros Hle.
  - apply Qle_shift_div_l; [exact Hpos|]. rewrite Qmult_0_l.
    unfold Qle, Qminus, Qplus, Qopp, inject_Z. simpl. lia.
  - apply Qle_shift_div_r; [exact Hpos|]. rewrite Qmult_0_l.
    unfold Qle, Qminus, Qplus, Qopp, inject_Z. simpl. lia.
Qed.

Lemma extrapolated_rising (first last n i j : Z) :
  2 <= n -> first <= last -> i <= j ->
  extrapolated (num := Q) (inject_Z first) (inject_Z last) n i
  <= extrapolated (num := Q) (inject_Z first) (inject_Z last) n j.
Proof.
  intros Hn Hle Hij. unfold extrapolated.
  cbn [Math_round num_add num_mul num_div num_sub of_Z Q_Number].
  apply Qfloor_resp_le. apply Qplus_le_l. apply Qplus_le_r.
  rewrite !(Qmult_comm (_ / _)).
  apply Qmult_le_compat_r; [rewrite <- Zle_Qle; exact Hij|].
  exact (proj1 (step_sign first last n Hn) Hle).
Qed.

Lemma extrapolated_falling (first last n i j : Z) :
  2 <= n -> last <= first -> i <= j ->
  extrapolated (num := Q) (inject_Z first) (inject_Z last) n j
  <= extrapolated (num := Q) (inject_Z first) (inject_Z last) n i.
Proof.
  intros Hn Hle Hij. unfold extrapolated.
  cbn [Math_round num_add num_mul num_div num_sub of_Z Q_Number].
  apply Qfloor_resp_le. apply Qplus_le_l. apply Qplus_le_r.
  pose proof (proj2 (step_sign first last n Hn) Hle) as Hstep.
  set (step := ((inject_Z last - inject_Z first) / inject_Z (n - 1))%Q) in *.
  apply Qopp_le_compat in Hstep. change (- 0)%Q with 0%Q in Hstep.
  apply Qle_minus_iff.
  assert (Hdiff : (step * inject_Z i + - (step * inject_Z j)
                  == - step * (inject_Z j - inject_Z i))%Q) by ring.
  rewrite Hdiff.
  apply Qmult_le_0_compat; [exact Hstep|].
  unfold Qle, Qminus, Qplus, Qopp, inject_Z. simpl. lia.
Qed.

(** X18. The forecast follows the trend. Over exact arithmetic, for a
    department series of at least two snapshots: when the last snapshot has
    at least as many completed tasks as the first, the seven forecast values
    start at or above the last count and never fall from one day to the
    next; when it has at most as many they start at or below it and never
    rise; when trend detection reports 'stable' all seven are the last
    count. The same holds for the workload forecast over [totalTasks]. *)
Theorem forecast_follows_trend (tz : TimeZone)
    (first : TaskMetrics.t Q) (mid : list (TaskMetrics.t Q)) (last : TaskMetrics.t Q) :
  let metrics := first :: mid ++ [last] in
  let completed := List.map predicted (forecastTaskCompletion tz (Some metrics)) in
  let workload := List.map predicted (forecastDepartmentWorkload tz (Some metrics)) in
  (TaskMetrics.completedTasks first <= TaskMetrics.completedTasks last ->
   Sorted Z.le (TaskMetrics.completedTasks last :: completed))
  /\ (TaskMetrics.completedTasks last <= TaskMetrics.completedTasks first ->
      Sorted Z.ge (TaskMetrics.completedTasks last :: completed))
  /\ (List.map trend_trend (detectDepartmentTrends (Some metrics)) = ["stable"] ->
      completed = repeat (TaskMetrics.completedTasks last) 7)
  /\ (TaskMetrics.totalTasks first <= TaskMetrics.totalTasks last ->
      Sorted Z.le (TaskMetrics.totalTasks last :: workload))
  /\ (TaskMetrics.totalTasks last <= TaskMetrics.totalTasks first ->
      Sorted Z.ge (TaskMetrics.totalTasks last :: workload)).
Proof.
  intros metrics completed workload. subst completed workload metrics.
  unfold forecastTaskCompletion, forecastDepartmentWorkload.
  rewrite !linearForecast_ends, !map_map. cbn [predicted].
  set (n := Z.of_nat (length (first :: mid ++ [last]))).
  assert (Hn : 2 <= n).
  { subst n. cbn [length]. rewrite length_app. cbn [length]. lia. }
  assert (Hrise : forall a b, a <= b ->
    Sorted Z.le (b :: List.map (extrapolated (num := Q) (inject_Z a) (inject_Z b) n) horizon)).
  { intros a b Hab. rewrite <- (extrapolated_start a b n) at 1.
    unfold horizon. cbn [List.map].
    repeat (apply Sorted_cons;
            [|first [apply HdRel_nil
                    |apply HdRel_cons; apply extrapolated_rising; [exact Hn|exact Hab|lia]]]).
    apply Sorted_nil. }
  assert (Hfall : forall a b, b <= a ->
    Sorted Z.ge (b :: List.map (extrapolated (num := Q) (inject_Z a) (inject_Z b) n) horizon)).
  { intros a b Hab. rewrite <- (extrapolated_start a b n) at 1.
    unfold horizon. cbn [List.map].
    repeat (apply Sorted_cons;
            [|first [apply HdRel_nil
                    |apply HdRel_cons; apply Z.le_ge;
                     apply extrapolated_falling; [exact Hn|exact Hab|lia]]]).
    apply Sorted_nil. }
  split; [apply Hrise|]. split; [apply Hfall|].
  split; [|split; [apply Hrise|apply Hfall]].
  intros Hstable. unfold detectDepartmentTrends in Hstable.
  rewrite ends_long, ends_first, ends_last in Hstable.
  assert (Hsame : TaskMetrics.completedTasks first = TaskMetrics.completedTasks last).
  { destruct (Z.ltb_spec 0 (TaskMetrics.completedTasks last - TaskMetrics.completedTasks first));
      [discriminate|].
    destruct (Z.ltb_spec (TaskMetrics.completedTasks last - TaskMetrics.completedTasks first) 0);
      [discriminate|]. lia. }
  unfold horizon. cbn [List.map repeat]. cbn [of_Z Q_Number].
  assert (Hpoint : forall i, 0 <= i ->
    extrapolated (num := Q) (inject_Z (TaskMetrics.completedTasks first))
      (inject_Z (TaskMetrics.completedTasks last)) n i = TaskMetrics.completedTasks last).
  { intros i Hi.
    pose proof (extrapolated_falling (TaskMetrics.completedTasks first)
                  (TaskMetrics.completedTasks last) n 0 i Hn ltac:(lia) Hi) as Hupper.
    pose proof (extrapolated_rising (TaskMetrics.completedTasks first)
                  (TaskMetrics.completedTasks last) n 0 i Hn ltac:(lia) Hi) as Hlower.
    rewrite extrapolated_start in Hupper, Hlower. lia. }
  rewrite !Hpoint by lia. reflexivity.
Qed.

(** ** Status distribution *)

Lemma fold_postIncrement_status (tasks : list Task) (obj : gmap string counter)
    (key : string) :
  fold_left (fun dist task => postIncrement dist (status task)) tasks obj !! key
  = bumped (Z.to_nat (withStatus key tasks)) (obj !! key).
Proof.
  unfold withStatus, count. rewrite Nat2Z.id.
  revert obj. induction tasks as [|task rest IH]; intros obj; [reflexivity|].
  cbn [fold_left]. rewrite IH, postIncrement_lookup, bumped_bumped.
  f_equal. cbn [List.filter].
  destruct (String.eqb (status task) key); cbn [length]; lia.
Qed.

Lemma withStatus_total (tasks : list Task) :
  Forall (fun task => knownStatus (status task)) tasks ->
  withStatus "pending" tasks + withStatus "in_progress" tasks
  + withStatus "completed" tasks + withStatus "cancelled" tasks
  = Z.of_nat (length tasks).
Proof.
  unfold withStatus, count. induction 1 as [|task rest Hkey _ IH]; [reflexivity|].
  cbn [List.filter length].
  destruct Hkey as [-> | [-> | [-> | ->]]];
    cbn [String.eqb Ascii.eqb Bool.eqb andb length]; lia.
Qed.

Section StatusDistribution.
Context {num : Type} `{Number num}.

(** X19. The status distribution of [calculateTaskTrends] agrees with
    the snapshot of [calculateTaskMetrics] on the same tasks, at any clock:
    its completed and pending counters are the snapshot's completedTasks
    and pendingTasks and the average resolution time is the snapshot's
    average completion time. Each of the four counters is the number of
    tasks with that status, and the four add up to the number of tasks when
    every status is one of the four. A status without a counter gets the
    cell NaN as soon as one task has it. *)
Theorem status_distribution_agrees_with_metrics (tasks : list Task) (clock : Z) :
  let trends := calculateTaskTrends tasks in
  let m := calculateTaskMetrics tasks clock in
  statusDistribution trends !! "completed" = Some (Num (ms_completedTasks m))
  /\ statusDistribution trends !! "pending" = Some (Num (ms_pendingTasks m))
  /\ averageResolutionTime trends = ms_averageCompletionTime m
  /\ (forall key, knownStatus key ->
        statusDistribution trends !! key = Some (Num (withStatus key tasks)))
  /\ (Forall (fun task => knownStatus (status task)) tasks ->
        withStatus "pending" tasks + withStatus "in_progress" tasks
        + withStatus "completed" tasks + withStatus "cancelled" tasks
        = ms_totalTasks m)
  /\ (forall key, ~ knownStatus key ->
        statusDistribution trends !! key
        = if withStatus key tasks =? 0 then None else Some NaN).
Proof.
  intros trends m. subst trends m.
  cbn [calculateTaskTrends calculateTaskMetrics statusDistribution averageResolutionTime
       ms_completedTasks ms_pendingTasks ms_averageCompletionTime ms_totalTasks].
  assert (Hknown : forall key, knownStatus key ->
    fold_left (fun dist task => postIncrement dist (status task)) tasks
      initialStatusDistribution !! key = Some (Num (withStatus key tasks))).
  { intros key Hkey. rewrite fold_postIncrement_status.
    assert (Hcell : initialStatusDistribution !! key = Some (Num 0)).
    { destruct Hkey as [-> | [-> | [-> | ->]]]; reflexivity. }
    rewrite Hcell, bumped_zero, Z2Nat.id; [reflexivity|].
    apply count_bounds. }
  split; [exact (Hknown "completed" ltac:(unfold knownStatus; tauto))|].
  split; [exact (Hknown "pending" ltac:(unfold knownStatus; tauto))|].
  split; [reflexivity|]. split; [exact Hknown|].
  split; [apply withStatus_total|].
  intros key Hkey. rewrite fold_postIncrement_status.
  assert (Hcell : initialStatusDistribution !! key = None).
  { unfold initialStatusDistribution, knownStatus in *.
    rewrite !lookup_insert_ne by (intros <-; tauto). apply lookup_empty. }
  rewrite Hcell, bumped_missing.
  pose proof (count_bounds (fun task => String.eqb (status task) key) tasks) as Hbounds.
  fold (withStatus key tasks) in Hbounds.
  destruct (Z.eqb_spec (withStatus key tasks) 0) as [->|Hpos]; [reflexivity|].
  destruct (Nat.eqb_spec (Z.to_nat (withStatus key tasks)) 0); [lia|reflexivity].
Qed.

End StatusDistribution.
